(** * Line plot widget (owlineplot.py): selection and group statistics

    A shallow embedding of [orangecontrib/prototypes/widgets/owlineplot.py]:
    the geometry kernel ([ccw], [intersects],
    [line_segments_line_intersect]), the numpy reductions the widget calls
    on a group of profiles, and the widget's state machine (selection,
    subset, visibility, commit).

    Numbers.  The Python functions are duck-typed: [ccw] runs on anything
    with [-], [*] and [>].  The widget feeds them IEEE binary64 values
    (Qt coordinates, numpy [float64] columns).  The [Number] interface below
    lists the operations the source uses; it has two instances:
    - [float]: Rocq's primitive binary64 floats, the arithmetic the program
      really runs;
    - [xq]: exact rationals extended with NaN, arithmetic without rounding. *)

From Stdlib Require Import ZArith QArith Qfield Lqa Bool List.
From Stdlib Require Import Floats.PrimFloat Floats.SpecFloat Floats.FloatOps.
From Stdlib Require Import Floats.FloatAxioms.
From stdpp Require Import gmap list.

(* ===================================================================== *)
(** ** Numbers *)
(* ===================================================================== *)

(** Exact rationals with a NaN.  There are no infinities; the only division
    by zero the modelled code performs is [0 / 0] (mean of an empty slice),
    which is NaN in IEEE arithmetic too. *)
Inductive xq : Type :=
  | XNaN
  | XFin (q : Q).

Definition xq_lift2 (f : Q -> Q -> Q) (a b : xq) : xq :=
  match a, b with
  | XFin p, XFin q => XFin (f p q)
  | _, _ => XNaN
  end.

Definition xq_div (a b : xq) : xq :=
  match a, b with
  | XFin p, XFin q => if Qeq_bool q 0 then XNaN else XFin (Qdiv p q)
  | _, _ => XNaN
  end.

Definition xq_cmp (f : Q -> Q -> bool) (a b : xq) : bool :=
  match a, b with
  | XFin p, XFin q => f p q
  | _, _ => false
  end.

Definition xq_isnan (a : xq) : bool :=
  match a with XNaN => true | XFin _ => false end.

(** Equality of values (the rationals up to [Qeq]). *)
Definition xq_eq (a b : xq) : Prop :=
  match a, b with
  | XNaN, XNaN => True
  | XFin p, XFin q => Qeq p q
  | _, _ => False
  end.

Class Number (F : Type) : Type := {
  num_add : F -> F -> F;
  num_sub : F -> F -> F;
  num_mul : F -> F -> F;
  num_div : F -> F -> F;
  num_ltb : F -> F -> bool;      (* Python [<]; false when an operand is NaN *)
  num_leb : F -> F -> bool;      (* Python [<=] *)
  num_eqb : F -> F -> bool;      (* Python [==] *)
  num_isnan : F -> bool;         (* [np.isnan] *)
  num_nan : F;
  num_of_Z : Z -> F;             (* an [int] used where a float is expected *)
  num_exact : F -> xq            (* the rational a finite value denotes *)
}.

Declare Scope num_scope.
Delimit Scope num_scope with num.
Notation "a + b" := (num_add a b) : num_scope.
Notation "a - b" := (num_sub a b) : num_scope.
Notation "a * b" := (num_mul a b) : num_scope.
Notation "a / b" := (num_div a b) : num_scope.
Notation "a <? b" := (num_ltb a b) : num_scope.
Notation "a >? b" := (num_ltb b a) : num_scope.
Notation "a <=? b" := (num_leb a b) : num_scope.
Notation "a >=? b" := (num_leb b a) : num_scope.
Notation "a =? b" := (num_eqb a b) : num_scope.

#[export] Instance xq_number : Number xq := {|
  num_add := xq_lift2 Qplus;
  num_sub := xq_lift2 Qminus;
  num_mul := xq_lift2 Qmult;
  num_div := xq_div;
  num_ltb := xq_cmp (fun p q => negb (Qle_bool q p));
  num_leb := xq_cmp Qle_bool;
  num_eqb := xq_cmp Qeq_bool;
  num_isnan := xq_isnan;
  num_nan := XNaN;
  num_of_Z := fun z => XFin (inject_Z z);
  num_exact := fun a => a
|}.

(** An [int] converted to binary64 (exact below 2^53). *)
Definition float_of_Z (z : Z) : float :=
  match z with
  | Z0 => PrimFloat.zero
  | Zpos _ => PrimFloat.of_uint63 (Uint63Axioms.of_Z z)
  | Zneg p => PrimFloat.opp (PrimFloat.of_uint63 (Uint63Axioms.of_Z (Zpos p)))
  end.

(** The rational denoted by a finite binary64 value, read off its sign,
    mantissa and exponent. *)
Definition float_exact (f : float) : xq :=
  match Prim2SF f with
  | S754_zero _ => XFin 0
  | S754_finite s m e =>
      XFin (Qmult (inject_Z (if s then Zneg m else Zpos m)) (Qpower 2 e))
  | S754_infinity _ | S754_nan => XNaN
  end.

#[export] Instance float_number : Number float := {|
  num_add := PrimFloat.add;
  num_sub := PrimFloat.sub;
  num_mul := PrimFloat.mul;
  num_div := PrimFloat.div;
  num_ltb := PrimFloat.ltb;
  num_leb := PrimFloat.leb;
  num_eqb := PrimFloat.eqb;
  num_isnan := PrimFloat.is_nan;
  num_nan := PrimFloat.nan;
  num_of_Z := float_of_Z;
  num_exact := float_exact
|}.

(* ===================================================================== *)
(** ** Geometry kernel *)
(* ===================================================================== *)

Module Geometry.

Section Kernel.
Context {F : Type} {N : Number F}.

(** [point = namedtuple("point", ["x", "y"])] *)
Record point : Type := Point { x : F; y : F }.

(** [def ccw(a, b, c)]: are the three points listed counterclockwise. *)
Definition ccw (a b c : point) : bool :=
  ((y c - y a) * (x b - x a) >? (y b - y a) * (x c - x a))%num.

(** [def intersects(a, b, c, d)]; Python's [!=] on two bools is [xorb]. *)
Definition intersects (a b c d : point) : bool :=
  xorb (ccw a c d) (ccw b c d) && xorb (ccw a b c) (ccw a b d).

(** [def line_segments_line_intersect(p1, p2, item)]: the item's polyline
    is given by [xData] and [yData]; the loop runs over
    [range(len(item.xData) - 1)] and returns at the first hit.  The two
    arrays of a plotted curve have the same length. *)
Fixpoint line_segments_line_intersect (p1 p2 : point) (xData yData : list F)
  : bool :=
  match xData, yData with
  | x0 :: ((x1 :: _) as xs), y0 :: ((y1 :: _) as ys) =>
      if intersects p1 p2 (Point x0 y0) (Point x1 y1) then true
      else line_segments_line_intersect p1 p2 xs ys
  | _, _ => false
  end.


End Kernel.

Arguments point F : clear implicits.

End Geometry.

(* ===================================================================== *)
(** ** The numpy reductions called by the widget *)
(* ===================================================================== *)

(** numpy is not part of the repository.  The functions below follow its
    documented behaviour on a 2-D [float64] array reduced along [axis=0].
    A 2-D array of shape (n, M) is the list of its n rows; M is passed
    where the shape is needed. *)
Module Numpy.

Section Reductions.
Context {F : Type} {N : Number F}.

Definition zero : F := num_of_Z 0.
Definition one : F := num_of_Z 1.

(** [np.maximum(a, b)]: [(a >= b || isnan(a)) ? a : b]. *)
Definition maximum (a b : F) : F :=
  if (a >=? b)%num || num_isnan a then a else b.

(** [np.minimum(a, b)]: [(a <= b || isnan(a)) ? a : b]. *)
Definition minimum (a b : F) : F :=
  if (a <=? b)%num || num_isnan a then a else b.

(** [np.clip(a, a_min, a_max)]: "Equivalent to but faster than
    [np.minimum(a_max, np.maximum(a, a_min))]. No check is performed to
    ensure [a_min < a_max]"; when [a_min > a_max] the result is
    [a_max]. *)
Definition clip (a a_min a_max : F) : F :=
  minimum (maximum a a_min) a_max.

(** [np.clip] with a scalar lower bound and an array upper bound. *)
Definition clip_array (a : list F) (a_min : F) (a_max : list F) : list F :=
  zip_with (fun v hi => clip v a_min hi) a a_max.

(** [a - b] on two 1-D arrays of the same length. *)
Definition subtract (a b : list F) : list F := zip_with num_sub a b.

Definition column (X : list (list F)) (j : nat) : list F :=
  map (fun r => nth j r num_nan) X.

Definition columns (M : nat) (X : list (list F)) : list (list F) :=
  map (column X) (seq 0 M).

Definition notnan (v : F) : bool := negb (num_isnan v).

(** [np.add.reduce]: the additive identity, then every element in turn.
    numpy adds a contiguous run of 8 or more values in blocks instead,
    which can change the last bit of a binary64 total.  In exact arithmetic
    the order is immaterial; the binary64 statements of this file are about
    columns of fewer than 8 rows, or about totals that no order of the
    additions changes. *)
Definition sum (l : list F) : F := fold_left num_add l zero.

(** [np.nanmean] on one column: NaNs are replaced by 0, the total is
    divided by the count of non-NaN entries; [0 / 0] is NaN ("Mean of
    empty slice"). *)
Definition nanmean_1d (col : list F) : F :=
  let arr := map (fun v => if num_isnan v then zero else v) col in
  let cnt := length (List.filter notnan col) in
  (sum arr / num_of_Z (Z.of_nat cnt))%num.

(** [np.nanmean(X, axis=0)] *)
Definition nanmean (M : nat) (X : list (list F)) : list F :=
  map nanmean_1d (columns M X).

(** [np.fmax] and [np.fmin] ignore a NaN operand where they can. *)
Definition fmax (a b : F) : F :=
  if (a >=? b)%num || num_isnan b then a else b.
Definition fmin (a b : F) : F :=
  if (a <=? b)%num || num_isnan b then a else b.

(** [np.fmax.reduce] has no identity: it starts from the first element. *)
Definition reduce1 (f : F -> F -> F) (col : list F) : F :=
  match col with
  | [] => num_nan
  | v :: rest => fold_left f rest v
  end.

(** [np.nanmax(X, axis=0)] and [np.nanmin(X, axis=0)]; reducing an array
    without rows raises [ValueError] (zero-size array to a reduction
    without identity). *)
Definition nanmax (M : nat) (X : list (list F)) : option (list F) :=
  match X with
  | [] => None
  | _ => Some (map (reduce1 fmax) (columns M X))
  end.

Definition nanmin (M : nat) (X : list (list F)) : option (list F) :=
  match X with
  | [] => None
  | _ => Some (map (reduce1 fmin) (columns M X))
  end.

(** Ascending order of the non-NaN values of a column. *)
Fixpoint insert_sorted (v : F) (l : list F) : list F :=
  match l with
  | [] => [v]
  | w :: rest => if (v <=? w)%num then v :: l else w :: insert_sorted v rest
  end.

Definition sort (l : list F) : list F := fold_right insert_sorted [] l.

(** numpy's [_lerp(a, b, t)] of the "linear" percentile method. *)
Definition lerp (a b t : F) : F :=
  if (t >=? one / num_of_Z 2)%num
  then (b - (b - a) * (one - t))%num
  else (a + (b - a) * t)%num.

(** [np.nanpercentile] of one column at an integer percentile [q] in
    [0, 100): the NaNs are removed; an empty remainder gives NaN; the
    virtual index [(n - 1) * q / 100] is split into its integer part and
    the remainder [gamma]; the result interpolates between the two
    neighbouring order statistics. *)
Definition nanpercentile_1d (q : Z) (col : list F) : F :=
  let vals := sort (List.filter notnan col) in
  match vals with
  | [] => num_nan
  | _ =>
      let n := Z.of_nat (length vals) in
      let k := ((n - 1) * q)%Z in
      let lo := Z.to_nat (k / 100) in
      let gamma := (num_of_Z (k mod 100) / num_of_Z 100)%num in
      let hi := Nat.min (S lo) (length vals - 1) in
      lerp (nth lo vals num_nan) (nth hi vals num_nan) gamma
  end.

(** [np.nanpercentile(X, q, axis=0)] *)
Definition nanpercentile (M : nat) (X : list (list F)) (q : Z) : list F :=
  map (nanpercentile_1d q) (columns M X).

(** The mean of a column as the specification words it: the arithmetic
    mean of the entries that are not NaN, NaN when there is none. *)
Definition spec_mean_ignoring_nan (col : list F) : F :=
  match List.filter notnan col with
  | [] => num_nan
  | vs => (fold_left num_add vs zero / num_of_Z (Z.of_nat (length vs)))%num
  end.

(** The clamp the specification words: [max(0, v)]. *)
Definition spec_clamp_nonneg (v : F) : F :=
  if (v <? zero)%num then zero else v.
End Reductions.

End Numpy.

(* ===================================================================== *)
(** ** The widget: data model *)
(* ===================================================================== *)

(** What is left out: pens, colours, the legend, axis ticks, the info label
    and the zoom/pan view transforms.  They are written by the code modelled
    here but never read by it.

    Python exceptions ([KeyError] from [self._items[i]], [IndexError] from
    [self.data[self.selection]], [ValueError] from a reduction of an empty
    array) are the [None] of [option].

    Objects shared by reference.  A [LinePlotItem] is referenced from
    [graph._items], [graph._items_by_id] and [widget.__profiles] at once.
    The items of one load have distinct [index] fields, so [_items]
    (keyed by index) is the store of the objects, and [_items_by_id] and
    [__profiles] hold indices into it. *)
Module Widget.

(** [class LinePlotDisplay(IntEnum)] *)
Inductive LinePlotDisplay : Type :=
  | RANGE_WITH_MEAN
  | INSTANCES
  | MEAN
  | INSTANCES_WITH_MEAN.

(** [SELECT, PANNING, ZOOMING] of [Orange.widgets.utils.plot]. *)
Inductive PlotState : Type := SELECT | PANNING | ZOOMING.

Inductive MouseButton : Type := LeftButton | RightButton | MiddleButton.

(** [Qt.KeyboardModifier] flags. *)
Definition NoModifier : Z := 0.
Definition ShiftModifier : Z := 0x02000000.
Definition ControlModifier : Z := 0x04000000.
Definition AltModifier : Z := 0x08000000.

(** Truth value of [keys & flag]. *)
Definition has_modifier (keys flag : Z) : bool :=
  negb (Z.land keys flag =? 0)%Z.

(** A variable of the domain. *)
Inductive Var : Type :=
  | ContinuousVariable
  | DiscreteVariable (values : nat).   (* the number of its values *)

Definition is_continuous (v : Var) : bool :=
  match v with ContinuousVariable => true | DiscreteVariable _ => false end.

Definition is_discrete (v : Var) : bool :=
  match v with ContinuousVariable => false | DiscreteVariable _ => true end.

Record Domain : Type := {
  attributes : list Var;
  class_var : option Var
}.

(** The grouping variable chosen in the "Group by" list: the class or the
    attribute at a position. *)
Inductive GroupVar : Type :=
  | GroupByClass
  | GroupByAttribute (j : nat).

(** The values a [ContextSetting] gets back when a stored context matches
    the domain ([group_var] and [selection]). *)
Record ContextValues : Type := {
  ctx_group_var : option GroupVar;
  ctx_selection : list nat
}.

(** The order in which Python iterates over a [set] is not specified: any
    enumeration of the members without repetition.  An instance is one
    such order; Python may list two equal sets differently when they were
    built differently, so a statement that compares two runs takes an
    instance for each.  Nothing below reads more of the order than
    this. *)
Class SetIteration : Type := {
  list_of_set : gset nat -> list nat;
  list_of_set_NoDup : forall s, NoDup (list_of_set s);
  elem_of_list_of_set : forall s i, i ∈ list_of_set s <-> i ∈ s
}.

Section Machine.
Context {F : Type} {N : Number F}.

(** A row of an [Orange.data.Table]: its id, its values on the attributes
    and its class value. *)
Record Row : Type := {
  row_id : nat;
  row_x : list F;
  row_y : F
}.

Record Table : Type := {
  domain : Domain;
  rows : list Row
}.

(** [class LinePlotItem(pg.PlotCurveItem)] *)
Record LinePlotItem : Type := {
  index : nat;
  instance_id : nat;
  xData : list F;
  yData : list F;
  _selected : bool;
  _in_subset : bool;
  visible : bool
}.

Definition item_select (it : LinePlotItem) : LinePlotItem :=
  {| index := index it; instance_id := instance_id it; xData := xData it;
     yData := yData it; _selected := true; _in_subset := _in_subset it;
     visible := visible it |}.

Definition item_deselect (it : LinePlotItem) : LinePlotItem :=
  {| index := index it; instance_id := instance_id it; xData := xData it;
     yData := yData it; _selected := false; _in_subset := _in_subset it;
     visible := visible it |}.

Definition into_subset (it : LinePlotItem) : LinePlotItem :=
  {| index := index it; instance_id := instance_id it; xData := xData it;
     yData := yData it; _selected := _selected it; _in_subset := true;
     visible := visible it |}.

Definition out_of_subset (it : LinePlotItem) : LinePlotItem :=
  {| index := index it; instance_id := instance_id it; xData := xData it;
     yData := yData it; _selected := _selected it; _in_subset := false;
     visible := visible it |}.

Definition setVisible (b : bool) (it : LinePlotItem) : LinePlotItem :=
  {| index := index it; instance_id := instance_id it; xData := xData it;
     yData := yData it; _selected := _selected it;
     _in_subset := _in_subset it; visible := b |}.

(** One entry of [__groups]: the mean curve, the range band and the error
    bar of a group, each with its visibility. *)
Record Group : Type := {
  mean : list F;
  mean_visible : bool;
  range_max : list F;
  range_min : list F;
  range_visible : bool;
  error_bottom : list F;
  error_top : list F;
  error_bar_visible : bool
}.

(** [class LinePlotGraph(pg.PlotWidget)]; its [selection] is named
    [graph_selection] here, the widget has a [selection] of its own. *)
Record LinePlotGraph : Type := {
  _items : gmap nat LinePlotItem;
  _items_by_id : gmap nat nat;
  graph_selection : gset nat;
  state : PlotState
}.

(** What one [commit] sends: [Outputs.selected_data] and
    [Outputs.annotated_data]. *)
Definition Outputs : Type :=
  (option (list Row) * option (list (Row * bool)))%type.

(** [class OWLinePlot(OWWidget)].  [outputs] logs what was sent, newest
    first; [keyboardModifiers] is [QApplication.keyboardModifiers()]. *)
Record OWLinePlot : Type := {
  data : option Table;
  data_subset : option Table;
  subset_selection : gset nat;
  graph_variables : list nat;
  selection : list nat;
  display_index : LinePlotDisplay;
  display_quartiles : bool;
  group_var : option GroupVar;
  __groups : option (list (option Group));
  __profiles : option (list nat);
  graph : LinePlotGraph;
  not_enough_attrs : bool;
  outputs : list Outputs;
  keyboardModifiers : Z
}.

Definition with_items (v : gmap nat LinePlotItem) (r : LinePlotGraph) : LinePlotGraph :=
  {| _items := v; _items_by_id := _items_by_id r; graph_selection :=
     graph_selection r; state := state r |}.

Definition with_items_by_id (v : gmap nat nat) (r : LinePlotGraph) : LinePlotGraph :=
  {| _items := _items r; _items_by_id := v; graph_selection :=
     graph_selection r; state := state r |}.

Definition with_graph_selection (v : gset nat) (r : LinePlotGraph) : LinePlotGraph :=
  {| _items := _items r; _items_by_id := _items_by_id r; graph_selection
     := v; state := state r |}.

Definition with_state (v : PlotState) (r : LinePlotGraph) : LinePlotGraph :=
  {| _items := _items r; _items_by_id := _items_by_id r; graph_selection
     := graph_selection r; state := v |}.

Definition with_data (v : option Table) (r : OWLinePlot) : OWLinePlot :=
  {| data := v; data_subset := data_subset r; subset_selection :=
     subset_selection r; graph_variables := graph_variables r; selection
     := selection r; display_index := display_index r; display_quartiles
     := display_quartiles r; group_var := group_var r; __groups :=
     __groups r; __profiles := __profiles r; graph := graph r;
     not_enough_attrs := not_enough_attrs r; outputs := outputs r;
     keyboardModifiers := keyboardModifiers r |}.

Definition with_data_subset (v : option Table) (r : OWLinePlot) : OWLinePlot :=
  {| data := data r; data_subset := v; subset_selection :=
     subset_selection r; graph_variables := graph_variables r; selection
     := selection r; display_index := display_index r; display_quartiles
     := display_quartiles r; group_var := group_var r; __groups :=
     __groups r; __profiles := __profiles r; graph := graph r;
     not_enough_attrs := not_enough_attrs r; outputs := outputs r;
     keyboardModifiers := keyboardModifiers r |}.

Definition with_subset_selection (v : gset nat) (r : OWLinePlot) : OWLinePlot :=
  {| data := data r; data_subset := data_subset r; subset_selection :=
     v; graph_variables := graph_variables r; selection := selection r;
     display_index := display_index r; display_quartiles :=
     display_quartiles r; group_var := group_var r; __groups := __groups
     r; __profiles := __profiles r; graph := graph r; not_enough_attrs
     := not_enough_attrs r; outputs := outputs r; keyboardModifiers :=
     keyboardModifiers r |}.

Definition with_graph_variables (v : list nat) (r : OWLinePlot) : OWLinePlot :=
  {| data := data r; data_subset := data_subset r; subset_selection :=
     subset_selection r; graph_variables := v; selection := selection r;
     display_index := display_index r; display_quartiles :=
     display_quartiles r; group_var := group_var r; __groups := __groups
     r; __profiles := __profiles r; graph := graph r; not_enough_attrs
     := not_enough_attrs r; outputs := outputs r; keyboardModifiers :=
     keyboardModifiers r |}.

Definition with_selection (v : list nat) (r : OWLinePlot) : OWLinePlot :=
  {| data := data r; data_subset := data_subset r; subset_selection :=
     subset_selection r; graph_variables := graph_variables r; selection
     := v; display_index := display_index r; display_quartiles :=
     display_quartiles r; group_var := group_var r; __groups := __groups
     r; __profiles := __profiles r; graph := graph r; not_enough_attrs
     := not_enough_attrs r; outputs := outputs r; keyboardModifiers :=
     keyboardModifiers r |}.

Definition with_display_index (v : LinePlotDisplay) (r : OWLinePlot) : OWLinePlot :=
  {| data := data r; data_subset := data_subset r; subset_selection :=
     subset_selection r; graph_variables := graph_variables r; selection
     := selection r; display_index := v; display_quartiles :=
     display_quartiles r; group_var := group_var r; __groups := __groups
     r; __profiles := __profiles r; graph := graph r; not_enough_attrs
     := not_enough_attrs r; outputs := outputs r; keyboardModifiers :=
     keyboardModifiers r |}.

Definition with_display_quartiles (v : bool) (r : OWLinePlot) : OWLinePlot :=
  {| data := data r; data_subset := data_subset r; subset_selection :=
     subset_selection r; graph_variables := graph_variables r; selection
     := selection r; display_index := display_index r; display_quartiles
     := v; group_var := group_var r; __groups := __groups r; __profiles
     := __profiles r; graph := graph r; not_enough_attrs :=
     not_enough_attrs r; outputs := outputs r; keyboardModifiers :=
     keyboardModifiers r |}.

Definition with_group_var (v : option GroupVar) (r : OWLinePlot) : OWLinePlot :=
  {| data := data r; data_subset := data_subset r; subset_selection :=
     subset_selection r; graph_variables := graph_variables r; selection
     := selection r; display_index := display_index r; display_quartiles
     := display_quartiles r; group_var := v; __groups := __groups r;
     __profiles := __profiles r; graph := graph r; not_enough_attrs :=
     not_enough_attrs r; outputs := outputs r; keyboardModifiers :=
     keyboardModifiers r |}.

Definition with_groups (v : option (list (option Group))) (r : OWLinePlot) : OWLinePlot :=
  {| data := data r; data_subset := data_subset r; subset_selection :=
     subset_selection r; graph_variables := graph_variables r; selection
     := selection r; display_index := display_index r; display_quartiles
     := display_quartiles r; group_var := group_var r; __groups := v;
     __profiles := __profiles r; graph := graph r; not_enough_attrs :=
     not_enough_attrs r; outputs := outputs r; keyboardModifiers :=
     keyboardModifiers r |}.

Definition with_profiles (v : option (list nat)) (r : OWLinePlot) : OWLinePlot :=
  {| data := data r; data_subset := data_subset r; subset_selection :=
     subset_selection r; graph_variables := graph_variables r; selection
     := selection r; display_index := display_index r; display_quartiles
     := display_quartiles r; group_var := group_var r; __groups :=
     __groups r; __profiles := v; graph := graph r; not_enough_attrs :=
     not_enough_attrs r; outputs := outputs r; keyboardModifiers :=
     keyboardModifiers r |}.

Definition with_graph (v : LinePlotGraph) (r : OWLinePlot) : OWLinePlot :=
  {| data := data r; data_subset := data_subset r; subset_selection :=
     subset_selection r; graph_variables := graph_variables r; selection
     := selection r; display_index := display_index r; display_quartiles
     := display_quartiles r; group_var := group_var r; __groups :=
     __groups r; __profiles := __profiles r; graph := v;
     not_enough_attrs := not_enough_attrs r; outputs := outputs r;
     keyboardModifiers := keyboardModifiers r |}.

Definition with_not_enough_attrs (v : bool) (r : OWLinePlot) : OWLinePlot :=
  {| data := data r; data_subset := data_subset r; subset_selection :=
     subset_selection r; graph_variables := graph_variables r; selection
     := selection r; display_index := display_index r; display_quartiles
     := display_quartiles r; group_var := group_var r; __groups :=
     __groups r; __profiles := __profiles r; graph := graph r;
     not_enough_attrs := v; outputs := outputs r; keyboardModifiers :=
     keyboardModifiers r |}.

Definition with_outputs (v : list Outputs) (r : OWLinePlot) : OWLinePlot :=
  {| data := data r; data_subset := data_subset r; subset_selection :=
     subset_selection r; graph_variables := graph_variables r; selection
     := selection r; display_index := display_index r; display_quartiles
     := display_quartiles r; group_var := group_var r; __groups :=
     __groups r; __profiles := __profiles r; graph := graph r;
     not_enough_attrs := not_enough_attrs r; outputs := v;
     keyboardModifiers := keyboardModifiers r |}.

Definition with_keyboardModifiers (v : Z) (r : OWLinePlot) : OWLinePlot :=
  {| data := data r; data_subset := data_subset r; subset_selection :=
     subset_selection r; graph_variables := graph_variables r; selection
     := selection r; display_index := display_index r; display_quartiles
     := display_quartiles r; group_var := group_var r; __groups :=
     __groups r; __profiles := __profiles r; graph := graph r;
     not_enough_attrs := not_enough_attrs r; outputs := outputs r;
     keyboardModifiers := v |}.


(** *** Python idioms *)

Context {SI : SetIteration}.

(** [for a in l: ...] over a state, left at the first exception. *)
Fixpoint for_each {A S : Type} (step : A -> S -> option S) (l : list A)
  (s : S) : option S :=
  match l with
  | [] => Some s
  | a :: rest => s' ← step a s; for_each step rest s'
  end.

(** [self._items[i].method()]: [KeyError] when [i] is not a key. *)
Definition item_call (method : LinePlotItem -> LinePlotItem) (i : nat)
  (items : gmap nat LinePlotItem) : option (gmap nat LinePlotItem) :=
  it ← items !! i; Some (<[i := method it]> items).

(** [s.symmetric_difference_update(c)] *)
Definition symmetric_difference (s c : gset nat) : gset nat :=
  (s ∖ c) ∪ (c ∖ s).

(** [np.arange(1, M + 1)] *)
Definition arange1 (M : nat) : list F :=
  map (fun k => num_of_Z (Z.of_nat (S k))) (seq 0 M).

(** [table[:, graph_variables].X] restricted to the rows [rs]. *)
Definition table_X (gv : list nat) (rs : list Row) : list (list F) :=
  map (fun r => map (fun j => nth j (row_x r) num_nan) gv) rs.

(** [table[sel]] with a list of row indices. *)
Definition table_getitem (t : Table) (sel : list nat) : option (list Row) :=
  mapM (fun i => rows t !! i) sel.

(** [Orange.widgets.utils.annotated_data.create_annotated_table]: [None]
    for no data; else a column of zeros of the table's length, set to 1 at
    [selected_indices] ([IndexError] out of range), is added to the
    table. *)
Definition create_annotated_table (d : option Table) (sel : list nat)
  : option (option (list (Row * bool))) :=
  match d with
  | None => Some None
  | Some t =>
      if forallb (fun i => i <? length (rows t)) sel
      then Some (Some (imap (fun i r => (r, bool_decide (i ∈ sel))) (rows t)))
      else None
  end.

(** [[var for var in data.domain.attributes if var.is_continuous]], as
    positions in [attributes]. *)
Definition continuous_attributes (d : Domain) : list nat :=
  List.filter
    (fun j => match attributes d !! j with
              | Some v => is_continuous v
              | None => false
              end)
    (seq 0 (length (attributes d))).

(** *** [LinePlotGraph] *)

Definition graph_init : LinePlotGraph :=
  {| _items := ∅; _items_by_id := ∅; graph_selection := ∅; state := SELECT |}.

(** [def reset(self)] *)
Definition reset (g : LinePlotGraph) : LinePlotGraph := graph_init.

(** [def add_line_plot_item(self, item)] *)
Definition add_line_plot_item (it : LinePlotItem) (g : LinePlotGraph)
  : LinePlotGraph :=
  with_items (<[index it := it]> (_items g))
    (with_items_by_id (<[instance_id it := index it]> (_items_by_id g)) g).

(** [def select_subset(self, ids)] *)
Definition select_subset (ids : gset nat) (w : OWLinePlot)
  : option OWLinePlot :=
  let g := graph w in
  items ← for_each
            (fun i items =>
               idx ← _items_by_id g !! i; item_call into_subset idx items)
            (list_of_set ids) (_items g);
  Some (with_graph (with_items items g) w).

(** [def deselect_subset(self)] *)
Definition deselect_subset (w : OWLinePlot) : OWLinePlot :=
  let g := graph w in
  with_graph (with_items (out_of_subset <$> _items g) g) w.

(** *** [OWLinePlot]: properties and pure parts *)

Definition has_selection (w : OWLinePlot) : bool :=
  match selection w with [] => false | _ :: _ => true end.

(** [bool(self.data_subset)]: a table is true when it has rows. *)
Definition has_subset (w : OWLinePlot) : bool :=
  match data_subset w with
  | Some t => match rows t with [] => false | _ :: _ => true end
  | None => false
  end.

Definition show_inst (d : LinePlotDisplay) : bool :=
  match d with INSTANCES | INSTANCES_WITH_MEAN => true | _ => false end.

Definition show_selection (d : LinePlotDisplay) : bool :=
  match d with RANGE_WITH_MEAN => true | _ => false end.

Definition show_mean (d : LinePlotDisplay) : bool :=
  match d with MEAN | INSTANCES_WITH_MEAN | RANGE_WITH_MEAN => true
             | INSTANCES => false end.

(** [def get_range_curve(X, data, pen)]: the two curves of the band. *)
Definition get_range_curve (X : list F) (dataX : list (list F))
  : option (list F * list F) :=
  mx ← Numpy.nanmax (length X) dataX;
  mn ← Numpy.nanmin (length X) dataX;
  Some (mx, mn).

(** [def get_error_bar(X, data, mean)]: the [bottom] and [top] handed to
    [pg.ErrorBarItem]; [data.X] has [len(X)] columns. *)
Definition get_error_bar (X : list F) (dataX : list (list F))
  (mean : list F) : list F * list F :=
  let q1 := Numpy.nanpercentile (length X) dataX 25 in
  let q3 := Numpy.nanpercentile (length X) dataX 75 in
  let bottom := Numpy.clip_array (Numpy.subtract mean q1) Numpy.zero
                  (Numpy.subtract mean q1) in
  let top := Numpy.clip_array (Numpy.subtract q3 mean) Numpy.zero
               (Numpy.subtract q3 mean) in
  (bottom, top).

(** [def __plot_group(self, X, data, index=None)]: the entry appended to
    [__groups]; new items are visible. *)
Definition __plot_group (X : list F) (dataX : list (list F))
  : option Group :=
  let mean := Numpy.nanmean (length X) dataX in
  range ← get_range_curve X dataX;
  let error_bar := get_error_bar X dataX mean in
  Some {| mean := mean; mean_visible := true;
          range_max := fst range; range_min := snd range;
          range_visible := true;
          error_bottom := fst error_bar; error_top := snd error_bar;
          error_bar_visible := true |}.

(** [self.data.get_column_view(self.group_var)] read at one row. *)
Definition group_value (v : GroupVar) (r : Row) : F :=
  match v with
  | GroupByClass => row_y r
  | GroupByAttribute j => nth j (row_x r) num_nan
  end.

(** [len(self.group_var.values)] *)
Definition group_values (v : GroupVar) (d : Domain) : nat :=
  match (match v with
         | GroupByClass => class_var d
         | GroupByAttribute j => attributes d !! j
         end) with
  | Some (DiscreteVariable n) => n
  | _ => 0
  end.

(** [def _plot_groups(self)]; [self.data[...]] on [None] raises. *)
Definition _plot_groups (w : OWLinePlot) : option OWLinePlot :=
  t ← data w;
  let X := arange1 (length (graph_variables w)) in
  match group_var w with
  | None =>
      g ← __plot_group X (table_X (graph_variables w) (rows t));
      Some (with_groups (Some [Some g]) w)
  | Some v =>
      gs ← mapM
             (fun i : nat =>
                let members :=
                  List.filter
                    (fun r => (group_value v r =? num_of_Z (Z.of_nat i))%num)
                    (rows t) in
                match members with
                | [] => Some None
                | _ :: _ =>
                    g ← __plot_group X (table_X (graph_variables w) members);
                    Some (Some g)
                end)
             (seq 0 (group_values v (domain t)));
      Some (with_groups (Some gs) w)
  end.

(** [def __update_visibility_groups(self)] *)
Definition __update_visibility_groups (w : OWLinePlot) : OWLinePlot :=
  let set_visible (g : Group) : Group :=
    {| mean := mean g; mean_visible := show_mean (display_index w);
       range_max := range_max g; range_min := range_min g;
       range_visible := show_selection (display_index w);
       error_bottom := error_bottom g; error_top := error_top g;
       error_bar_visible := display_quartiles w |} in
  with_groups (fmap (M := list) (fmap (M := option) set_visible) <$> __groups w) w.

(** [def commit(self)] *)
Definition commit (w : OWLinePlot) : option OWLinePlot :=
  selected ← match data w with
             | Some t =>
                 if has_selection w
                 then rs ← table_getitem t (selection w); Some (Some rs)
                 else Some None
             | None => Some None
             end;
  annotated ← create_annotated_table (data w) (selection w);
  Some (with_outputs ((selected, annotated) :: outputs w) w).

(** *** The calls that can reach [_plot_profiles]

    [select] calls [selection_changed], which calls [__update_visibility],
    which plots the profiles when they are not plotted yet, which calls
    [__select_data_instances], which calls [select].  The cycle is cut at
    [_plot_profiles]: it assigns [__profiles] before it calls on, so the
    [__update_visibility_profiles] below it never plots again.  The
    functions on the cycle take the plotting step as [plot]. *)

(** The second [if] of [__update_visibility_profiles]: with the profiles
    plotted, each is shown or hidden. *)
Definition show_profiles (w : OWLinePlot) : OWLinePlot :=
  match __profiles w with
  | None => w
  | Some profiles =>
      let chained : list nat :=
        selection w ++
        (if has_subset w
         then match data_subset w with
              | Some s => row_id <$> rows s
              | None => []
              end
         else []) in
      let g := graph w in
      let items :=
        foldl
          (fun items i =>
             let selected := bool_decide (i ∈ chained) in
             alter (setVisible
                      (show_inst (display_index w)
                       || selected && show_selection (display_index w)))
               i items)
          (_items g) profiles in
      with_graph (with_items items g) w
  end.

(** The condition of the first [if] of [__update_visibility_profiles]. *)
Definition plot_pending (w : OWLinePlot) : bool :=
  bool_decide (__profiles w = None)
  && (show_inst (display_index w) || show_selection (display_index w))
  && bool_decide (data w <> None).

(** [def __update_visibility_profiles(self)] *)
Definition __update_visibility_profiles_with
  (plot : OWLinePlot -> option OWLinePlot) (w : OWLinePlot)
  : option OWLinePlot :=
  w1 ← (if plot_pending w
        then w' ← plot w; select_subset (subset_selection w') w'
        else Some w);
  Some (show_profiles w1).

(** [def __update_visibility(self)] *)
Definition __update_visibility_with
  (plot : OWLinePlot -> option OWLinePlot) (w : OWLinePlot)
  : option OWLinePlot :=
  w1 ← __update_visibility_profiles_with plot w;
  Some (__update_visibility_groups w1).

(** [def selection_changed(self)] *)
Definition selection_changed_with
  (plot : OWLinePlot -> option OWLinePlot) (w : OWLinePlot)
  : option OWLinePlot :=
  let w1 := with_selection (list_of_set (graph_selection (graph w))) w in
  w2 ← __update_visibility_with plot w1;
  commit w2.

(** The selection [LinePlotGraph.select] computes from the held keys. *)
Definition updated_selection (keys : Z) (s : gset nat) (indices : list nat)
  : gset nat :=
  if has_modifier keys ControlModifier
  then symmetric_difference s (list_to_set indices)
  else if has_modifier keys AltModifier then s ∖ list_to_set indices
  else if has_modifier keys ShiftModifier then s ∪ list_to_set indices
  else list_to_set indices.

(** [def select(self, indices)] of [LinePlotGraph] *)
Definition select_with (plot : OWLinePlot -> option OWLinePlot)
  (indices : list nat) (w : OWLinePlot) : option OWLinePlot :=
  let g := graph w in
  items1 ← for_each (item_call item_deselect)
             (list_of_set (graph_selection g)) (_items g);
  let sel := updated_selection (keyboardModifiers w) (graph_selection g)
               indices in
  items2 ← for_each (item_call item_select) (list_of_set sel) items1;
  selection_changed_with plot
    (with_graph (with_graph_selection sel (with_items items2 g)) w).

(** [def deselect_all(self)] of [LinePlotGraph] *)
Definition deselect_all_with (plot : OWLinePlot -> option OWLinePlot)
  (w : OWLinePlot) : option OWLinePlot :=
  let g := graph w in
  items ← for_each (item_call item_deselect)
            (list_of_set (graph_selection g)) (_items g);
  selection_changed_with plot
    (with_graph (with_graph_selection ∅ (with_items items g)) w).

(** [def __select_data_instances(self)] *)
Definition __select_data_instances_with
  (plot : OWLinePlot -> option OWLinePlot) (w : OWLinePlot)
  : option OWLinePlot :=
  match data w with
  | None => Some w
  | Some t =>
      if (length (rows t) =? 0) || negb (has_selection w) then Some w
      else
        let w1 := if length (rows t) <=? foldr Nat.max 0 (selection w)
                  then with_selection [] w else w in
        select_with plot (selection w1) w1
  end.

(** Below [_plot_profiles] the profiles are plotted: this step is never
    taken ([WidgetInvariant.plot_profiles_plots_once]). *)
Definition plotted_already (w : OWLinePlot) : option OWLinePlot := None.

(** [LinePlotItem(self, index, inst.id, X, inst.x, color)] *)
Definition new_item (X : list F) (gv : list nat) (i : nat) (r : Row)
  : LinePlotItem :=
  {| index := i; instance_id := row_id r; xData := X;
     yData := map (fun j => nth j (row_x r) num_nan) gv;
     _selected := false; _in_subset := false; visible := true |}.

(** [def _plot_profiles(self)] *)
Definition _plot_profiles (w : OWLinePlot) : option OWLinePlot :=
  t ← data w;
  let X := arange1 (length (graph_variables w)) in
  let items := imap (new_item X (graph_variables w)) (rows t) in
  let g := foldl (fun g it => add_line_plot_item it g) (graph w) items in
  __select_data_instances_with plotted_already
    (with_profiles (Some (index <$> items)) (with_graph g w)).

Definition __update_visibility_profiles :=
  __update_visibility_profiles_with _plot_profiles.
Definition __update_visibility := __update_visibility_with _plot_profiles.
Definition selection_changed := selection_changed_with _plot_profiles.
Definition select := select_with _plot_profiles.
Definition deselect_all := deselect_all_with _plot_profiles.
Definition __select_data_instances :=
  __select_data_instances_with _plot_profiles.

(** [def clear(self)] *)
Definition clear (w : OWLinePlot) : OWLinePlot :=
  with_graph (reset (graph w))
    (with_graph_variables [] (with_profiles None (with_groups None w))).

(** [self.openContext(data)]: a stored context of the same domain gives
    its values back to the context settings; without one nothing
    changes. *)
Definition openContext (restored : option ContextValues) (w : OWLinePlot)
  : OWLinePlot :=
  match restored with
  | Some c => with_selection (ctx_selection c)
                (with_group_var (ctx_group_var c) w)
  | None => w
  end.

(** [def _setup_plot(self)] *)
Definition _setup_plot (w : OWLinePlot) : option OWLinePlot :=
  match data w with
  | None => Some w
  | Some _ =>
      w1 ← (if show_inst (display_index w) then _plot_profiles w else Some w);
      w2 ← _plot_groups w1;
      __update_visibility w2
  end.

(** [def set_data(self, data)] up to the [self.commit()] that ends both of
    its paths.  [openContext(None)] returns at once. *)
Definition set_data_until_commit (restored : option ContextValues)
  (d : option Table) (w : OWLinePlot) : option OWLinePlot :=
  let w := with_not_enough_attrs false (clear w) in
  let w := with_selection [] (with_data d w) in
  match d with
  | None => _setup_plot w
  | Some t =>
      let w := with_group_var
                 (match class_var (domain t) with
                  | Some v => if is_discrete v then Some GroupByClass else None
                  | None => None
                  end) w in
      let w := with_graph_variables (continuous_attributes (domain t)) w in
      if length (graph_variables w) <? 1
      then Some (with_not_enough_attrs true (with_data None w))
      else _setup_plot (openContext restored w)
  end.

(** [def set_data(self, data)] *)
Definition set_data (restored : option ContextValues) (d : option Table)
  (w : OWLinePlot) : option OWLinePlot :=
  w' ← set_data_until_commit restored d w; commit w'.

(** [def set_data_subset(self, subset)] *)
Definition set_data_subset (subset : option Table) (w : OWLinePlot)
  : OWLinePlot :=
  let w := with_data_subset subset w in
  if bool_decide (subset_selection w <> ∅) then deselect_subset w else w.

(** [def handleNewSignals(self)] *)
Definition handleNewSignals (w : OWLinePlot) : option OWLinePlot :=
  let w := with_subset_selection ∅ w in
  w1 ← match data w, data_subset w with
       | Some t, Some s =>
           if has_subset w && negb (length (graph_variables w) =? 0)
           then
             let intersection : gset nat :=
               list_to_set (row_id <$> rows t) ∩
               list_to_set (row_id <$> rows s) in
             let w := with_subset_selection intersection w in
             if bool_decide (__profiles w <> None)
             then select_subset (subset_selection w) w
             else Some w
           else Some w
       | _, _ => Some w
       end;
  match data w1 with
  | Some _ => __update_visibility w1
  | None => Some w1
  end.

(** [def __group_var_changed(self)], after the list view has stored the
    chosen variable. *)
Definition __group_var_changed (v : option GroupVar) (w : OWLinePlot)
  : option OWLinePlot :=
  let w := with_group_var v w in
  if bool_decide (data w = None) || (length (graph_variables w) =? 0)
  then Some w
  else w1 ← _plot_groups w; __update_visibility w1.

(** The radio buttons and the check box store the setting and call
    [__update_visibility]. *)
Definition display_index_changed (d : LinePlotDisplay) (w : OWLinePlot)
  : option OWLinePlot :=
  __update_visibility (with_display_index d w).

Definition display_quartiles_changed (b : bool) (w : OWLinePlot)
  : option OWLinePlot :=
  __update_visibility (with_display_quartiles b w).

(** [select_button_clicked], [pan_button_clicked], [zoom_button_clicked] *)
Definition state_button_clicked (s : PlotState) (w : OWLinePlot)
  : OWLinePlot :=
  with_graph (with_state s (graph w)) w.

(** [def select_by_line(self, p1, p2)] *)
Definition select_by_line (p1 p2 : Geometry.point F) (w : OWLinePlot)
  : option OWLinePlot :=
  let hit (entry : nat * LinePlotItem) : option nat :=
    if Geometry.line_segments_line_intersect p1 p2
         (xData entry.2) (yData entry.2)
    then Some (index entry.2) else None in
  select (omap hit (map_to_list (_items (graph w)))) w.

(** [def select_by_click(self, item)]: the signal carries a plotted item. *)
Definition select_by_click (i : nat) (w : OWLinePlot) : option OWLinePlot :=
  it ← _items (graph w) !! i; select [index it] w.

(** [def mouseClickEvent(self, event)] of the view box, with the keys held
    at the time. *)
Definition mouseClickEvent (keys : Z) (button : MouseButton)
  (w : OWLinePlot) : option OWLinePlot :=
  let w := with_keyboardModifiers keys w in
  match button with
  | RightButton => Some w
  | _ => deselect_all w
  end.

(** [def mouseDragEvent(self, event, axis=None)] of the view box, for a
    drag over the plot ([axis is None]) from [p1] to [p2] in view
    coordinates; only a finished drag changes the widget. *)
Definition mouseDragEvent (keys : Z) (button : MouseButton)
  (isFinish : bool) (p1 p2 : Geometry.point F) (w : OWLinePlot)
  : option OWLinePlot :=
  let w := with_keyboardModifiers keys w in
  match state (graph w), button with
  | SELECT, LeftButton => if isFinish then select_by_line p1 p2 w else Some w
  | _, _ => Some w
  end.

(** [def __init__(self, parent=None)], with the stored settings. *)
Definition init (display : LinePlotDisplay) (quartiles : bool) : OWLinePlot :=
  {| data := None; data_subset := None; subset_selection := ∅;
     graph_variables := []; selection := []; display_index := display;
     display_quartiles := quartiles; group_var := None; __groups := None;
     __profiles := None; graph := graph_init; not_enough_attrs := false;
     outputs := []; keyboardModifiers := NoModifier |}.

(** The operations open to the user and to the input signals once a
    dataset is in, a click on a plotted profile apart. *)
Inductive Op : Type :=
  | OpClick (keys : Z) (button : MouseButton)
  | OpDrag (keys : Z) (button : MouseButton) (isFinish : bool)
      (p1 p2 : Geometry.point F)
  | OpDisplayIndex (d : LinePlotDisplay)
  | OpDisplayQuartiles (b : bool)
  | OpGroupVar (v : option GroupVar)
  | OpStateButton (s : PlotState)
  | OpDataSubset (subset : option Table)
  | OpNewSignals
  | OpCommit.

Definition step (o : Op) (w : OWLinePlot) : option OWLinePlot :=
  match o with
  | OpClick keys button => mouseClickEvent keys button w
  | OpDrag keys button fin p1 p2 => mouseDragEvent keys button fin p1 p2 w
  | OpDisplayIndex d => display_index_changed d w
  | OpDisplayQuartiles b => display_quartiles_changed b w
  | OpGroupVar v => __group_var_changed v w
  | OpStateButton s => Some (state_button_clicked s w)
  | OpDataSubset subset => Some (set_data_subset subset w)
  | OpNewSignals => handleNewSignals w
  | OpCommit => commit w
  end.

Definition run (ops : list Op) (w : OWLinePlot) : option OWLinePlot :=
  for_each step ops w.

(** The states the widget passes through: from [__init__], by input
    signals and user events that do not raise. *)
Inductive reachable : OWLinePlot -> Prop :=
  | reachable_init d q : reachable (init d q)
  | reachable_set_data restored d w w' :
      reachable w -> set_data restored d w = Some w' -> reachable w'
  | reachable_step o w w' :
      reachable w -> step o w = Some w' -> reachable w'
  | reachable_click_profile keys i w w' :
      reachable w ->
      select_by_click i (with_keyboardModifiers keys w) = Some w' ->
      reachable w'.

(** *** Statements about states *)

(** [rs] lists the rows of [t] at the indices of [sel], in the order of
    [sel]. *)
Definition rows_at (t : Table) (sel : list nat) (rs : list Row) : Prop :=
  Forall2 (fun i r => rows t !! i = Some r) sel rs.

(** The selected output as the specification words it: nothing for an
    empty selection, else the table restricted to the selected row indices,
    in index order. *)
Definition spec_selected_subtable (t : Table) (sel : list nat)
  : option (list Row) :=
  match sel with
  | [] => None
  | _ :: _ =>
      Some (omap (fun ir : nat * Row =>
                    if bool_decide (ir.1 ∈ sel) then Some ir.2 else None)
              (imap pair (rows t)))
  end.

(** A state between two events: the selected indices are plotted items, no
    plotting of the profiles is due, and the plotted items are rows of the
    data. *)
Definition settled (w : OWLinePlot) : Prop :=
  graph_selection (graph w) ⊆ dom (_items (graph w)) /\
  plot_pending w = false /\
  (forall t, data w = Some t ->
     forall i, i ∈ dom (_items (graph w)) -> i < length (rows t)).

(** What [settled] reads of a state. *)
Definition core (w : OWLinePlot)
  : option Table * option (list nat) * LinePlotDisplay * gset nat * gset nat :=
  (data w, __profiles w, display_index w, graph_selection (graph w),
   dom (_items (graph w))).

(** A settled state that holds no item while no profile is plotted. *)
Definition consistent (w : OWLinePlot) : Prop :=
  settled w /\ (__profiles w = None -> dom (_items (graph w)) = ∅).

(** The states without data, profiles, aggregates or selection. *)
Definition without_profiles (subset : option Table) (ids : gset nat)
  (gv : list nat) (d : LinePlotDisplay) (q : bool) (v : option GroupVar)
  (s : PlotState) (msg : bool) (sent : list Outputs) (keys : Z)
  : OWLinePlot :=
  {| data := None; data_subset := subset; subset_selection := ids;
     graph_variables := gv; selection := []; display_index := d;
     display_quartiles := q; group_var := v; __groups := None;
     __profiles := None;
     graph := {| _items := ∅; _items_by_id := ∅; graph_selection := ∅;
                 state := s |};
     not_enough_attrs := msg; outputs := sent; keyboardModifiers := keys |}.

(** The engine without profiles, as [set_data] leaves it when the data has
    no continuous attribute. *)
Definition no_profiles (w : OWLinePlot) : Prop :=
  data w = None /\ __profiles w = None /\ __groups w = None /\
  selection w = [] /\ graph_selection (graph w) = ∅ /\
  _items (graph w) = ∅ /\ _items_by_id (graph w) = ∅.

End Machine.

Arguments Row F : clear implicits.
Arguments Table F : clear implicits.
Arguments LinePlotItem F : clear implicits.
Arguments Group F : clear implicits.
Arguments LinePlotGraph F : clear implicits.
Arguments Outputs F : clear implicits.
Arguments OWLinePlot F : clear implicits.
Arguments Op F : clear implicits.

(** One iteration order: the one of stdpp's [elements]. *)
#[export] Instance elements_iteration : SetIteration := {|
  list_of_set := elements;
  list_of_set_NoDup := NoDup_elements;
  elem_of_list_of_set := fun s i => elem_of_elements s i
|}.

(** Another order: the same members, listed backwards. *)
Definition reversed_iteration : SetIteration := {|
  list_of_set := fun s => rev (elements s);
  list_of_set_NoDup := fun s =>
    proj2 (NoDup_ListNoDup (rev (elements s)))
      (List.NoDup_rev (proj1 (NoDup_ListNoDup (elements s))
                         (NoDup_elements s)));
  elem_of_list_of_set := fun s i =>
    iff_trans (list_elem_of_In (rev (elements s)) i)
      (iff_trans (iff_sym (in_rev (elements s) i))
         (iff_trans (iff_sym (list_elem_of_In (elements s) i))
            (elem_of_elements s i)))
|}.

End Widget.

(** ** Example data *)

Module Examples.
Import Widget.

Definition one_continuous : Domain :=
  {| attributes := [ContinuousVariable]; class_var := None |}.

(** The row of id [100 + i] with the single value [i + 1]. *)
Definition row (i : nat) : Row float :=
  {| row_id := 100 + i; row_x := [float_of_Z (Z.of_nat (S i))];
     row_y := PrimFloat.nan |}.

Definition table (n : nat) : Table float :=
  {| domain := one_continuous; rows := map row (seq 0 n) |}.

(** A subset table holding the row of id 101 alone. *)
Definition subset_101 : Table float :=
  {| domain := one_continuous; rows := [row 1] |}.

(** A subset table whose only row has id 0, the id of no row of [table]. *)
Definition subset_0 : Table float :=
  {| domain := one_continuous;
     rows := [{| row_id := 0; row_x := [PrimFloat.one];
                 row_y := PrimFloat.nan |}] |}.

(** A table with two discrete attributes and no continuous one. *)
Definition discrete_only : Table float :=
  {| domain := {| attributes := [DiscreteVariable 2; DiscreteVariable 3];
                  class_var := Some (DiscreteVariable 2) |};
     rows := [{| row_id := 7; row_x := [PrimFloat.zero; PrimFloat.one];
                 row_y := PrimFloat.one |}] |}.

(** The widget after [table 3] has come in, in "Line plot" display. *)
Definition loaded : OWLinePlot float :=
  default (init INSTANCES false)
    (set_data None (Some (table 3)) (init INSTANCES false)).

(** What a stored context of a larger table of the same domain gives
    back: row 5 was selected. *)
Definition stored_row_5 : ContextValues :=
  {| ctx_group_var := None; ctx_selection := [5] |}.

End Examples.

(* ===================================================================== *)
(** ** Segments of the plane, for the statements about the kernel *)
(* ===================================================================== *)

Module Crossing.

(** A point with rational coordinates, as a point of the kernel. *)
Definition exact_point (p : Q * Q) : Geometry.point xq :=
  Geometry.Point (XFin (fst p)) (XFin (snd p)).

(** Twice the signed area of the triangle a, b, c: positive when the three
    points turn counterclockwise. *)
Definition orient (a b c : Q * Q) : Q :=
  ((snd c - snd a) * (fst b - fst a) - (snd b - snd a) * (fst c - fst a))%Q.

(** The point of the segment from [a] to [b] at the parameter [s]. *)
Definition along (a b : Q * Q) (s : Q) : Q * Q :=
  ((fst a + s * (fst b - fst a))%Q, (snd a + s * (snd b - snd a))%Q).

Definition same_point (p q : Q * Q) : Prop :=
  (fst p == fst q)%Q /\ (snd p == snd q)%Q.

(** The closed segments a-b and c-d have a common point. *)
Definition segments_meet (a b c d : Q * Q) : Prop :=
  exists s t : Q,
    (0 <= s <= 1)%Q /\ (0 <= t <= 1)%Q /\
    same_point (along a b s) (along c d t).

(** The segments a-b and c-d are not parallel and cross at a point inside
    both. *)
Definition segments_cross (a b c d : Q * Q) : Prop :=
  ~ ((fst b - fst a) * (snd d - snd c)
     - (snd b - snd a) * (fst d - fst c) == 0)%Q /\
  exists s t : Q,
    (0 < s < 1)%Q /\ (0 < t < 1)%Q /\
    same_point (along a b s) (along c d t).

End Crossing.

(* ===================================================================== *)
(** ** Views of a widget state, for the statements about its invariants *)
(* ===================================================================== *)

Module WidgetViews.
Import Widget.

Section Views.
Context {F : Type} {N : Number F}.

(** What the selection loops read and write of an item. *)
Definition selected_view (items : gmap nat (LinePlotItem F))
  : gmap nat (nat * bool) :=
  (fun it => (index it, _selected it)) <$> items.

(** The selection of the graph with the flags of its items. *)
Definition selection_view (w : OWLinePlot F)
  : gset nat * gmap nat (nat * bool) :=
  (graph_selection (graph w), selected_view (_items (graph w))).

(** Each item is stored under its own index, and is flagged selected
    exactly when its index is in the selection of the graph. *)
Definition flags_in_sync (w : OWLinePlot F) : Prop :=
  forall i k b,
    selected_view (_items (graph w)) !! i = Some (k, b) ->
    k = i /\ (b = true <-> i ∈ graph_selection (graph w)).

(** The fields that [select], [deselect_all], [selection_changed],
    [commit] and the visibility updates leave alone once the profiles are
    plotted. *)
Definition settings_view (w : OWLinePlot F) :=
  (data w, data_subset w, subset_selection w, graph_variables w,
   display_index w, display_quartiles w, group_var w, __profiles w,
   _items_by_id (graph w), state (graph w), not_enough_attrs w,
   keyboardModifiers w).

(** The widget's selection lists valid rows only. *)
Definition selection_in_range (w : OWLinePlot F) : Prop :=
  forall t, data w = Some t ->
    forall i, i ∈ selection w -> i < length (rows t).

(** What an item draws, and for which row. *)
Definition curve (it : LinePlotItem F) : nat * nat * list F * list F :=
  (index it, instance_id it, xData it, yData it).

Definition curve_view (items : gmap nat (LinePlotItem F))
  : gmap nat (nat * nat * list F * list F) :=
  curve <$> items.

(** The widget's selection was copied from the graph's. *)
Definition listed (w : OWLinePlot F) : Prop :=
  forall i, i ∈ selection w -> i ∈ graph_selection (graph w).

(** Data, selection and the selection of the graph are those of [w]. *)
Definition kept (w w' : OWLinePlot F) : Prop :=
  data w' = data w /\ selection w' = selection w /\
  graph_selection (graph w') = graph_selection (graph w).

End Views.
End WidgetViews.


Module MoreExamples.
Import Widget Examples.

(** The loaded widget after a click on the profile of row 1, no key
    held. *)
Definition clicked : OWLinePlot float :=
  default loaded (select_by_click 1 (with_keyboardModifiers NoModifier loaded)).

(** After that, a click on the profile of row 2 with shift held: the rows
    1 and 2 are selected. *)
Definition two_selected : OWLinePlot float :=
  default clicked
    (select_by_click 2 (with_keyboardModifiers ShiftModifier clicked)).

(** The display of [clicked] switched to "Mean". *)
Definition mean_shown : OWLinePlot float :=
  default clicked (step (OpDisplayIndex MEAN) clicked).

(** A widget in "Range with mean" display that remembers the id 7 of a row
    of an earlier table as a member of the subset. *)
Definition remembers_7 : OWLinePlot float :=
  with_subset_selection {[7]} (init RANGE_WITH_MEAN false).

(** What a stored context of the same table gives back: row 1 was
    selected. *)
Definition stored_row_1 : ContextValues :=
  {| ctx_group_var := None; ctx_selection := [1] |}.

(** A table whose class has three values; the rows take the first and
    the last. *)
Definition classed : Table float :=
  {| domain := {| attributes := [ContinuousVariable];
                  class_var := Some (DiscreteVariable 3) |};
     rows := [{| row_id := 10; row_x := [PrimFloat.one];
                 row_y := PrimFloat.zero |};
              {| row_id := 11; row_x := [PrimFloat.zero];
                 row_y := float_of_Z 2 |}] |}.

(** The widget in "Mean" display holding [classed], grouped by class. *)
Definition grouped : OWLinePlot float :=
  with_group_var (Some GroupByClass)
    (with_graph_variables [0]
       (with_data (Some classed) (init MEAN false))).

End MoreExamples.

(* ===================================================================== *)
(** * Properties *)
(* ===================================================================== *)

(** ** Binary64 arithmetic

    Facts of IEEE arithmetic that hold for every binary64 value, read off
    the specification of the primitive operations ([SpecFloat]). *)

Module FloatFacts.

Lemma div_eucl_mul_pow (a b : Z) :
  (0 < b)%Z -> Z.div_eucl (a * b) b = (a, 0%Z).
Proof.
  intros Hb. pose proof (Z_div_mult a b ltac:(lia)) as Hq.
  pose proof (Z_mod_mult a b) as Hr.
  unfold Z.div, Z.modulo in Hq, Hr.
  destruct (Z.div_eucl (a * b) b) as [q r]. simpl in *. congruence.
Qed.

(** Dividing a finite value by 1 rounds nothing, on normal and on
    subnormal values. *)
Lemma SFdiv_one_finite (s : bool) (m : positive) (e : Z) :
  bounded prec emax m e = true ->
  SFdiv prec emax (S754_finite s m e)
    (S754_finite false 4503599627370496 (-52)) = S754_finite s m e.
Proof.
  intros Hb. unfold bounded, canonical_mantissa in Hb.
  apply andb_prop in Hb as [Hc He].
  apply Z.eqb_eq in Hc. apply Z.leb_le in He.
  unfold SFdiv, SFdiv_core_binary.
  change (Zdigits2 (Z.pos m)) with (Z.pos (digits2_pos m)).
  change (Zdigits2 (Z.pos 4503599627370496)) with 53%Z.
  unfold fexp, SpecFloat.emin in *. unfold prec, emax in *.
  rewrite xorb_false_r.
  assert (He' : (e <=? 1024 - 53)%Z = true) by (apply Z.leb_le; lia).
  destruct (Z.eq_dec e (-1074)%Z) as [->|Hne].
  - replace (Z.min (Z.max (Z.pos (digits2_pos m) + -1074 - (53 + -52) - 53)
                      (3 - 1024 - 53)) (-1074 - -52))%Z
      with (-1074)%Z by lia.
    change (-1074 - -52 - -1074)%Z with 52%Z. cbv iota.
    rewrite Z.shiftl_mul_pow2 by lia.
    change (2 ^ 52)%Z with 4503599627370496%Z.
    rewrite div_eucl_mul_pow by lia.
    change (new_location 4503599627370496 0) with loc_Exact.
    unfold binary_round_aux, shr_fexp, shr_record_of_loc.
    change (Zdigits2 (Z.pos m)) with (Z.pos (digits2_pos m)).
    unfold fexp, SpecFloat.emin.
    replace (Z.max (Z.pos (digits2_pos m) + -1074 - 53) (3 - 1024 - 53)
             - -1074)%Z with 0%Z by lia.
    cbn [shr shr_m loc_of_shr_record round_nearest_even].
    change (Zdigits2 (Z.pos m)) with (Z.pos (digits2_pos m)).
    replace (Z.max (Z.pos (digits2_pos m) + -1074 - 53) (3 - 1024 - 53)
             - -1074)%Z with 0%Z by lia.
    cbn [shr shr_m]. reflexivity.
  - assert (Hd : Z.pos (digits2_pos m) = 53%Z) by lia.
    rewrite Hd in *.
    replace (Z.min (Z.max (53 + e - (53 + -52) - 53) (3 - 1024 - 53))
               (e - -52))%Z with (e - 1)%Z by lia.
    replace (e - -52 - (e - 1))%Z with 53%Z by lia. cbv iota.
    rewrite Z.shiftl_mul_pow2 by lia.
    replace (Z.pos m * 2 ^ 53)%Z with (Z.pos m~0 * 4503599627370496)%Z
      by (change (2 ^ 53)%Z with (2 * 4503599627370496)%Z; lia).
    rewrite div_eucl_mul_pow by lia.
    change (new_location 4503599627370496 0) with loc_Exact.
    unfold binary_round_aux, shr_fexp, shr_record_of_loc.
    change (Zdigits2 (Z.pos m~0)) with (Z.pos (Pos.succ (digits2_pos m))).
    rewrite Pos2Z.inj_succ, Hd.
    unfold fexp, SpecFloat.emin.
    replace (Z.max (Z.succ 53 + (e - 1) - 53) (3 - 1024 - 53) - (e - 1))%Z
      with 1%Z by lia.
    cbn [shr SpecFloat.iter_pos shr_1 shr_m shr_r shr_s orb loc_of_shr_record
         round_nearest_even].
    change (Zdigits2 (Z.pos m)) with (Z.pos (digits2_pos m)). rewrite Hd.
    replace (e - 1 + 1)%Z with e by lia.
    replace (Z.max (53 + e - 53) (3 - 1024 - 53) - e)%Z with 0%Z by lia.
    cbn [shr shr_m]. rewrite He'. reflexivity.
Qed.

(** [v / 1] is [v], for every binary64 value. *)
Lemma float_div_one (v : float) : (v / 1)%float = v.
Proof.
  apply FloatAxioms.Prim2SF_inj. rewrite FloatAxioms.div_spec.
  change (Prim2SF 1) with (S754_finite false 4503599627370496 (-52)).
  pose proof (FloatAxioms.Prim2SF_valid v) as Hv. unfold SF64div.
  destruct (Prim2SF v) as [[]|[]| |s m e]; try reflexivity.
  now apply SFdiv_one_finite.
Qed.

(** [0 + v] is [v], but for the negative zero, which comes back
    positive. *)
Lemma float_zero_add (v : float) :
  Prim2SF (0 + v) =
  match Prim2SF v with S754_zero _ => S754_zero false | sv => sv end.
Proof.
  rewrite FloatAxioms.add_spec. change (Prim2SF 0) with (S754_zero false).
  unfold SF64add. destruct (Prim2SF v) as [[]|[]| |s m e]; reflexivity.
Qed.

Lemma float_zero_add_eqb (v : float) :
  PrimFloat.is_nan v = false -> (0 + v =? v)%float = true.
Proof.
  unfold PrimFloat.is_nan. intros H. apply negb_false_iff in H.
  rewrite FloatAxioms.eqb_spec in *. rewrite float_zero_add.
  destruct (Prim2SF v) as [[]|[]| |s m e]; first [exact H | reflexivity].
Qed.




End FloatFacts.

(** ** Geometry kernel *)

Module GeometryFacts.
Import Geometry.

(** Two comparisons of rationals agree when the differences compared are
    the same rational. *)
Lemma Qle_bool_same_difference (l1 r1 l2 r2 : Q) :
  (l1 - r1 == l2 - r2)%Q -> Qle_bool l1 r1 = Qle_bool l2 r2.
Proof.
  intros Hd.
  destruct (Qle_bool l1 r1) eqn:H1, (Qle_bool l2 r2) eqn:H2; try reflexivity.
  - apply Qle_bool_iff in H1.
    assert (Hle : (l2 <= r2)%Q) by lra.
    apply Qle_bool_iff in Hle. congruence.
  - apply Qle_bool_iff in H2.
    assert (Hle : (l1 <= r1)%Q) by lra.
    apply Qle_bool_iff in Hle. congruence.
Qed.

(** In exact arithmetic the orientation test does not depend on which of
    the three points is listed first. *)
Lemma ccw_rotate_exact (a b c : point xq) : ccw a b c = ccw b c a.
Proof.
  destruct a as [[|ax] [|ay]], b as [[|bx] [|by_]], c as [[|cx] [|cy]];
    try reflexivity.
  unfold ccw; simpl. f_equal.
  apply Qle_bool_same_difference. ring.
Qed.


(** C8 (as amended): in exact arithmetic (no rounding), for all points a,
    b, c, d (NaN coordinates included) the segment test gives the same
    answer whichever pair is taken as the cutting line:
    intersects(a,b,c,d) = intersects(c,d,a,b). *)
Theorem intersects_symmetric_exact (a b c d : point xq) :
  intersects a b c d = intersects c d a b.
Proof.
  unfold intersects.
  rewrite (ccw_rotate_exact a c d), (ccw_rotate_exact b c d).
  rewrite (ccw_rotate_exact a b c), (ccw_rotate_exact b c a).
  rewrite (ccw_rotate_exact a b d), (ccw_rotate_exact b d a).
  apply andb_comm.
Qed.

(** C8 (as stated) fails on binary64 points: with a = (2,-1),
    b = (-2^60, 2^60), c = (0,0), d = (3,2) the differences [2 - 2^60] and
    [3 + 2^60] round to [-2^60] and [2^60], so ccw(b,c,d) compares
    [-2^120 > -2^120] and is false, and intersects(a,b,c,d) is false, while
    intersects(c,d,a,b) is true. *)
Lemma intersects_asymmetric_float :
  let a := Point 2%float (-1)%float in
  let b := Point (-0x1p60)%float 0x1p60%float in
  let c := Point 0%float 0%float in
  let d := Point 3%float 2%float in
  intersects a b c d = false /\ intersects c d a b = true.
Proof. vm_compute. split; reflexivity. Qed.






End GeometryFacts.

(** ** Group statistics *)

Module StatsFacts.
Import Numpy.

Section AnyNumber.
Context {F : Type} {N : Number F}.

(** [np.clip(a, a_min, a)] gives [a] back whatever [a] is: below [a_min]
    the upper bound [a] wins. *)
Lemma clip_upper_self (a a_min : F) :
  num_isnan a_min = false -> clip a a_min a = a.
Proof.
  intros Hmin. unfold clip, maximum.
  destruct ((a >=? a_min)%num || num_isnan a) eqn:Hc.
  - unfold minimum. destruct ((a <=? a)%num || num_isnan a); reflexivity.
  - apply orb_false_elim in Hc as [Hge _].
    unfold minimum. rewrite Hge, Hmin. reflexivity.
Qed.

Lemma clip_array_upper_self (a : list F) (a_min : F) :
  num_isnan a_min = false -> clip_array a a_min a = a.
Proof.
  intros Hmin. unfold clip_array.
  induction a as [|v a IH]; simpl; [reflexivity|].
  rewrite clip_upper_self by assumption. f_equal. exact IH.
Qed.

(** The two [np.clip] calls of [get_error_bar] change nothing: the bar
    extents are the plain differences. *)
Lemma get_error_bar_unclipped (X : list F) (dataX : list (list F))
  (mean : list F) :
  num_isnan (zero : F) = false ->
  Widget.get_error_bar X dataX mean =
    (subtract mean (nanpercentile (length X) dataX 25),
     subtract (nanpercentile (length X) dataX 75) mean).
Proof.
  intros Hz. unfold Widget.get_error_bar.
  rewrite !clip_array_upper_self by assumption. reflexivity.
Qed.

Lemma map_nth_seq (r : list F) (d : F) :
  map (fun j => nth j r d) (seq 0 (length r)) = r.
Proof.
  induction r as [|v r IH]; simpl; [reflexivity|].
  f_equal. rewrite <- seq_shift, map_map. exact IH.
Qed.

Lemma columns_single_row (r : list F) :
  columns (length r) [r] = map (fun v => [v]) r.
Proof.
  unfold columns, column. simpl.
  rewrite <- (map_nth_seq r num_nan) at 2. rewrite map_map. reflexivity.
Qed.

Lemma nanmean_lookup (M : nat) (X : list (list F)) (j : nat) :
  j < M -> nanmean M X !! j = Some (nanmean_1d (column X j)).
Proof.
  intros Hj. unfold nanmean, columns.
  rewrite !list_lookup_fmap, lookup_seq_lt by assumption. reflexivity.
Qed.
End AnyNumber.

(** On both instances 0 is not NaN, so the clip is void. *)
Corollary get_error_bar_unclipped_float (X : list float)
  (dataX : list (list float)) (mean : list float) :
  Widget.get_error_bar X dataX mean =
    (subtract mean (nanpercentile (length X) dataX 25),
     subtract (nanpercentile (length X) dataX 75) mean).
Proof. apply get_error_bar_unclipped. reflexivity. Qed.

Corollary get_error_bar_unclipped_exact (X : list xq)
  (dataX : list (list xq)) (mean : list xq) :
  Widget.get_error_bar X dataX mean =
    (subtract mean (nanpercentile (length X) dataX 25),
     subtract (nanpercentile (length X) dataX 75) mean).
Proof. apply get_error_bar_unclipped. reflexivity. Qed.

(** *** Exact arithmetic *)

Lemma xq_eq_refl (a : xq) : xq_eq a a.
Proof. destruct a; simpl; [exact I | reflexivity]. Qed.

Lemma xq_eq_trans (a b c : xq) : xq_eq a b -> xq_eq b c -> xq_eq a c.
Proof.
  destruct a, b, c; simpl; try tauto. intros H1 H2. now rewrite H1.
Qed.

Lemma xq_add_compat (a a' b b' : xq) :
  xq_eq a a' -> xq_eq b b' -> xq_eq (a + b)%num (a' + b')%num.
Proof.
  destruct a, a', b, b'; simpl; try tauto. intros H1 H2. now rewrite H1, H2.
Qed.

Lemma xq_div_compat (a a' b : xq) :
  xq_eq a a' -> xq_eq (a / b)%num (a' / b)%num.
Proof.
  destruct a, a', b; simpl; try tauto. intros H1.
  destruct (Qeq_bool q1 0); simpl; [exact I | now rewrite H1].
Qed.

Lemma xq_add_zero_r (a : xq) : xq_eq (a + zero)%num a.
Proof. destruct a; simpl; [exact I | ring]. Qed.

(** Summing a column with its NaNs replaced by 0 and summing its non-NaN
    entries give the same rational. *)
Lemma sum_nan_replaced (col : list xq) (acc acc' : xq) :
  xq_eq acc acc' ->
  xq_eq (fold_left num_add
           (map (fun v => if num_isnan v then zero else v) col) acc)
        (fold_left num_add (List.filter notnan col) acc').
Proof.
  revert acc acc'. induction col as [|v col IH]; intros acc acc' H; simpl.
  - exact H.
  - destruct v as [|q]; simpl.
    + apply IH. eapply xq_eq_trans; [apply xq_add_zero_r | exact H].
    + apply IH. apply xq_add_compat; [exact H | apply xq_eq_refl].
Qed.

Lemma nanmean_1d_spec (col : list xq) :
  xq_eq (nanmean_1d col) (spec_mean_ignoring_nan col).
Proof.
  unfold nanmean_1d, spec_mean_ignoring_nan.
  pose proof (sum_nan_replaced col zero zero (xq_eq_refl _)) as Hsum.
  unfold sum. destruct (List.filter notnan col) as [|v vs] eqn:Hf.
  - simpl. destruct (fold_left _ _ _); exact I.
  - apply xq_div_compat. exact Hsum.
Qed.

Lemma filter_notnan_all_nan (col : list xq) :
  Forall (fun v => num_isnan v = true) col -> List.filter notnan col = [].
Proof.
  induction 1 as [|v col Hv _ IH]; simpl; [reflexivity|].
  unfold notnan at 1. rewrite Hv. exact IH.
Qed.

Lemma nanmean_1d_all_nan (col : list xq) :
  Forall (fun v => num_isnan v = true) col -> nanmean_1d col = XNaN.
Proof.
  intros H. unfold nanmean_1d. rewrite (filter_notnan_all_nan col H). simpl.
  destruct (sum _); reflexivity.
Qed.

Lemma nanmean_1d_single (v : xq) : nanmean_1d [v] = v.
Proof.
  destruct v as [|[n d]]; [reflexivity|].
  unfold nanmean_1d, sum. simpl. f_equal.
  unfold Qdiv, Qmult, Qplus, Qinv; simpl.
  f_equal; [lia | apply Pos.mul_1_r].
Qed.

(** *** Binary64 arithmetic *)

Lemma sum_all_nan_float (col : list float) :
  Forall (fun v => num_isnan v = true) col ->
  sum (map (fun v => if num_isnan v then zero else v) col) = (zero : float).
Proof.
  unfold sum. induction 1 as [|v col Hv _ IH]; [reflexivity|].
  cbn [map fold_left]. rewrite Hv. exact IH.
Qed.

Lemma filter_notnan_all_nan_float (col : list float) :
  Forall (fun v => num_isnan v = true) col -> List.filter notnan col = [].
Proof.
  induction 1 as [|v col Hv _ IH]; simpl; [reflexivity|].
  unfold notnan at 1. rewrite Hv. exact IH.
Qed.

(** A binary64 column of NaNs has mean NaN: the zeros that replace them add
    up to 0, which is divided by the count 0. *)
Lemma nanmean_1d_all_nan_float (col : list float) :
  Forall (fun v => num_isnan v = true) col -> nanmean_1d col = PrimFloat.nan.
Proof.
  intros H. unfold nanmean_1d.
  rewrite (sum_all_nan_float col H), (filter_notnan_all_nan_float col H).
  reflexivity.
Qed.

(** The binary64 mean of a single value is that value: [0 + v] is divided
    by the count 1.  A negative zero comes back as the positive zero, which
    is the same number. *)
Lemma nanmean_1d_single_float (v : float) :
  if PrimFloat.is_nan v then nanmean_1d [v] = PrimFloat.nan
  else (nanmean_1d [v] =? v)%float = true.
Proof.
  unfold nanmean_1d, sum, notnan. simpl.
  destruct (PrimFloat.is_nan v) eqn:Hv; simpl; [reflexivity|].
  change (float_of_Z 1) with 1%float. change (zero : float) with 0%float.
  rewrite FloatFacts.float_div_one.
  now apply FloatFacts.float_zero_add_eqb.
Qed.

(** *** The aggregate of a group *)

Lemma arange1_length {F : Type} {N : Number F} (M : nat) :
  length (Widget.arange1 (F := F) M) = M.
Proof. unfold Widget.arange1. now rewrite length_map, length_seq. Qed.

Lemma plot_group_mean {F : Type} {N : Number F} (X : list F)
  (dataX : list (list F)) :
  dataX <> [] ->
  exists g, Widget.__plot_group X dataX = Some g /\
            Widget.mean g = nanmean (length X) dataX.
Proof.
  intros Hne. unfold Widget.__plot_group, Widget.get_range_curve.
  destruct dataX as [|r rest]; [congruence|]. simpl. eexists. split; reflexivity.
Qed.

(** C7 (as amended): for every group of profiles (an array with at least
    one row), in exact arithmetic the mean curve of the aggregate is, at
    each column, the arithmetic mean of the entries that are not NaN, and
    NaN when all entries are NaN, and for a group of one profile the mean
    curve is that profile's values, NaN positions included.  On binary64
    values the mean of a column of NaNs is NaN as well, and the mean curve
    of a group of one profile equals the profile's values, NaN staying
    NaN; for a group of several profiles the binary64 total of a column is
    rounded and can overflow, and the mean curve holds the rounded
    result. *)
Theorem plot_group_mean_ignores_nan :
  (forall (X : list xq) (dataX : list (list xq)), dataX <> [] ->
     exists g, Widget.__plot_group X dataX = Some g /\
       forall j, j < length X ->
         exists m, Widget.mean g !! j = Some m /\
           xq_eq m (spec_mean_ignoring_nan (column dataX j)) /\
           (Forall (fun v => num_isnan v = true) (column dataX j) ->
            m = XNaN)) /\
  (forall r : list xq,
     exists g, Widget.__plot_group (Widget.arange1 (length r)) [r] = Some g /\
               Widget.mean g = r) /\
  (forall (X : list float) (dataX : list (list float)), dataX <> [] ->
     exists g, Widget.__plot_group X dataX = Some g /\
       forall j, j < length X ->
         Forall (fun v => num_isnan v = true) (column dataX j) ->
         Widget.mean g !! j = Some PrimFloat.nan) /\
  (forall r : list float,
     exists g, Widget.__plot_group (Widget.arange1 (length r)) [r] = Some g /\
       Forall2 (fun v m => if PrimFloat.is_nan v then m = PrimFloat.nan
                           else (m =? v)%float = true)
         r (Widget.mean g)).
Proof.
  split; [|split; [|split]].
  - intros X dataX Hne.
    destruct (plot_group_mean X dataX Hne) as (g & Hg & Hmean).
    exists g. split; [exact Hg|]. intros j Hj.
    exists (nanmean_1d (column dataX j)). rewrite Hmean. split.
    + now apply nanmean_lookup.
    + split; [apply nanmean_1d_spec | apply nanmean_1d_all_nan].
  - intros r.
    destruct (plot_group_mean (Widget.arange1 (length r)) [r]) as (g & Hg & Hmean);
      [discriminate|].
    exists g. split; [exact Hg|].
    rewrite Hmean, arange1_length. unfold nanmean.
    rewrite columns_single_row, map_map.
    rewrite <- (map_id r) at 2. apply map_ext. intros v.
    apply nanmean_1d_single.
  - intros X dataX Hne.
    destruct (plot_group_mean X dataX Hne) as (g & Hg & Hmean).
    exists g. split; [exact Hg|]. intros j Hj Hall.
    rewrite Hmean, (nanmean_lookup _ _ _ Hj). f_equal.
    now apply nanmean_1d_all_nan_float.
  - intros r.
    destruct (plot_group_mean (Widget.arange1 (length r)) [r]) as (g & Hg & Hmean);
      [discriminate|].
    exists g. split; [exact Hg|].
    rewrite Hmean, arange1_length. unfold nanmean.
    rewrite columns_single_row, map_map.
    clear Hg Hmean g.
    induction r as [|v r IH]; simpl; constructor; [|exact IH].
    apply nanmean_1d_single_float.
Qed.

(** A group of two profiles whose second column is all NaN, in exact
    arithmetic, and a single binary64 profile with a NaN. *)
Lemma plot_group_mean_ignores_nan_witness :
  [[XFin 1; XNaN]; [XFin 3; XNaN]] <> [] /\
  (exists g, Widget.__plot_group [XFin 1; XFin 2]
               [[XFin 1; XNaN]; [XFin 3; XNaN]] = Some g /\
     forall j, j < 2 ->
       exists m, Widget.mean g !! j = Some m /\
         xq_eq m (spec_mean_ignoring_nan
                    (column [[XFin 1; XNaN]; [XFin 3; XNaN]] j)) /\
         (Forall (fun v => num_isnan v = true)
            (column [[XFin 1; XNaN]; [XFin 3; XNaN]] j) -> m = XNaN)) /\
  (exists g, Widget.__plot_group (Widget.arange1 2)
               [[0x1.8p0%float; PrimFloat.nan]] = Some g /\
     Forall2 (fun v m => if PrimFloat.is_nan v then m = PrimFloat.nan
                         else (m =? v)%float = true)
       [0x1.8p0%float; PrimFloat.nan] (Widget.mean g)).
Proof.
  split; [discriminate|]. split.
  - apply (proj1 plot_group_mean_ignores_nan [XFin 1; XFin 2]
             [[XFin 1; XNaN]; [XFin 3; XNaN]]).
    discriminate.
  - exact (proj2 (proj2 (proj2 plot_group_mean_ignores_nan))
             [0x1.8p0%float; PrimFloat.nan]).
Defined.

(** C7 (as stated) fails on binary64 values: the column 1e308, 1e308,
    1e308, -3.5 has the arithmetic mean 7.5e307 - 0.875, a number below
    1e308, but its total overflows and the mean curve holds infinity. *)
Lemma plot_group_mean_overflows_float :
  let big := 0x1.1ccf385ebc8ap+1023%float in
  let col := [big; big; big; (-3.5)%float] in
  Widget.mean <$> Widget.__plot_group (Widget.arange1 1)
                    (map (fun v => [v]) col)
    = Some [PrimFloat.infinity] /\
  Forall (fun v => num_isnan v = false) col /\
  exists q : Q,
    spec_mean_ignoring_nan (map num_exact col) = XFin q /\
    (q < inject_Z (10 ^ 308))%Q.
Proof.
  split; [vm_compute; reflexivity|].
  split; [repeat constructor|].
  eexists. split; [vm_compute; reflexivity|].
  vm_compute. reflexivity.
Qed.

(** The example of the specification, on binary64 values: the rows
    [1, 2, NaN] and [3, 4, 5] have mean [2, 3, 5], minimum [1, 2, 5] and
    maximum [3, 4, 5]. *)
Example plot_group_example_float :
  let dataX := [[1; 2; nan]; [3; 4; 5]]%float in
  nanmean 3 dataX = [2; 3; 5]%float /\
  nanmin 3 dataX = Some [1; 2; 5]%float /\
  nanmax 3 dataX = Some [3; 4; 5]%float.
Proof. vm_compute. repeat split; reflexivity. Qed.

(** C1, at a failing input, on binary64 values.  A group with the single
    column [-10, 0, 0, 0, 0] has mean [-2] and first quartile [0]: the
    claim gives [error_bottom = max(0, -2) = 0], the code returns [-2].
    With the column [10, 0, 0, 0, 0] the mean is [2], the third quartile
    [0], and [error_top] is [-2]. *)
Theorem get_error_bar_negative_float :
  let X := Widget.arange1 1 in
  let low := [[-10]; [0]; [0]; [0]; [0]]%float in
  let high := [[10]; [0]; [0]; [0]; [0]]%float in
  nanmean 1 low = [-2]%float /\
  nanpercentile 1 low 25 = [0]%float /\
  map spec_clamp_nonneg (subtract (nanmean 1 low) (nanpercentile 1 low 25))
    = [0]%float /\
  Widget.error_bottom <$> Widget.__plot_group X low = Some [-2]%float /\
  nanmean 1 high = [2]%float /\
  nanpercentile 1 high 75 = [0]%float /\
  map spec_clamp_nonneg (subtract (nanpercentile 1 high 75) (nanmean 1 high))
    = [0]%float /\
  Widget.error_top <$> Widget.__plot_group X high = Some [-2]%float /\
  (-2 <? 0)%float = true.
Proof. vm_compute. repeat split; reflexivity. Qed.

End StatsFacts.
(** ** The widget *)

Module WidgetFacts.
Import Widget.

#[local] Set Warnings "-clear-no-such-hyp".

Section Facts.
Context {F : Type} {N : Number F} {SI : SetIteration}.
Implicit Types (w : OWLinePlot F) (items : gmap nat (LinePlotItem F)).

(** *** Loops over items *)

Lemma item_call_Some (method : LinePlotItem F -> LinePlotItem F) (i : nat)
  items (it : LinePlotItem F) :
  items !! i = Some it ->
  item_call method i items = Some (<[i := method it]> items).
Proof. intros H. unfold item_call. now rewrite H. Qed.

Lemma for_each_item_call (method : LinePlotItem F -> LinePlotItem F)
  (l : list nat) items :
  (forall i, i ∈ l -> i ∈ dom items) ->
  exists items', for_each (item_call method) l items = Some items' /\
                 dom items' = dom items.
Proof.
  revert items. induction l as [|a l IH]; intros items H; simpl.
  - eauto.
  - assert (Ha : a ∈ dom items) by (apply H; left).
    apply elem_of_dom in Ha as [it Hit].
    rewrite (item_call_Some _ _ _ _ Hit). simpl.
    assert (Hdom : dom (<[a:=method it]> items) = dom items).
    { rewrite dom_insert_L. apply elem_of_dom_2 in Hit.
      apply set_eq. intros j. rewrite elem_of_union, elem_of_singleton.
      split; [intros [->|Hj]; assumption | intros Hj; right; exact Hj]. }
    destruct (IH (<[a:=method it]> items)) as (items' & Hrun & Hdom').
    { intros i Hi. rewrite Hdom. apply H. right. exact Hi. }
    exists items'. split; [exact Hrun | congruence].
Qed.

Lemma for_each_over_set (method : LinePlotItem F -> LinePlotItem F)
  (s : gset nat) items :
  s ⊆ dom items ->
  exists items', for_each (item_call method) (list_of_set s) items
                 = Some items' /\ dom items' = dom items.
Proof.
  intros Hs. apply for_each_item_call.
  intros i Hi. apply Hs. now apply elem_of_list_of_set.
Qed.

Lemma list_of_set_empty : list_of_set ∅ = [].
Proof.
  destruct (list_of_set ∅) as [|i l] eqn:E; [reflexivity|].
  assert (Hi : i ∈ list_of_set ∅) by (rewrite E; left).
  apply elem_of_list_of_set in Hi. set_solver.
Qed.

(** *** [show_profiles] and [__update_visibility_groups] touch the
    visibility flags only *)

Lemma foldl_preserves_dom (step : gmap nat (LinePlotItem F) -> nat ->
                                  gmap nat (LinePlotItem F))
  (l : list nat) items :
  (forall m i, dom (step m i) = dom m) ->
  dom (foldl step items l) = dom items.
Proof.
  intros Hstep. revert items.
  induction l as [|a l IH]; intros items; simpl; [reflexivity|].
  now rewrite IH, Hstep.
Qed.

Lemma show_profiles_items_dom w :
  dom (_items (graph (show_profiles w))) = dom (_items (graph w)).
Proof.
  unfold show_profiles. destruct (__profiles w); [|reflexivity]. simpl.
  apply foldl_preserves_dom. intros m i. apply dom_alter_L.
Qed.

Lemma show_profiles_frame w :
  let w' := show_profiles w in
  data w' = data w /\ selection w' = selection w /\
  graph_selection (graph w') = graph_selection (graph w) /\
  outputs w' = outputs w /\ __profiles w' = __profiles w /\
  display_index w' = display_index w.
Proof.
  unfold show_profiles. destruct (__profiles w) eqn:E; simpl; rewrite ?E; tauto.
Qed.

(** What [show_profiles] writes: a plotted profile is visible in the two
    "Line plot" displays, and in "Range with mean" when its index is in the
    widget's selection or is the id of a row of the subset table. *)
Lemma foldl_setVisible_lookup (vis : nat -> bool) (ps : list nat) items
  (i : nat) :
  foldl (fun items j => alter (setVisible (vis j)) j items) items ps !! i =
  (if bool_decide (i ∈ ps) then setVisible (vis i) else fun it => it)
    <$> items !! i.
Proof.
  revert items. induction ps as [|j ps IH]; intros items; simpl.
  - now destruct (items !! i).
  - rewrite IH. destruct (decide (i = j)) as [->|Hne].
    + rewrite lookup_alter_eq.
      rewrite (bool_decide_eq_true_2 (j ∈ j :: ps)) by left.
      destruct (items !! j) as [it|]; simpl; [|reflexivity].
      now destruct (bool_decide (j ∈ ps)).
    + rewrite lookup_alter_ne by congruence.
      destruct (decide (i ∈ ps)) as [Hin|Hnin].
      * rewrite !bool_decide_eq_true_2; [reflexivity| now right | exact Hin].
      * rewrite !bool_decide_eq_false_2; [reflexivity| |exact Hnin].
        intros Hin. apply elem_of_cons in Hin as [?|?]; congruence.
Qed.

Lemma show_profiles_visible w (ps : list nat) (i : nat) (it : LinePlotItem F) :
  __profiles w = Some ps -> i ∈ ps ->
  _items (graph w) !! i = Some it ->
  let subset_ids :=
    if has_subset w
    then match data_subset w with Some s => row_id <$> rows s | None => [] end
    else [] in
  exists it',
    _items (graph (show_profiles w)) !! i = Some it' /\
    visible it' =
      show_inst (display_index w)
      || bool_decide (i ∈ selection w ++ subset_ids)
         && show_selection (display_index w).
Proof.
  intros Hps Hi Hit. unfold show_profiles. rewrite Hps. simpl.
  rewrite (foldl_setVisible_lookup
             (fun j => show_inst (display_index w)
                       || bool_decide (j ∈ selection w ++ _)
                          && show_selection (display_index w))).
  rewrite Hit, (bool_decide_eq_true_2 _ Hi). simpl.
  eexists. split; reflexivity.
Qed.

(** *** [commit] *)

Lemma table_getitem_in_range (t : Table F) (sel : list nat) :
  (forall i, i ∈ sel -> i < length (rows t)) ->
  exists rs, table_getitem t sel = Some rs /\ rows_at t sel rs.
Proof.
  intros Hsel. unfold table_getitem, rows_at.
  induction sel as [|i sel IH].
  - exists []. split; [reflexivity | constructor].
  - destruct IH as (rs & Hrs & Hall); [intros j Hj; apply Hsel; right; exact Hj|].
    destruct (lookup_lt_is_Some_2 (rows t) i) as [r Hr]; [apply Hsel; left|].
    exists (r :: rs). split.
    + apply mapM_Some. constructor; [exact Hr|]. now apply mapM_Some.
    + now constructor.
Qed.

Lemma forallb_in_range (n : nat) (sel : list nat) :
  (forall i, i ∈ sel -> i < n) -> forallb (fun i => i <? n) sel = true.
Proof.
  intros H. apply forallb_forall. intros i Hi.
  apply Nat.ltb_lt, H. now apply list_elem_of_In.
Qed.


Lemma commit_no_data w :
  data w = None ->
  commit w = Some (with_outputs ((None, None) :: outputs w) w).
Proof.
  intros H. unfold commit, create_annotated_table. rewrite H. reflexivity.
Qed.

Lemma commit_in_range w (t : Table F) :
  data w = Some t ->
  (forall i, i ∈ selection w -> i < length (rows t)) ->
  exists selected,
    commit w =
      Some (with_outputs
              ((selected,
                Some (imap (fun i r => (r, bool_decide (i ∈ selection w)))
                        (rows t))) :: outputs w) w) /\
    (selection w = [] -> selected = None) /\
    (selection w <> [] ->
     exists rs, selected = Some rs /\ rows_at t (selection w) rs).
Proof.
  intros Hd Hsel. unfold commit, create_annotated_table. rewrite Hd.
  rewrite (forallb_in_range _ _ Hsel).
  destruct (table_getitem_in_range t (selection w) Hsel) as (rs & Hrs & Hat).
  unfold has_selection. destruct (selection w) as [|i sel] eqn:E.
  - exists None. simpl. split; [reflexivity|]. split; [reflexivity|congruence].
  - exists (Some rs). rewrite Hrs. simpl. split; [reflexivity|].
    split; [discriminate|]. intros _. exists rs. split; [reflexivity|exact Hat].
Qed.

(** *** [selection_changed] in a settled state *)

Lemma update_visibility_not_pending
  (plot : OWLinePlot F -> option (OWLinePlot F)) w :
  plot_pending w = false ->
  __update_visibility_with plot w =
    Some (__update_visibility_groups (show_profiles w)).
Proof.
  intros H. unfold __update_visibility_with, __update_visibility_profiles_with.
  rewrite H. reflexivity.
Qed.

Lemma selection_changed_not_pending
  (plot : OWLinePlot F -> option (OWLinePlot F)) w :
  plot_pending w = false ->
  selection_changed_with plot w =
    commit (__update_visibility_groups
              (show_profiles
                 (with_selection (list_of_set (graph_selection (graph w))) w))).
Proof.
  intros H. unfold selection_changed_with.
  rewrite update_visibility_not_pending by exact H. reflexivity.
Qed.

(** What [selection_changed] leaves behind: the widget's selection lists
    the graph's, and one more output was sent. *)
Lemma selection_changed_settled
  (plot : OWLinePlot F -> option (OWLinePlot F)) w :
  plot_pending w = false ->
  (forall t, data w = Some t ->
     forall i, i ∈ graph_selection (graph w) -> i < length (rows t)) ->
  exists w' o,
    selection_changed_with plot w = Some w' /\
    graph_selection (graph w') = graph_selection (graph w) /\
    dom (_items (graph w')) = dom (_items (graph w)) /\
    selection w' = list_of_set (graph_selection (graph w)) /\
    data w' = data w /\ __profiles w' = __profiles w /\
    display_index w' = display_index w /\
    outputs w' = o :: outputs w /\
    (graph_selection (graph w) = ∅ -> o.1 = None).
Proof.
  intros Hp Hr. rewrite selection_changed_not_pending by exact Hp.
  set (w1 := with_selection (list_of_set (graph_selection (graph w))) w).
  set (w2 := __update_visibility_groups (show_profiles w1)).
  destruct (show_profiles_frame w1) as (Hd & Hs & Hg & Ho & Hpr & Hdi).
  pose proof (show_profiles_items_dom w1) as Hdom.
  assert (Hsel2 : selection w2 = list_of_set (graph_selection (graph w)))
    by (unfold w2; simpl; rewrite Hs; reflexivity).
  assert (Hd2 : data w2 = data w) by (unfold w2; simpl; rewrite Hd; reflexivity).
  destruct (data w) as [t|] eqn:Edata.
  - destruct (commit_in_range w2 t Hd2) as (selected & Hc & Hnone & _).
    { intros i Hi. rewrite Hsel2 in Hi. apply elem_of_list_of_set in Hi.
      now apply (Hr t). }
    eexists _, _. split; [exact Hc|]. simpl.
    rewrite Hg, Hdom, Hs, Hpr, Hdi, Ho.
    repeat split; try reflexivity; try (rewrite Hd; exact Edata).
    intros He. apply Hnone. rewrite Hsel2, He. apply list_of_set_empty.
  - rewrite (commit_no_data w2 Hd2).
    eexists _, _. split; [reflexivity|]. simpl.
    rewrite Hg, Hdom, Hs, Hpr, Hdi, Ho.
    repeat split; try reflexivity; try (rewrite Hd; exact Edata).
Qed.


(** *** [select] and [deselect_all] in a settled state *)

Lemma updated_selection_subseteq (keys : Z) (s : gset nat) (c : list nat) :
  updated_selection keys s c ⊆ s ∪ list_to_set c.
Proof.
  unfold updated_selection, symmetric_difference.
  destruct (has_modifier keys ControlModifier); [set_solver|].
  destruct (has_modifier keys AltModifier); [set_solver|].
  destruct (has_modifier keys ShiftModifier); set_solver.
Qed.

Lemma select_settled (plot : OWLinePlot F -> option (OWLinePlot F)) w
  (c : list nat) :
  settled w ->
  (forall i, i ∈ c -> i ∈ dom (_items (graph w))) ->
  exists w' o,
    select_with plot c w = Some w' /\
    graph_selection (graph w') =
      updated_selection (keyboardModifiers w) (graph_selection (graph w)) c /\
    selection w' = list_of_set (graph_selection (graph w')) /\
    outputs w' = o :: outputs w /\
    settled w'.
Proof.
  intros (Hsub & Hp & Hrows) Hc. unfold select_with.
  destruct (for_each_over_set item_deselect (graph_selection (graph w))
              (_items (graph w)) Hsub) as (items1 & -> & Hdom1).
  simpl.
  set (sel := updated_selection (keyboardModifiers w)
                (graph_selection (graph w)) c).
  assert (Hsel : sel ⊆ dom (_items (graph w))).
  { intros i Hi. apply updated_selection_subseteq in Hi.
    apply elem_of_union in Hi as [Hi|Hi]; [now apply Hsub|].
    apply Hc. now apply elem_of_list_to_set in Hi. }
  destruct (for_each_over_set item_select sel items1) as (items2 & -> & Hdom2);
    [now rewrite Hdom1|].
  simpl.
  set (w2 := with_graph _ w).
  destruct (selection_changed_settled plot w2) as
    (w' & o & Hrun & Hg & Hd & Hs & Hdata & Hprof & Hdi & Ho & _).
  { exact Hp. }
  { intros t Ht i Hi. apply (Hrows t Ht). now apply Hsel. }
  exists w', o. split; [exact Hrun|]. rewrite Hg, Hs. simpl.
  split; [reflexivity|]. split; [reflexivity|]. split; [exact Ho|].
  unfold settled. rewrite Hg, Hd, Hdata. simpl. rewrite Hdom2, Hdom1.
  split; [exact Hsel|]. split; [|exact Hrows].
  unfold plot_pending in *. now rewrite Hprof, Hdi, Hdata.
Qed.

Lemma deselect_all_settled (plot : OWLinePlot F -> option (OWLinePlot F)) w :
  settled w ->
  exists w' o,
    deselect_all_with plot w = Some w' /\
    graph_selection (graph w') = ∅ /\
    selection w' = [] /\
    outputs w' = o :: outputs w /\ o.1 = None /\
    settled w'.
Proof.
  intros (Hsub & Hp & Hrows). unfold deselect_all_with.
  destruct (for_each_over_set item_deselect (graph_selection (graph w))
              (_items (graph w)) Hsub) as (items1 & -> & Hdom1).
  simpl.
  set (w2 := with_graph _ w).
  destruct (selection_changed_settled plot w2) as
    (w' & o & Hrun & Hg & Hd & Hs & Hdata & Hprof & Hdi & Ho & Hnone).
  { exact Hp. }
  { intros t Ht i Hi. simpl in Hi. set_solver. }
  exists w', o. split; [exact Hrun|]. rewrite Hg, Hs. simpl.
  split; [reflexivity|]. split; [apply list_of_set_empty|].
  split; [exact Ho|]. split; [now apply Hnone|].
  unfold settled. rewrite Hg, Hd, Hdata. simpl. rewrite Hdom1.
  split; [set_solver|]. split; [|exact Hrows].
  unfold plot_pending in *. now rewrite Hprof, Hdi, Hdata.
Qed.


(** C4: for every prior selection S (of a settled state) and every
    candidate list C of plotted items, [LinePlotGraph.select] leaves the
    selection C with no modifier held (replace), the symmetric difference
    of S and C with ctrl (toggle), S minus C with alt (subtract) and the
    union of S and C with shift. *)
Theorem select_set_operations w (c : list nat) :
  settled w ->
  (forall i, i ∈ c -> i ∈ dom (_items (graph w))) ->
  let s := graph_selection (graph w) in
  let after (keys : Z) : option (gset nat) :=
    w' ← select c (with_keyboardModifiers keys w);
    Some (graph_selection (graph w')) in
  after NoModifier = Some (list_to_set c) /\
  after ControlModifier = Some ((s ∖ list_to_set c) ∪ (list_to_set c ∖ s)) /\
  after AltModifier = Some (s ∖ list_to_set c) /\
  after ShiftModifier = Some (s ∪ list_to_set c).
Proof.
  intros Hw Hc s after.
  assert (Hafter : forall keys,
             after keys = Some (updated_selection keys s c)).
  { intros keys. unfold after, select.
    destruct (select_settled _plot_profiles (with_keyboardModifiers keys w) c)
      as (w' & o & -> & Hg & _); [exact Hw | exact Hc |].
    simpl. rewrite Hg. reflexivity. }
  rewrite !Hafter. repeat split; reflexivity.
Qed.

(** C9: a left click on empty plot space, whatever keys are held, empties
    the selection of the graph and of the widget and sends the outputs
    (with no selected data). *)
Theorem click_clears_selection w (keys : Z) :
  settled w ->
  exists w' o,
    mouseClickEvent keys LeftButton w = Some w' /\
    graph_selection (graph w') = ∅ /\
    selection w' = [] /\
    outputs w' = o :: outputs w /\ o.1 = None.
Proof.
  intros Hw. unfold mouseClickEvent, deselect_all.
  destruct (deselect_all_settled _plot_profiles
              (with_keyboardModifiers keys w)) as
    (w' & o & Hrun & Hg & Hs & Ho & Hnone & _); [exact Hw|].
  exists w', o. repeat split; assumption.
Qed.

(** C5 (as amended): for every loaded dataset and every selection list
    within its rows, [commit] sends no selected data when the selection is
    empty and otherwise the rows at the selected indices in the order of
    the selection list, together with the whole table, each row flagged
    with its membership in the selection; with an empty selection every
    flag is false. *)
Theorem commit_projection w (t : Table F) :
  data w = Some t ->
  (forall i, i ∈ selection w -> i < length (rows t)) ->
  exists w' selected annotated,
    commit w = Some w' /\
    outputs w' = (selected, Some annotated) :: outputs w /\
    (selection w = [] -> selected = None) /\
    (selection w <> [] ->
     exists rs, selected = Some rs /\ rows_at t (selection w) rs) /\
    length annotated = length (rows t) /\
    (forall i r, rows t !! i = Some r ->
       annotated !! i = Some (r, bool_decide (i ∈ selection w))) /\
    (selection w = [] -> Forall (fun rb => rb.2 = false) annotated).
Proof.
  intros Hd Hsel.
  destruct (commit_in_range w t Hd Hsel) as (selected & Hc & Hnone & Hsome).
  eexists _, selected, _. split; [exact Hc|]. simpl.
  split; [reflexivity|]. split; [exact Hnone|]. split; [exact Hsome|].
  split; [apply length_imap|]. split.
  - intros i r Hr. rewrite list_lookup_imap, Hr. reflexivity.
  - intros He. rewrite He. apply Forall_forall. intros [r b] Hin.
    apply elem_of_lookup_imap in Hin as (i & r' & Heq & _).
    inversion Heq; subst. reflexivity.
Qed.


(** *** The engine without profiles *)

Lemma updated_selection_empty (keys : Z) :
  updated_selection keys ∅ [] = ∅.
Proof.
  unfold updated_selection, symmetric_difference.
  destruct (has_modifier keys ControlModifier); [set_solver|].
  destruct (has_modifier keys AltModifier); [set_solver|].
  destruct (has_modifier keys ShiftModifier); set_solver.
Qed.

Lemma no_profiles_inv w :
  no_profiles w ->
  w = without_profiles (data_subset w) (subset_selection w)
        (graph_variables w) (display_index w) (display_quartiles w)
        (group_var w) (state (graph w)) (not_enough_attrs w) (outputs w)
        (keyboardModifiers w).
Proof.
  intros (Hd & Hp & Hg & Hs & Hgs & Hi & Hid).
  destruct w as [d ds ss gv sel di dq gvar grps prof g ne outs kb].
  destruct g as [items byid gsel st]. simpl in *. subst. reflexivity.
Qed.

Lemma without_profiles_no_profiles subset ids gv d q v s msg
  (sent : list (Outputs F)) keys :
  no_profiles (without_profiles subset ids gv d q v s msg sent keys).
Proof. repeat split. Qed.

Lemma selection_changed_without_profiles
  (plot : OWLinePlot F -> option (OWLinePlot F)) subset ids gv d q v s msg
  sent keys :
  selection_changed_with plot
    (without_profiles subset ids gv d q v s msg sent keys) =
  Some (without_profiles subset ids gv d q v s msg ((None, None) :: sent) keys).
Proof.
  rewrite selection_changed_not_pending.
  - simpl. rewrite list_of_set_empty. reflexivity.
  - unfold plot_pending. simpl. apply andb_false_r.
Qed.

Lemma update_visibility_without_profiles
  (plot : OWLinePlot F -> option (OWLinePlot F)) subset ids gv d q v s msg
  sent keys :
  __update_visibility_with plot
    (without_profiles subset ids gv d q v s msg sent keys) =
  Some (without_profiles subset ids gv d q v s msg sent keys).
Proof.
  rewrite update_visibility_not_pending; [reflexivity|].
  unfold plot_pending. simpl. apply andb_false_r.
Qed.

Lemma step_without_profiles (o : Op F) subset ids gv d q v s msg sent keys :
  exists subset' ids' d' q' v' s' sent' keys',
    step o (without_profiles subset ids gv d q v s msg sent keys) =
    Some (without_profiles subset' ids' gv d' q' v' s' msg sent' keys').
Proof.
  destruct o as [k button|k button fin p1 p2|d1|b|v1|s1|subset1| |]; simpl.
  - unfold mouseClickEvent. destruct button; simpl.
    + unfold deselect_all, deselect_all_with. simpl.
      rewrite list_of_set_empty. simpl.
      do 8 eexists. apply selection_changed_without_profiles.
    + do 8 eexists. reflexivity.
    + unfold deselect_all, deselect_all_with. simpl.
      rewrite list_of_set_empty. simpl.
      do 8 eexists. apply selection_changed_without_profiles.
  - unfold mouseDragEvent. simpl.
    assert (Hsel : select_by_line p1 p2
              (without_profiles subset ids gv d q v s msg sent k) =
            Some (without_profiles subset ids gv d q v s msg
                    ((None, None) :: sent) k)).
    { unfold select_by_line, select, select_with. simpl.
      rewrite map_to_list_empty. simpl.
      rewrite updated_selection_empty, list_of_set_empty. simpl.
      apply selection_changed_without_profiles. }
    destruct s, button, fin; try (do 8 eexists; reflexivity);
      do 8 eexists; exact Hsel.
  - do 8 eexists. apply update_visibility_without_profiles.
  - do 8 eexists. apply update_visibility_without_profiles.
  - do 8 eexists. reflexivity.
  - do 8 eexists. reflexivity.
  - unfold set_data_subset, deselect_subset. simpl.
    destruct (bool_decide (ids <> ∅)); simpl;
      [rewrite fmap_empty|]; do 8 eexists; reflexivity.
  - do 8 eexists. unfold handleNewSignals. simpl. reflexivity.
  - do 8 eexists. reflexivity.
Qed.

Lemma run_no_profiles (ops : list (Op F)) w :
  no_profiles w ->
  exists w', run ops w = Some w' /\ no_profiles w' /\
             not_enough_attrs w' = not_enough_attrs w.
Proof.
  revert w. induction ops as [|o ops IH]; intros w Hw; simpl.
  - exists w. split; [reflexivity|]. split; [exact Hw | reflexivity].
  - rewrite (no_profiles_inv w Hw).
    destruct (step_without_profiles o (data_subset w) (subset_selection w)
                (graph_variables w) (display_index w) (display_quartiles w)
                (group_var w) (state (graph w)) (not_enough_attrs w)
                (outputs w) (keyboardModifiers w))
      as (subset' & ids' & d' & q' & v' & s' & sent' & keys' & Hstep).
    unfold run in *. simpl. rewrite Hstep. simpl.
    destruct (IH (without_profiles subset' ids' (graph_variables w) d' q' v'
                    s' (not_enough_attrs w) sent' keys'))
      as (w' & Hrun & Hnp & Hmsg); [apply without_profiles_no_profiles|].
    exists w'. split; [exact Hrun|]. split; [exact Hnp | exact Hmsg].
Qed.

(** C6: loading a dataset without a continuous attribute leaves the engine
    without data, profiles, aggregates or selection; the only trace is the
    information message "Need at least one continuous feature" (and the
    empty outputs sent); every sequence of later operations runs through,
    without an exception, over zero profiles. *)
Theorem set_data_without_continuous_attribute
  (restored : option ContextValues) (t : Table F) w :
  continuous_attributes (domain t) = [] ->
  exists w',
    set_data restored (Some t) w = Some w' /\
    no_profiles w' /\
    not_enough_attrs w' = true /\
    outputs w' = (None, None) :: outputs w /\
    forall ops : list (Op F),
      exists w'', run ops w' = Some w'' /\ no_profiles w'' /\
                  not_enough_attrs w'' = true.
Proof.
  intros Hc. unfold set_data, set_data_until_commit. simpl. rewrite Hc. simpl.
  eexists. split; [reflexivity|]. split; [repeat split|].
  split; [reflexivity|]. split; [reflexivity|].
  intros ops.
  match goal with |- exists w'', run ops ?w1 = _ /\ _ =>
    destruct (run_no_profiles ops w1) as (w'' & Hrun & Hnp & Hmsg);
      [repeat split|]
  end.
  exists w''. split; [exact Hrun|]. split; [exact Hnp | exact Hmsg].
Qed.

End Facts.

(** *** Concrete runs, on binary64 data *)

Import Examples.

Lemma loaded_settled : settled loaded.
Proof.
  assert (Hsel : graph_selection (graph loaded) = ∅)
    by (vm_compute; reflexivity).
  assert (Hdom : dom (_items (graph loaded)) = {[0; 1; 2]})
    by (vm_compute; reflexivity).
  assert (Hdata : data loaded = Some (table 3)) by (vm_compute; reflexivity).
  split; [rewrite Hsel; apply empty_subseteq|].
  split; [vm_compute; reflexivity|].
  intros t Ht i Hi. rewrite Hdata in Ht. injection Ht as <-.
  rewrite Hdom in Hi. set_unfold. simpl. lia.
Qed.

(** A state is settled when its parts, once computed, are. *)
Lemma settled_by_parts {F : Type} {N : Number F} (w : OWLinePlot F)
  (t : Table F) (sel items : gset nat) :
  graph_selection (graph w) = sel ->
  dom (_items (graph w)) = items ->
  data w = Some t ->
  plot_pending w = false ->
  sel ⊆ items ->
  (forall i, i ∈ items -> i < length (rows t)) ->
  settled w.
Proof.
  intros Hsel Hdom Hdata Hp Hsub Hrows.
  split; [now rewrite Hsel, Hdom|]. split; [exact Hp|].
  intros t' Ht i Hi. rewrite Hdata in Ht. injection Ht as <-.
  apply Hrows. now rewrite <- Hdom.
Qed.

Lemma clicked_settled : settled MoreExamples.clicked.
Proof.
  apply (settled_by_parts MoreExamples.clicked (table 3) {[1]} {[0; 1; 2]});
    try (vm_compute; reflexivity).
  - set_solver.
  - intros i Hi. set_unfold. simpl. lia.
Qed.

Lemma two_selected_settled : settled MoreExamples.two_selected.
Proof.
  apply (settled_by_parts MoreExamples.two_selected (table 3) {[1; 2]}
           {[0; 1; 2]});
    try (vm_compute; reflexivity).
  - set_solver.
  - intros i Hi. set_unfold. simpl. lia.
Qed.

Lemma candidates_plotted (c : list nat) (i : nat) :
  Forall (fun j => j < 3) c -> i ∈ c -> i ∈ ({[0; 1; 2]} : gset nat).
Proof.
  intros Hall Hi. rewrite Forall_forall in Hall. specialize (Hall i Hi).
  set_unfold. lia.
Qed.

(** The rows 1 and 2 are selected; the lines of the rows 0 and 1 are the
    candidates.  The four gestures leave four different selections:
    {0, 1} with no key, {0, 2} with ctrl, {2} with alt, {0, 1, 2} with
    shift. *)
Lemma select_set_operations_witness :
  let w := MoreExamples.two_selected in
  let s := graph_selection (graph w) in
  let after (keys : Z) : option (gset nat) :=
    w' ← select [0; 1] (with_keyboardModifiers keys w);
    Some (graph_selection (graph w')) in
  settled w /\
  (forall i, i ∈ [0; 1] -> i ∈ dom (_items (graph w))) /\
  s = {[1; 2]} /\
  (after NoModifier = Some (list_to_set [0; 1]) /\
   after ControlModifier =
     Some ((s ∖ list_to_set [0; 1]) ∪ (list_to_set [0; 1] ∖ s)) /\
   after AltModifier = Some (s ∖ list_to_set [0; 1]) /\
   after ShiftModifier = Some (s ∪ list_to_set [0; 1])) /\
  list_to_set [0; 1] = ({[0; 1]} : gset nat) /\
  (s ∖ list_to_set [0; 1]) ∪ (list_to_set [0; 1] ∖ s) = {[0; 2]} /\
  s ∖ list_to_set [0; 1] = {[2]} /\
  s ∪ list_to_set [0; 1] = {[0; 1; 2]}.
Proof.
  intros w s after.
  assert (Hdom : dom (_items (graph w)) = {[0; 1; 2]})
    by (vm_compute; reflexivity).
  assert (Hc : forall i, i ∈ [0; 1] -> i ∈ dom (_items (graph w))).
  { intros i Hi.
    apply (eq_ind_r (fun d : gset nat => i ∈ d) (x := {[0; 1; 2]}));
      [|exact Hdom].
    apply (candidates_plotted [0; 1]); [repeat constructor | exact Hi]. }
  split; [exact two_selected_settled|]. split; [exact Hc|].
  split; [vm_compute; reflexivity|].
  split; [exact (select_set_operations w [0; 1] two_selected_settled Hc)|].
  split; [vm_compute; reflexivity|].
  split; [vm_compute; reflexivity|].
  split; vm_compute; reflexivity.
Defined.

(** A click with ctrl held while row 1 is selected. *)
Lemma click_clears_selection_witness :
  let w := MoreExamples.clicked in
  settled w /\ graph_selection (graph w) = {[1]} /\ selection w = [1] /\
  exists w' o,
    mouseClickEvent ControlModifier LeftButton w = Some w' /\
    graph_selection (graph w') = ∅ /\
    selection w' = [] /\
    outputs w' = o :: outputs w /\ o.1 = None.
Proof.
  intros w. split; [exact clicked_settled|].
  split; [vm_compute; reflexivity|]. split; [vm_compute; reflexivity|].
  exact (click_clears_selection w ControlModifier clicked_settled).
Defined.

(** The rows 2 and 0 of the loaded table selected, in this order. *)
Lemma commit_projection_witness :
  let w := with_selection [2; 0] loaded in
  data w = Some (table 3) /\
  (forall i, i ∈ selection w -> i < length (rows (table 3))) /\
  exists w' selected annotated,
    commit w = Some w' /\
    outputs w' = (selected, Some annotated) :: outputs w /\
    (selection w = [] -> selected = None) /\
    (selection w <> [] ->
     exists rs, selected = Some rs /\ rows_at (table 3) (selection w) rs) /\
    length annotated = length (rows (table 3)) /\
    (forall i r, rows (table 3) !! i = Some r ->
       annotated !! i = Some (r, bool_decide (i ∈ selection w))) /\
    (selection w = [] -> Forall (fun rb => rb.2 = false) annotated).
Proof.
  intros w.
  assert (Hd : data w = Some (table 3)) by (vm_compute; reflexivity).
  assert (Hr : forall i, i ∈ selection w -> i < length (rows (table 3))).
  { intros i Hi. change (selection w) with [2; 0] in Hi. set_unfold.
    simpl. lia. }
  split; [exact Hd|]. split; [exact Hr|].
  exact (commit_projection w (table 3) Hd Hr).
Defined.

(** A table of discrete attributes replaces the loaded table. *)
Lemma set_data_without_continuous_attribute_witness :
  continuous_attributes (domain discrete_only) = [] /\
  exists w',
    set_data (Some stored_row_5) (Some discrete_only) loaded = Some w' /\
    no_profiles w' /\
    not_enough_attrs w' = true /\
    outputs w' = (None, None) :: outputs loaded /\
    forall ops : list (Op float),
      exists w'', run ops w' = Some w'' /\ no_profiles w'' /\
                  not_enough_attrs w'' = true.
Proof.
  split; [reflexivity|].
  apply (set_data_without_continuous_attribute (Some stored_row_5)
           discrete_only loaded).
  reflexivity.
Defined.

(** C5 (as stated) fails on the order: with the rows 8 and 1 of a table of
    nine rows selected and the selection list holding them as [8, 1] (what
    CPython's [list({1, 8})] returns), [commit] sends row 8 before row 1,
    not the rows in index order. *)
Lemma commit_not_in_index_order :
  let w := with_selection [8; 1]
             (with_data (Some (table 9)) (init RANGE_WITH_MEAN false)) in
  (w' ← commit w; o ← head (outputs w'); Some o.1)
    = Some (Some [row 8; row 1]) /\
  spec_selected_subtable (table 9) [8; 1] = Some [row 1; row 8] /\
  Some [row 8; row 1] <> spec_selected_subtable (table 9) [8; 1].
Proof.
  split; [vm_compute; reflexivity|].
  split; [vm_compute; reflexivity|].
  vm_compute. intros H. discriminate H.
Qed.

(** C2, at a failing input.  The display is "Mean"; the stored context of
    the domain holds the selection [5]; a table of three rows comes in.
    No profile is plotted, [__select_data_instances] does not run, and
    [set_data] reaches its [commit] with the selection [5] on three rows:
    [self.data[self.selection]] raises [IndexError]. *)
Theorem set_data_mean_keeps_stale_selection :
  let w0 := init MEAN false in
  (exists w, set_data_until_commit (Some stored_row_5) (Some (table 3)) w0
             = Some w /\
             selection w = [5] /\
             (length ∘ rows) <$> data w = Some 3 /\
             __profiles w = None /\
             commit w = None) /\
  set_data (Some stored_row_5) (Some (table 3)) w0 = None.
Proof.
  split.
  - eexists. split; [vm_compute; reflexivity|]. repeat split.
  - vm_compute. reflexivity.
Qed.

(** The same load in the other display modes resets the selection. *)
Example set_data_resets_stale_selection :
  forall d, d <> MEAN ->
    selection <$> set_data (Some stored_row_5) (Some (table 3))
                    (init d false) = Some [].
Proof. intros [] H; try congruence; vm_compute; reflexivity. Qed.

(** C3, at a failing input.  The display is "Range with mean", nothing is
    selected, the data has the rows of ids 100, 101, 102.
    - The subset holds the row of id 101: the profile of index 1 is in
      the subset ([_in_subset] is set through [_items_by_id]) and is left
      hidden, because [__update_visibility_profiles] looks for the index 1
      among the ids of the subset.
    - The subset holds one row of id 0, no row of the data: the profile of
      index 0 is shown, though neither selected nor in the subset. *)
Theorem subset_visibility_by_index :
  let w0 := init RANGE_WITH_MEAN false in
  let run subset :=
    w1 ← set_data None (Some (table 3)) w0;
    handleNewSignals (set_data_subset (Some subset) w1) in
  (exists w it,
     run subset_101 = Some w /\
     display_index w = RANGE_WITH_MEAN /\ selection w = [] /\
     subset_selection w = {[101]} /\
     _items (graph w) !! 1 = Some it /\
     instance_id it = 101 /\ _in_subset it = true /\ visible it = false) /\
  (exists w it,
     run subset_0 = Some w /\
     display_index w = RANGE_WITH_MEAN /\ selection w = [] /\
     subset_selection w = ∅ /\
     _items (graph w) !! 0 = Some it /\
     instance_id it = 100 /\ _in_subset it = false /\ visible it = true).
Proof.
  split.
  - eexists _, _. split; [vm_compute; reflexivity|].
    repeat split; vm_compute; reflexivity.
  - eexists _, _. split; [vm_compute; reflexivity|].
    repeat split; vm_compute; reflexivity.
Qed.

End WidgetFacts.

(** ** Every reachable state is settled *)

Module WidgetInvariant.
Import Widget WidgetFacts.

#[local] Set Warnings "-clear-no-such-hyp".

Section Invariant.
Context {F : Type} {N : Number F} {SI : SetIteration}.
Implicit Types (w : OWLinePlot F) (items : gmap nat (LinePlotItem F)).

Lemma consistent_core w w' : core w' = core w -> consistent w -> consistent w'.
Proof.
  unfold core. intros Hc ((Ha & Hb & Hcr) & Hd).
  injection Hc as Hdata Hprof Hdi Hsel Hdom.
  unfold consistent, settled, plot_pending.
  rewrite Hdata, Hprof, Hdi, Hsel, Hdom. repeat split; assumption.
Qed.

Lemma item_call_inv (method : LinePlotItem F -> LinePlotItem F) (i : nat)
  items items' :
  item_call method i items = Some items' ->
  i ∈ dom items /\ dom items' = dom items.
Proof.
  unfold item_call. destruct (items !! i) as [it|] eqn:E; simpl; [|discriminate].
  intros [= <-]. apply elem_of_dom_2 in E. split; [exact E|].
  rewrite dom_insert_L. set_solver.
Qed.

Lemma for_each_item_call_inv (method : LinePlotItem F -> LinePlotItem F)
  (l : list nat) items items' :
  for_each (item_call method) l items = Some items' ->
  (forall i, i ∈ l -> i ∈ dom items) /\ dom items' = dom items.
Proof.
  revert items. induction l as [|a l IH]; intros items; simpl.
  - intros [= <-]. split; [|reflexivity]. intros i Hi. inversion Hi.
  - destruct (item_call method a items) as [m|] eqn:E; simpl; [|discriminate].
    intros Hrun. apply item_call_inv in E as [Ha Hm].
    apply IH in Hrun as [Hl Hdom]. rewrite Hm in *.
    split; [|exact Hdom].
    intros i Hi. apply elem_of_cons in Hi as [->|Hi]; [exact Ha | now apply Hl].
Qed.

Lemma for_each_dom (step : nat -> gmap nat (LinePlotItem F) ->
                           option (gmap nat (LinePlotItem F)))
  (l : list nat) items items' :
  (forall a m m', step a m = Some m' -> dom m' = dom m) ->
  for_each step l items = Some items' -> dom items' = dom items.
Proof.
  intros Hstep. revert items. induction l as [|a l IH]; intros items; simpl.
  - now intros [= <-].
  - destruct (step a items) as [m|] eqn:E; simpl; [|discriminate].
    intros Hrun. apply IH in Hrun. apply Hstep in E. congruence.
Qed.

(** *** The functions that leave the core alone *)

Lemma commit_core w w' : commit w = Some w' -> core w' = core w.
Proof.
  unfold commit. intros H.
  destruct (match data w with
            | Some t => if has_selection w
                        then rs ← table_getitem t (selection w); Some (Some rs)
                        else Some None
            | None => Some None
            end) as [selected|]; simpl in H; [|discriminate].
  destruct (create_annotated_table (data w) (selection w)); simpl in H;
    [|discriminate].
  now injection H as <-.
Qed.

Lemma show_profiles_core w : core (show_profiles w) = core w.
Proof.
  destruct (show_profiles_frame w) as (Hd & _ & Hg & _ & Hp & Hdi).
  unfold core. now rewrite Hd, Hg, Hp, Hdi, show_profiles_items_dom.
Qed.

Lemma plot_groups_core w w' : _plot_groups w = Some w' -> core w' = core w.
Proof.
  unfold _plot_groups. destruct (data w) as [t|]; simpl; [|discriminate].
  destruct (group_var w) as [v|].
  - destruct (mapM _ _) as [gs|]; simpl; [|discriminate]. now intros [= <-].
  - destruct (__plot_group _ _) as [g|]; simpl; [|discriminate].
    now intros [= <-].
Qed.

Lemma select_subset_core (ids : gset nat) w w' :
  select_subset ids w = Some w' -> core w' = core w.
Proof.
  unfold select_subset.
  destruct (for_each _ _ _) as [items|] eqn:E; simpl; [|discriminate].
  intros [= <-]. unfold core. simpl. f_equal.
  eapply for_each_dom; [|exact E].
  intros a m m'. simpl.
  destruct (_items_by_id (graph w) !! a) as [idx|]; simpl; [|discriminate].
  intros H. now apply item_call_inv in H.
Qed.

Lemma deselect_subset_core w : core (deselect_subset w) = core w.
Proof. unfold core, deselect_subset. simpl. now rewrite dom_fmap_L. Qed.

Lemma set_data_subset_core subset w : core (set_data_subset subset w) = core w.
Proof.
  unfold set_data_subset. destruct (bool_decide _); [|reflexivity].
  now rewrite deselect_subset_core.
Qed.

Lemma selection_changed_core
  (plot : OWLinePlot F -> option (OWLinePlot F)) w w' :
  plot_pending w = false ->
  selection_changed_with plot w = Some w' -> core w' = core w.
Proof.
  intros Hp. rewrite selection_changed_not_pending by exact Hp.
  intros H. apply commit_core in H. rewrite H.
  change (core (__update_visibility_groups ?x)) with (core x).
  now rewrite show_profiles_core.
Qed.

(** *** [select] and [deselect_all] *)

Lemma select_consistent (plot : OWLinePlot F -> option (OWLinePlot F))
  (c : list nat) w w' :
  consistent w -> select_with plot c w = Some w' ->
  consistent w' /\ data w' = data w /\ display_index w' = display_index w /\
  __profiles w' = __profiles w.
Proof.
  intros ((Ha & Hb & Hc) & Hd). unfold select_with.
  destruct (for_each (item_call item_deselect) _ _) as [items1|] eqn:E1;
    simpl; [|discriminate].
  destruct (for_each (item_call item_select) _ items1) as [items2|] eqn:E2;
    simpl; [|discriminate].
  apply for_each_item_call_inv in E1 as [_ Hdom1].
  apply for_each_item_call_inv in E2 as [Hin2 Hdom2].
  intros H. apply selection_changed_core in H; [|exact Hb].
  unfold core in H. simpl in H. injection H as Hdata Hprof Hdi Hsel Hdom.
  unfold consistent, settled, plot_pending.
  rewrite Hdata, Hprof, Hdi, Hsel, Hdom, Hdom2, Hdom1.
  repeat split; try assumption.
  intros i Hi. rewrite <- Hdom1. apply Hin2. now apply elem_of_list_of_set.
Qed.

Lemma deselect_all_consistent (plot : OWLinePlot F -> option (OWLinePlot F))
  w w' :
  consistent w -> deselect_all_with plot w = Some w' -> consistent w'.
Proof.
  intros ((Ha & Hb & Hc) & Hd). unfold deselect_all_with.
  destruct (for_each (item_call item_deselect) _ _) as [items1|] eqn:E1;
    simpl; [|discriminate].
  apply for_each_item_call_inv in E1 as [_ Hdom1].
  intros H. apply selection_changed_core in H; [|exact Hb].
  unfold core in H. simpl in H. injection H as Hdata Hprof Hdi Hsel Hdom.
  unfold consistent, settled, plot_pending.
  rewrite Hdata, Hprof, Hdi, Hsel, Hdom, Hdom1.
  repeat split; try assumption. apply empty_subseteq.
Qed.


(** *** [_plot_profiles] *)

Lemma add_items_dom (l : list (LinePlotItem F)) (g : LinePlotGraph F) :
  let g' := foldl (fun g it => add_line_plot_item it g) g l in
  dom (_items g') = dom (_items g) ∪ list_to_set (index <$> l) /\
  graph_selection g' = graph_selection g.
Proof.
  revert g. induction l as [|it l IH]; intros g; simpl.
  - split; [set_solver | reflexivity].
  - destruct (IH (add_line_plot_item it g)) as [Hdom Hsel].
    rewrite Hdom, Hsel. simpl. rewrite dom_insert_L.
    split; [set_solver | reflexivity].
Qed.

Lemma new_items_indices (X : list F) (gv : list nat) (rs : list (Row F))
  (k : nat) :
  index <$> imap (fun i => new_item X gv (k + i)) rs = seq k (length rs).
Proof.
  revert k. induction rs as [|r rs IH]; intros k; simpl; [reflexivity|].
  rewrite Nat.add_0_r. f_equal. rewrite <- IH.
  f_equal. apply imap_ext. intros i x _. simpl. f_equal. lia.
Qed.

Lemma plot_profiles_consistent w w' (t : Table F) :
  data w = Some t ->
  dom (_items (graph w)) = ∅ ->
  graph_selection (graph w) = ∅ ->
  _plot_profiles w = Some w' ->
  consistent w' /\ data w' = data w /\ display_index w' = display_index w /\
  __profiles w' <> None.
Proof.
  intros Hdata Hitems Hsel. unfold _plot_profiles. rewrite Hdata. simpl.
  set (items := imap _ (rows t)).
  set (g1 := foldl _ (graph w) items).
  set (w1 := with_profiles _ (with_graph g1 w)).
  destruct (add_items_dom items (graph w)) as [Hdom1 Hsel1].
  fold g1 in Hdom1, Hsel1.
  assert (Hidx : index <$> items = seq 0 (length (rows t)))
    by apply (new_items_indices _ _ _ 0).
  assert (Hw1 : consistent w1).
  { unfold consistent, settled, plot_pending. simpl.
    rewrite Hsel1, Hsel, Hdom1, Hitems, Hidx, Hdata.
    repeat split; try discriminate; try apply empty_subseteq.
    intros t' [= <-] i Hi. set_unfold. destruct Hi as [[]|Hi].
    lia. }
  unfold __select_data_instances_with.
  change (data w1) with (data w). rewrite Hdata.
  destruct ((length (rows t) =? 0) || negb (has_selection w1)).
  - intros [= <-]. split; [exact Hw1|].
    split; [exact Hdata|]. split; [reflexivity|]. discriminate.
  - intros Hrun. apply select_consistent in Hrun as (Hc & Hd & Hdi & Hp).
    + split; [exact Hc|]. rewrite Hd, Hdi, Hp.
      destruct (length (rows t) <=? _);
        (split; [exact Hdata|]; split; [reflexivity|]; discriminate).
    + destruct (length (rows t) <=? _); exact Hw1.
Qed.

(** *** [__update_visibility] *)

Lemma update_visibility_consistent w w' :
  graph_selection (graph w) ⊆ dom (_items (graph w)) ->
  (forall t, data w = Some t ->
     forall i, i ∈ dom (_items (graph w)) -> i < length (rows t)) ->
  (__profiles w = None -> dom (_items (graph w)) = ∅) ->
  __update_visibility w = Some w' ->
  consistent w' /\ data w' = data w /\ display_index w' = display_index w.
Proof.
  intros Ha Hc Hd. unfold __update_visibility.
  destruct (plot_pending w) eqn:Hp.
  - unfold __update_visibility_with, __update_visibility_profiles_with.
    rewrite Hp. simpl.
    unfold plot_pending in Hp.
    apply andb_prop in Hp as [Hp Hdata]. apply andb_prop in Hp as [Hprof _].
    apply bool_decide_eq_true in Hprof, Hdata.
    destruct (data w) as [t|] eqn:Edata; [|congruence].
    destruct (_plot_profiles w) as [w1|] eqn:E1; simpl; [|discriminate].
    destruct (select_subset (subset_selection w1) w1) as [w2|] eqn:E2;
      simpl; [|discriminate].
    intros [= <-].
    apply (plot_profiles_consistent w w1 t) in E1 as (Hc1 & Hd1 & Hdi1 & Hp1);
      [|exact Edata|now apply Hd|].
    + apply select_subset_core in E2.
      assert (Hcore : core (__update_visibility_groups (show_profiles w2))
                      = core w1).
      { change (core (__update_visibility_groups ?x)) with (core x).
        now rewrite show_profiles_core. }
      split; [exact (consistent_core _ _ Hcore Hc1)|].
      unfold core in Hcore. injection Hcore as H1 _ H3 _ _.
      split; [transitivity (data w1); [exact H1 | now rewrite Hd1]|].
      transitivity (display_index w1); [exact H3 | exact Hdi1].
    + specialize (Hd Hprof). rewrite Hd in Ha. set_solver.
  - rewrite update_visibility_not_pending by exact Hp. intros [= <-].
    assert (Hcore : core (__update_visibility_groups (show_profiles w))
                    = core w).
    { change (core (__update_visibility_groups ?x)) with (core x).
      apply show_profiles_core. }
    split.
    + apply (consistent_core _ _ Hcore). repeat split; assumption.
    + unfold core in Hcore. injection Hcore as H1 _ H3 _ _.
      split; [exact H1 | exact H3].
Qed.


Lemma update_visibility_same_core w0 w w' :
  consistent w0 -> core w = core w0 ->
  __update_visibility w = Some w' -> consistent w'.
Proof.
  intros H0 Hcore Hrun.
  destruct (consistent_core _ _ Hcore H0) as ((Ha & _ & Hc) & Hd).
  now apply (update_visibility_consistent w w' Ha Hc Hd) in Hrun as [H _].
Qed.

(** *** The events *)

Lemma step_consistent (o : Op F) w w' :
  consistent w -> step o w = Some w' -> consistent w'.
Proof.
  intros Hw.
  pose proof Hw as ((Ha & Hb & Hc) & Hd).
  destruct o as [keys button|keys button fin p1 p2|d|b|v|s|subset| |]; simpl.
  - unfold mouseClickEvent.
    destruct button;
      [apply (deselect_all_consistent _ (with_keyboardModifiers keys w) _ Hw)
      |now intros [= <-]
      |apply (deselect_all_consistent _ (with_keyboardModifiers keys w) _ Hw)].
  - unfold mouseDragEvent. simpl.
    destruct (state (graph w)), button, fin; try (now intros [= <-]).
    unfold select_by_line. intros H.
    now apply (select_consistent _ _ (with_keyboardModifiers keys w)) in H
      as [H _].
  - unfold display_index_changed. intros H.
    now apply (update_visibility_consistent (with_display_index d w) w' Ha Hc Hd)
      in H as [H _].
  - unfold display_quartiles_changed.
    now apply (update_visibility_same_core w).
  - unfold __group_var_changed.
    destruct (bool_decide _ || _); [now intros [= <-]|].
    destruct (_plot_groups (with_group_var v w)) as [w1|] eqn:E; simpl;
      [|discriminate].
    apply plot_groups_core in E. now apply (update_visibility_same_core w).
  - now intros [= <-].
  - intros [= <-]. apply (consistent_core w); [|exact Hw].
    apply set_data_subset_core.
  - unfold handleNewSignals.
    set (w0 := with_subset_selection ∅ w).
    destruct (match data w0, data_subset w0 with
              | Some t, Some s0 => _
              | _, _ => _
              end) as [w1|] eqn:E; simpl; [|discriminate].
    assert (Hcore : core w1 = core w).
    { destruct (data w0) as [t|]; [|now injection E as <-].
      destruct (data_subset w0) as [s0|]; [|now injection E as <-].
      destruct (has_subset w0 && _); [|now injection E as <-].
      destruct (bool_decide _); [|now injection E as <-].
      now apply select_subset_core in E. }
    destruct (data w1); [|intros [= <-]; exact (consistent_core _ _ Hcore Hw)].
    now apply (update_visibility_same_core w).
  - intros H. apply commit_core in H. exact (consistent_core _ _ H Hw).
Qed.

Lemma select_by_click_consistent (i : nat) w w' :
  consistent w -> select_by_click i w = Some w' -> consistent w'.
Proof.
  intros Hw. unfold select_by_click.
  destruct (_items (graph w) !! i) as [it|]; simpl; [|discriminate].
  intros H. now apply select_consistent in H as [H _].
Qed.

Lemma set_data_consistent (restored : option ContextValues)
  (d : option (Table F)) w w' :
  set_data restored d w = Some w' -> consistent w'.
Proof.
  unfold set_data.
  destruct (set_data_until_commit restored d w) as [w1|] eqn:E; simpl;
    [|discriminate].
  intros Hc. apply commit_core in Hc.
  apply (consistent_core w1); [exact Hc|]. clear Hc w'.
  unfold set_data_until_commit in E.
  assert (Hsetup : forall w0,
             dom (_items (graph w0)) = ∅ -> graph_selection (graph w0) = ∅ ->
             _setup_plot w0 = Some w1 -> consistent w1).
  { intros w0 Hi Hs. unfold _setup_plot.
    destruct (data w0) as [t|] eqn:Edata.
    - destruct (show_inst (display_index w0)).
      + destruct (_plot_profiles w0) as [w2|] eqn:E2; simpl; [|discriminate].
        apply (plot_profiles_consistent w0 w2 t Edata Hi Hs) in E2
          as (Hc2 & _).
        destruct (_plot_groups w2) as [w3|] eqn:E3; simpl; [|discriminate].
        apply plot_groups_core in E3.
        now apply (update_visibility_same_core w2).
      + simpl.
        destruct (_plot_groups w0) as [w3|] eqn:E3; simpl; [|discriminate].
        apply plot_groups_core in E3.
        unfold core in E3. injection E3 as H1 H2 _ H4 H5.
        apply update_visibility_consistent.
        * rewrite H4, Hs. apply empty_subseteq.
        * intros t' _ i. rewrite H5, Hi. set_solver.
        * intros _. now rewrite H5.
    - intros [= <-]. unfold consistent, settled, plot_pending.
      rewrite Hs, Hi, Edata. simpl. rewrite andb_false_r.
      repeat split; try discriminate; try apply empty_subseteq. }
  destruct d as [t|].
  - simpl in E.
    destruct (length (continuous_attributes (domain t)) <? 1).
    + injection E as <-. unfold consistent, settled, plot_pending. simpl.
      rewrite andb_false_r. rewrite dom_empty_L.
      repeat split; try discriminate; try apply empty_subseteq.
    + apply Hsetup in E; [exact E| |].
      * destruct restored; simpl; apply dom_empty_L.
      * destruct restored; reflexivity.
  - apply Hsetup in E; [exact E|apply dom_empty_L|reflexivity].
Qed.

Lemma init_consistent (d : LinePlotDisplay) (q : bool) :
  consistent (init (F := F) d q).
Proof.
  unfold consistent, settled, plot_pending. simpl.
  rewrite andb_false_r, dom_empty_L.
  repeat split; try discriminate; try apply empty_subseteq.
Qed.

(** Every state the widget reaches is consistent, hence settled. *)
Theorem reachable_consistent w : reachable w -> consistent w.
Proof.
  induction 1 as [d q|restored d w w' _ _ H|o w w' _ IH H|keys i w w' _ IH H].
  - apply init_consistent.
  - exact (set_data_consistent _ _ _ _ H).
  - exact (step_consistent _ _ _ IH H).
  - exact (select_by_click_consistent _ (with_keyboardModifiers keys w) _ IH H).
Qed.

Corollary reachable_settled w : reachable w -> settled w.
Proof. intros H. exact (proj1 (reachable_consistent w H)). Qed.

(** *** The cut at [_plot_profiles] *)

Lemma profiles_plotted_not_pending w :
  __profiles w <> None -> plot_pending w = false.
Proof.
  intros H. unfold plot_pending.
  now rewrite (bool_decide_eq_false_2 _ H).
Qed.

Lemma select_plot_irrelevant
  (plot1 plot2 : OWLinePlot F -> option (OWLinePlot F)) (c : list nat) w :
  __profiles w <> None -> select_with plot1 c w = select_with plot2 c w.
Proof.
  intros H. unfold select_with.
  destruct (for_each (item_call item_deselect) _ _) as [items1|]; simpl;
    [|reflexivity].
  destruct (for_each (item_call item_select) _ items1) as [items2|]; simpl;
    [|reflexivity].
  rewrite !selection_changed_not_pending
    by (apply profiles_plotted_not_pending; exact H).
  reflexivity.
Qed.

(** With the profiles plotted, [__select_data_instances] never takes the
    plotting step: [_plot_profiles] is the same function whatever is put
    in the place of [plotted_already]. *)
Lemma plot_profiles_plots_once
  (plot : OWLinePlot F -> option (OWLinePlot F)) w :
  __profiles w <> None ->
  __select_data_instances_with plot w =
  __select_data_instances_with plotted_already w.
Proof.
  intros H. unfold __select_data_instances_with.
  destruct (data w) as [t|]; [|reflexivity].
  destruct (_ || _); [reflexivity|].
  destruct (length (rows t) <=? _); now apply select_plot_irrelevant.
Qed.

End Invariant.
End WidgetInvariant.

(* ===================================================================== *)
(** * Further properties *)
(* ===================================================================== *)

(** ** The geometry kernel *)

Module KernelFacts.
Import Geometry Crossing.

Lemma ccw_exact_point (a b c : Q * Q) :
  ccw (exact_point a) (exact_point b) (exact_point c) = true <->
  (0 < orient a b c)%Q.
Proof.
  unfold ccw, exact_point, orient. simpl.
  rewrite negb_true_iff, <- not_true_iff_false, Qle_bool_iff. split.
  - intros H. apply Qnot_le_lt in H. lra.
  - intros H Hle. lra.
Qed.

Lemma ccw_exact_point_false (a b c : Q * Q) :
  ccw (exact_point a) (exact_point b) (exact_point c) = false <->
  (orient a b c <= 0)%Q.
Proof.
  rewrite <- not_true_iff_false, ccw_exact_point. split.
  - intros H. apply Qnot_lt_le. exact H.
  - intros H Hlt. lra.
Qed.

(** The two tests of [intersects], read on the signed areas. *)
Lemma xorb_ccw_exact (a b c a' b' c' : Q * Q) :
  xorb (ccw (exact_point a) (exact_point b) (exact_point c))
       (ccw (exact_point a') (exact_point b') (exact_point c')) = true <->
  (0 < orient a b c /\ orient a' b' c' <= 0)%Q \/
  (orient a b c <= 0 /\ 0 < orient a' b' c')%Q.
Proof.
  destruct (ccw (exact_point a) _ _) eqn:E1,
           (ccw (exact_point a') _ _) eqn:E2; simpl;
    (apply ccw_exact_point in E1 || apply ccw_exact_point_false in E1);
    (apply ccw_exact_point in E2 || apply ccw_exact_point_false in E2);
    split; intros H; try discriminate; try reflexivity;
    try (destruct H as [[H1 H2]|[H1 H2]]; lra);
    try (left; split; assumption); try (right; split; assumption).
Qed.

Lemma ratio_in_unit (p k : Q) :
  (0 < k /\ 0 <= p /\ p <= k)%Q \/ (k < 0 /\ k <= p /\ p <= 0)%Q ->
  (0 <= p / k <= 1)%Q.
Proof.
  intros [(Hk & Hp & Hpk)|(Hk & Hkp & Hp)].
  - split; [apply Qle_shift_div_l | apply Qle_shift_div_r]; lra.
  - assert (E : (p / k == (- p) / (- k))%Q) by (field; lra).
    rewrite E.
    split; [apply Qle_shift_div_l | apply Qle_shift_div_r]; lra.
Qed.

(** The signed areas of [intersects] in terms of one another. *)
Lemma orient_differences (a b c d : Q * Q) :
  (orient a c d - orient b c d == orient a b d - orient a b c)%Q.
Proof. unfold orient. ring. Qed.

(** X1: in exact arithmetic [intersects] is sound: when it answers true, the
    two segments have a point in common. *)
Lemma intersects_meet (a b c d : Q * Q) :
  intersects (exact_point a) (exact_point b) (exact_point c) (exact_point d)
    = true ->
  segments_meet a b c d.
Proof.
  unfold intersects. intros H. apply andb_prop in H as [H1 H2].
  apply xorb_ccw_exact in H1, H2.
  pose proof (orient_differences a b c d) as HK.
  set (D1 := orient a c d) in *. set (D2 := orient b c d) in *.
  set (D3 := orient a b c) in *. set (D4 := orient a b d) in *.
  assert (Hs : (0 <= D1 / (D1 - D2) <= 1)%Q).
  { apply ratio_in_unit. destruct H1 as [[? ?]|[? ?]]; [left|right]; lra. }
  assert (Ht : (0 <= (- D3) / (D1 - D2) <= 1)%Q).
  { apply ratio_in_unit. destruct H2 as [[? ?]|[? ?]]; [right|left]; lra. }
  assert (Hne : ~ (D1 - D2 == 0)%Q) by (destruct H1 as [[? ?]|[? ?]]; lra).
  exists (D1 / (D1 - D2))%Q, ((- D3) / (D1 - D2))%Q.
  split; [exact Hs|]. split; [exact Ht|].
  clear Hs Ht H1 H2 HK. subst D1 D2 D3 D4.
  destruct a as [ax ay], b as [bx by_], c as [cx cy], d as [dx dy].
  unfold same_point, along, orient in *. simpl in *.
  split; field; exact Hne.
Qed.

(** X2: in exact arithmetic [intersects] finds every proper crossing: two
    segments that are not parallel and meet strictly inside both are
    reported. *)
Lemma intersects_cross (a b c d : Q * Q) :
  segments_cross a b c d ->
  intersects (exact_point a) (exact_point b) (exact_point c) (exact_point d)
    = true.
Proof.
  intros (HK & s & t & [Hs0 Hs1] & [Ht0 Ht1] & HE1 & HE2).
  destruct a as [ax ay], b as [bx by_], c as [cx cy], d as [dx dy].
  unfold along in HE1, HE2. simpl in *.
  set (K := ((bx - ax) * (dy - cy) - (by_ - ay) * (dx - cx))%Q) in *.
  assert (HR1 : (ax + s * (bx - ax) - (cx + t * (dx - cx)) == 0)%Q)
    by (rewrite HE1; ring).
  assert (HR2 : (ay + s * (by_ - ay) - (cy + t * (dy - cy)) == 0)%Q)
    by (rewrite HE2; ring).
  assert (HD1 : (orient (ax, ay) (cx, cy) (dx, dy) == s * K)%Q).
  { assert (Hid : (orient (ax, ay) (cx, cy) (dx, dy) - s * K ==
                   - (ax + s * (bx - ax) - (cx + t * (dx - cx))) * (dy - cy)
                   + (ay + s * (by_ - ay) - (cy + t * (dy - cy))) * (dx - cx))%Q)
      by (unfold orient, K; simpl; ring).
    rewrite HR1, HR2 in Hid. lra. }
  assert (HD3 : (orient (ax, ay) (bx, by_) (cx, cy) == - t * K)%Q).
  { assert (Hid : (orient (ax, ay) (bx, by_) (cx, cy) + t * K ==
                   (by_ - ay) * (ax + s * (bx - ax) - (cx + t * (dx - cx)))
                   - (bx - ax) * (ay + s * (by_ - ay) - (cy + t * (dy - cy))))%Q)
      by (unfold orient, K; simpl; ring).
    rewrite HR1, HR2 in Hid. lra. }
  assert (HD2 : (orient (bx, by_) (cx, cy) (dx, dy) == (s - 1) * K)%Q).
  { assert (Hid : (orient (ax, ay) (cx, cy) (dx, dy)
                   - orient (bx, by_) (cx, cy) (dx, dy) == K)%Q)
      by (unfold orient, K; simpl; ring).
    lra. }
  assert (HD4 : (orient (ax, ay) (bx, by_) (dx, dy) == (1 - t) * K)%Q).
  { assert (Hid : (orient (ax, ay) (bx, by_) (dx, dy)
                   - orient (ax, ay) (bx, by_) (cx, cy) == K)%Q)
      by (unfold orient, K; simpl; ring).
    lra. }
  unfold intersects. apply andb_true_intro. split; apply xorb_ccw_exact.
  - rewrite HD1, HD2. destruct (Q_dec K 0) as [[Hneg|Hpos]|Hz]; [right|left|tauto];
      split; nra.
  - rewrite HD3, HD4. destruct (Q_dec K 0) as [[Hneg|Hpos]|Hz]; [left|right|tauto];
      split; nra.
Qed.

(** The diagonals of a square cross. *)
Lemma intersects_meet_witness :
  intersects (exact_point (0%Q, 0%Q)) (exact_point (2%Q, 2%Q))
             (exact_point (0%Q, 2%Q)) (exact_point (2%Q, 0%Q)) = true /\
  segments_meet (0%Q, 0%Q) (2%Q, 2%Q) (0%Q, 2%Q) (2%Q, 0%Q).
Proof.
  split; [reflexivity|]. apply intersects_meet. reflexivity.
Defined.

Lemma diagonals_cross :
  segments_cross (0%Q, 0%Q) (2%Q, 2%Q) (0%Q, 2%Q) (2%Q, 0%Q).
Proof.
  split; [intros H; discriminate H|].
  exists (1 # 2)%Q, (1 # 2)%Q. repeat split; reflexivity.
Qed.

Lemma intersects_cross_witness :
  segments_cross (0%Q, 0%Q) (2%Q, 2%Q) (0%Q, 2%Q) (2%Q, 0%Q) /\
  intersects (exact_point (0%Q, 0%Q)) (exact_point (2%Q, 2%Q))
             (exact_point (0%Q, 2%Q)) (exact_point (2%Q, 0%Q)) = true.
Proof.
  split; [exact diagonals_cross|]. apply intersects_cross. exact diagonals_cross.
Defined.

(** *** Reversing the cutting line *)

Lemma ccw_swap_general (a b c : Q * Q) :
  ~ (orient a b c == 0)%Q ->
  ccw (exact_point b) (exact_point a) (exact_point c) =
  negb (ccw (exact_point a) (exact_point b) (exact_point c)).
Proof.
  intros Hne.
  assert (Hswap : (orient b a c == - orient a b c)%Q) by (unfold orient; ring).
  destruct (ccw (exact_point a) _ _) eqn:E; simpl.
  - apply ccw_exact_point in E. apply ccw_exact_point_false. lra.
  - apply ccw_exact_point_false in E. apply ccw_exact_point.
    destruct (Q_dec (orient a b c) 0) as [[H|H]|H]; [lra|lra|contradiction].
Qed.

(** X3: in exact arithmetic, when neither end of the polyline segment lies
    on the line through the cutting segment, the drag direction does not
    matter. *)
Theorem intersects_reverse_line (a b c d : Q * Q) :
  ~ (orient a b c == 0)%Q -> ~ (orient a b d == 0)%Q ->
  intersects (exact_point b) (exact_point a) (exact_point c) (exact_point d) =
  intersects (exact_point a) (exact_point b) (exact_point c) (exact_point d).
Proof.
  intros Hc Hd. unfold intersects.
  rewrite (ccw_swap_general a b c Hc), (ccw_swap_general a b d Hd).
  rewrite (xorb_comm (ccw (exact_point b) _ _)).
  f_equal. now destruct (ccw (exact_point a) (exact_point b) (exact_point c)),
                        (ccw (exact_point a) (exact_point b) (exact_point d)).
Qed.

Lemma intersects_reverse_line_witness :
  ~ (orient (0%Q, 0%Q) (2%Q, 0%Q) (1%Q, (-1)%Q) == 0)%Q /\
  ~ (orient (0%Q, 0%Q) (2%Q, 0%Q) (1%Q, 1%Q) == 0)%Q /\
  intersects (exact_point (2%Q, 0%Q)) (exact_point (0%Q, 0%Q))
             (exact_point (1%Q, (-1)%Q)) (exact_point (1%Q, 1%Q)) =
  intersects (exact_point (0%Q, 0%Q)) (exact_point (2%Q, 0%Q))
             (exact_point (1%Q, (-1)%Q)) (exact_point (1%Q, 1%Q)).
Proof.
  assert (H1 : ~ (orient (0%Q, 0%Q) (2%Q, 0%Q) (1%Q, (-1)%Q) == 0)%Q)
    by (intros H; discriminate H).
  assert (H2 : ~ (orient (0%Q, 0%Q) (2%Q, 0%Q) (1%Q, 1%Q) == 0)%Q)
    by (intros H; discriminate H).
  split; [exact H1|]. split; [exact H2|].
  exact (intersects_reverse_line (0%Q, 0%Q) (2%Q, 0%Q) (1%Q, (-1)%Q) (1%Q, 1%Q) H1 H2).
Defined.

(** With a vertex of the polyline on the cutting line the direction does
    matter: the segment from (1,0) to (1,1) is hit by the line drawn from
    (0,0) to (2,0) and missed by the line drawn from (2,0) to (0,0). *)
Example intersects_touching_depends_on_direction :
  intersects (exact_point (0%Q, 0%Q)) (exact_point (2%Q, 0%Q))
             (exact_point (1%Q, 0%Q)) (exact_point (1%Q, 1%Q)) = true /\
  intersects (exact_point (2%Q, 0%Q)) (exact_point (0%Q, 0%Q))
             (exact_point (1%Q, 0%Q)) (exact_point (1%Q, 1%Q)) = false.
Proof. split; reflexivity. Qed.

(** *** Degenerate segments and polylines, for every number type *)

Section AnyNumber.
Context {F : Type} {N : Number F}.

Lemma intersects_point_line (a c d : point F) : intersects a a c d = false.
Proof. unfold intersects. now rewrite xorb_nilpotent. Qed.

Lemma intersects_point_segment (a b c : point F) : intersects a b c c = false.
Proof. unfold intersects. now rewrite (xorb_nilpotent (ccw a b c)), andb_false_r. Qed.

Lemma line_segments_line_intersect_step (p1 p2 : point F) (x0 x1 y0 y1 : F)
  (xs ys : list F) :
  line_segments_line_intersect p1 p2 (x0 :: x1 :: xs) (y0 :: y1 :: ys) =
  if intersects p1 p2 (Point x0 y0) (Point x1 y1) then true
  else line_segments_line_intersect p1 p2 (x1 :: xs) (y1 :: ys).
Proof. reflexivity. Qed.

Lemma zero_length_line_hits_no_polyline (p : point F) (xs ys : list F) :
  line_segments_line_intersect p p xs ys = false.
Proof.
  revert ys. induction xs as [|x0 xs IH]; intros ys; [reflexivity|].
  destruct xs as [|x1 xs]; [now destruct ys|].
  destruct ys as [|y0 [|y1 ys]]; try reflexivity.
  rewrite line_segments_line_intersect_step, intersects_point_line.
  apply IH.
Qed.

(** X4: the polyline test is true exactly when the cutting line intersects
    the segment between two consecutive points; a polyline of fewer than two
    points is never hit. *)
Theorem line_segments_line_intersect_iff (p1 p2 : point F) (xs ys : list F) :
  line_segments_line_intersect p1 p2 xs ys = true <->
  exists i x0 x1 y0 y1,
    xs !! i = Some x0 /\ xs !! S i = Some x1 /\
    ys !! i = Some y0 /\ ys !! S i = Some y1 /\
    intersects p1 p2 (Point x0 y0) (Point x1 y1) = true.
Proof.
  revert ys. induction xs as [|x0 xs IH]; intros ys.
  - split; [discriminate|]. intros (i & ? & ? & ? & ? & H & _). discriminate H.
  - destruct xs as [|x1 xs].
    { split; [now destruct ys|].
      intros (i & ? & ? & ? & ? & _ & H & _). now destruct i. }
    destruct ys as [|y0 [|y1 ys]].
    + split; [discriminate|]. intros (i & ? & ? & ? & ? & _ & _ & H & _).
      discriminate H.
    + split; [discriminate|].
      intros (i & ? & ? & ? & ? & _ & _ & _ & H & _). now destruct i.
    + rewrite line_segments_line_intersect_step.
      destruct (intersects p1 p2 (Point x0 y0) (Point x1 y1)) eqn:E.
      * split; [|reflexivity]. intros _. exists 0, x0, x1, y0, y1. auto.
      * rewrite IH. split.
        -- intros (i & a0 & a1 & b0 & b1 & H1 & H2 & H3 & H4 & H5).
           exists (S i), a0, a1, b0, b1. auto.
        -- intros (i & a0 & a1 & b0 & b1 & H1 & H2 & H3 & H4 & H5).
           destruct i as [|i].
           ++ simpl in H1, H2, H3, H4.
              injection H1 as <-. injection H2 as <-.
              injection H3 as <-. injection H4 as <-. congruence.
           ++ exists i, a0, a1, b0, b1. auto.
Qed.

End AnyNumber.

End KernelFacts.

(** ** The aggregate of a group *)

Module AggregateFacts.
Import Numpy Widget.

Section AnyNumber.
Context {F : Type} {N : Number F}.

Lemma plot_group_total (X : list F) (dataX : list (list F)) :
  dataX <> [] -> is_Some (__plot_group X dataX).
Proof.
  intros H. unfold __plot_group, get_range_curve, nanmax, nanmin.
  destruct dataX; [congruence|]. simpl. eauto.
Qed.

Lemma reduce1_single (f : F -> F -> F) (v : F) : reduce1 f [v] = v.
Proof. reflexivity. Qed.

(** X7: for a group of one profile the band collapses onto the profile: the
    maximum and the minimum curve are the profile's values, NaN positions
    included, whatever the number type. *)
Theorem plot_group_single_profile_range (r : list F) :
  exists g, __plot_group (arange1 (length r)) [r] = Some g /\
            range_max g = r /\ range_min g = r.
Proof.
  unfold __plot_group, get_range_curve, nanmax, nanmin. simpl.
  eexists. split; [reflexivity|]. simpl.
  rewrite StatsFacts.arange1_length, StatsFacts.columns_single_row, !map_map.
  simpl. now rewrite map_id.
Qed.

End AnyNumber.

(** *** Exact arithmetic *)

Lemma fmax_exact_bounds (a b : xq) :
  (forall q, a = XFin q -> exists m, fmax a b = XFin m /\ (q <= m)%Q) /\
  (forall q, b = XFin q -> exists m, fmax a b = XFin m /\ (q <= m)%Q).
Proof.
  destruct a as [|p], b as [|q]; unfold fmax; simpl;
    split; intros q' H; try discriminate H; injection H as <-;
    try (eexists; split; [reflexivity | lra]);
    destruct (Qle_bool _ _) eqn:E; simpl; eexists;
    (split; [reflexivity|]); try lra;
    try (now apply Qle_bool_iff);
    apply not_true_iff_false in E; rewrite Qle_bool_iff in E;
    apply Qnot_le_lt in E; lra.
Qed.

Lemma fmin_exact_bounds (a b : xq) :
  (forall q, a = XFin q -> exists m, fmin a b = XFin m /\ (m <= q)%Q) /\
  (forall q, b = XFin q -> exists m, fmin a b = XFin m /\ (m <= q)%Q).
Proof.
  destruct a as [|p], b as [|q]; unfold fmin; simpl;
    split; intros q' H; try discriminate H; injection H as <-;
    try (eexists; split; [reflexivity | lra]);
    destruct (Qle_bool _ _) eqn:E; simpl; eexists;
    (split; [reflexivity|]); try lra;
    try (now apply Qle_bool_iff);
    apply not_true_iff_false in E; rewrite Qle_bool_iff in E;
    apply Qnot_le_lt in E; lra.
Qed.

(** A reduction by a function that keeps a bound on both of its operands
    keeps it on every element. *)
Lemma fold_left_bound (f : xq -> xq -> xq) (R : Q -> Q -> Prop) :
  (forall x, R x x) ->
  (forall x y z, R x y -> R y z -> R x z) ->
  (forall a b,
     (forall q, a = XFin q -> exists m, f a b = XFin m /\ R q m) /\
     (forall q, b = XFin q -> exists m, f a b = XFin m /\ R q m)) ->
  forall (l : list xq) (acc : xq),
    (forall q, acc = XFin q ->
       exists m, fold_left f l acc = XFin m /\ R q m) /\
    (forall q, In (XFin q) l ->
       exists m, fold_left f l acc = XFin m /\ R q m).
Proof.
  intros Hrefl Htrans Hf l. induction l as [|b l IH]; intros acc; simpl.
  - split; [|contradiction]. intros q ->. exists q. auto.
  - destruct (IH (f acc b)) as [IHacc IHin]. destruct (Hf acc b) as [Ha Hb].
    split.
    + intros q Hq. destruct (Ha q Hq) as (m & Em & Hm).
      destruct (IHacc m Em) as (m' & Em' & Hm'). exists m'. eauto.
    + intros q [->|Hin]; [|now apply IHin].
      destruct (Hb q eq_refl) as (m & Em & Hm).
      destruct (IHacc m Em) as (m' & Em' & Hm'). exists m'. eauto.
Qed.

Lemma reduce1_bound (f : xq -> xq -> xq) (R : Q -> Q -> Prop) :
  (forall x, R x x) ->
  (forall x y z, R x y -> R y z -> R x z) ->
  (forall a b,
     (forall q, a = XFin q -> exists m, f a b = XFin m /\ R q m) /\
     (forall q, b = XFin q -> exists m, f a b = XFin m /\ R q m)) ->
  forall (col : list xq) (q : Q),
    In (XFin q) col -> exists m, reduce1 f col = XFin m /\ R q m.
Proof.
  intros Hrefl Htrans Hf col q Hin. destruct col as [|v rest]; [contradiction|].
  simpl. destruct (fold_left_bound f R Hrefl Htrans Hf rest v) as [Hacc Hrest].
  destruct Hin as [->|Hin]; [now apply Hacc | now apply Hrest].
Qed.

Lemma plot_group_band_of (X : list xq)
  (dataX : list (list xq)) (g : Group xq) :
  __plot_group X dataX = Some g ->
  forall (r : list xq) (j : nat) (q : Q),
    In r dataX -> j < length X -> nth j r XNaN = XFin q ->
    exists lo hi : Q,
      range_min g !! j = Some (XFin lo) /\
      range_max g !! j = Some (XFin hi) /\
      (lo <= q <= hi)%Q.
Proof.
  unfold __plot_group.
  destruct (get_range_curve X dataX) as [range|] eqn:E; [|discriminate].
  intros [= <-] r j q Hr Hj Hq. cbn [range_max range_min].
  unfold get_range_curve, nanmax, nanmin in E.
  destruct dataX as [|r0 rows]; [contradiction|]. injection E as <-.
  cbn [fst snd]. unfold columns.
  rewrite !list_lookup_fmap, lookup_seq_lt by exact Hj.
  change (0 + j) with j. cbn [fmap option_fmap option_map].
  assert (Hin : In (XFin q) (column (r0 :: rows) j)).
  { unfold column. rewrite <- Hq. now apply (in_map (fun r => nth j r XNaN)). }
  destruct (reduce1_bound fmin (fun x m => (m <= x)%Q)) with
    (col := column (r0 :: rows) j) (q := q) as (lo & Elo & Hlo);
    [intros; lra | intros; lra | apply fmin_exact_bounds | exact Hin |].
  destruct (reduce1_bound fmax (fun x m => (x <= m)%Q)) with
    (col := column (r0 :: rows) j) (q := q) as (hi & Ehi & Hhi);
    [intros; lra | intros; lra | apply fmax_exact_bounds | exact Hin |].
  exists lo, hi. rewrite Elo, Ehi. repeat split; assumption.
Qed.

(** X8: in exact arithmetic every value of every profile of a group lies
    within the band of the group's aggregate: between the minimum and the
    maximum curve at its column. *)
Theorem plot_group_band_contains_profiles (X : list xq)
  (dataX : list (list xq)) (r : list xq) (j : nat) (q : Q) :
  In r dataX -> j < length X -> nth j r XNaN = XFin q ->
  exists (g : Group xq) (lo hi : Q),
    __plot_group X dataX = Some g /\
    range_min g !! j = Some (XFin lo) /\
    range_max g !! j = Some (XFin hi) /\
    (lo <= q <= hi)%Q.
Proof.
  intros Hr Hj Hq.
  destruct (plot_group_total X dataX) as [g Hg];
    [intros ->; contradiction|].
  destruct (plot_group_band_of X dataX g Hg r j q Hr Hj Hq)
    as (lo & hi & H).
  exists g, lo, hi. split; [exact Hg | exact H].
Qed.

Lemma plot_group_band_contains_profiles_witness :
  let X : list xq := arange1 1 in
  let dataX := [[XFin 3]; [XNaN]; [XFin 1]] in
  In [XFin 3] dataX /\ 0 < length X /\ nth 0 [XFin 3] XNaN = XFin 3 /\
  exists (g : Group xq) (lo hi : Q),
    __plot_group X dataX = Some g /\
    range_min g !! 0 = Some (XFin lo) /\
    range_max g !! 0 = Some (XFin hi) /\
    (lo <= 3 <= hi)%Q.
Proof.
  intros X dataX.
  assert (H1 : In [XFin 3] dataX) by (left; reflexivity).
  assert (H2 : 0 < length X) by (simpl; lia).
  assert (H3 : nth 0 [XFin 3] XNaN = XFin 3) by reflexivity.
  repeat (split; [assumption|]).
  exact (plot_group_band_contains_profiles X dataX [XFin 3] 0 3 H1 H2 H3).
Defined.

Lemma nanpercentile_single_exact (q : Z) (v : xq) :
  match v with
  | XNaN => nanpercentile_1d q [v] = XNaN
  | XFin p => exists e, nanpercentile_1d q [v] = XFin e /\ (e == p)%Q
  end.
Proof.
  destruct v as [|p]; [reflexivity|].
  eexists. split; [reflexivity|]. field.
Qed.

Lemma single_profile_bottom (q : Z) (r : list xq) :
  Forall2 (fun v e => if num_isnan v then e = XNaN else xq_eq e (XFin 0))
    r (zip_with num_sub r (map (fun v => nanpercentile_1d q [v]) r)).
Proof.
  induction r as [|v r IH]; simpl; constructor; [|exact IH].
  pose proof (nanpercentile_single_exact q v) as H.
  destruct v as [|p]; [reflexivity|]. destruct H as (e & -> & He).
  simpl. lra.
Qed.

Lemma single_profile_top (q : Z) (r : list xq) :
  Forall2 (fun v e => if num_isnan v then e = XNaN else xq_eq e (XFin 0))
    r (zip_with num_sub (map (fun v => nanpercentile_1d q [v]) r) r).
Proof.
  induction r as [|v r IH]; simpl; constructor; [|exact IH].
  pose proof (nanpercentile_single_exact q v) as H.
  destruct v as [|p]; [reflexivity|]. destruct H as (e & -> & He).
  simpl. lra.
Qed.

(** X9: in exact arithmetic a group of one profile has error bars of extent
    zero where the profile has a value, and NaN where it has none. *)
Theorem plot_group_single_profile_error_bars (r : list xq) :
  exists g, __plot_group (arange1 (length r)) [r] = Some g /\
    Forall2 (fun v e => if num_isnan v then e = XNaN else xq_eq e (XFin 0))
      r (error_bottom g) /\
    Forall2 (fun v e => if num_isnan v then e = XNaN else xq_eq e (XFin 0))
      r (error_top g).
Proof.
  unfold __plot_group, get_range_curve, nanmax, nanmin.
  cbn [mbind option_bind]. eexists. split; [reflexivity|].
  cbn [error_bottom error_top].
  rewrite StatsFacts.get_error_bar_unclipped_exact. cbn [fst snd].
  rewrite StatsFacts.arange1_length. unfold nanmean, nanpercentile.
  rewrite StatsFacts.columns_single_row, !map_map.
  assert (Hmean : map (fun v => nanmean_1d [v]) r = r).
  { rewrite <- (map_id r) at 2. apply map_ext.
    intros v. apply StatsFacts.nanmean_1d_single. }
  rewrite Hmean. unfold subtract.
  split; [apply single_profile_bottom | apply single_profile_top].
Qed.

End AggregateFacts.

(** ** Loading data and sending the outputs *)

Module LoadFacts.
Import Widget WidgetFacts.

#[local] Set Warnings "-clear-no-such-hyp".

Section Load.
Context {F : Type} {N : Number F} {SI : SetIteration}.
Implicit Types (w : OWLinePlot F) (t : Table F).

Lemma forallb_in_range_inv (n : nat) (sel : list nat) :
  forallb (fun i => i <? n) sel = true -> forall i, i ∈ sel -> i < n.
Proof.
  intros H i Hi. rewrite forallb_forall in H.
  apply Nat.ltb_lt, H. now apply list_elem_of_In.
Qed.

Lemma commit_inv w w' :
  commit w = Some w' ->
  data w' = data w /\ selection w' = selection w /\
  forall t, data w = Some t -> forall i, i ∈ selection w -> i < length (rows t).
Proof.
  unfold commit. intros H.
  destruct (match data w with
            | Some t => if has_selection w
                        then rs ← table_getitem t (selection w); Some (Some rs)
                        else Some None
            | None => Some None
            end) as [selected|]; simpl in H; [|discriminate].
  destruct (create_annotated_table (data w) (selection w)) as [ann|] eqn:E;
    simpl in H; [|discriminate].
  injection H as <-. split; [reflexivity|]. split; [reflexivity|].
  intros t Ht. unfold create_annotated_table in E. rewrite Ht in E.
  destruct (forallb _ _) eqn:Hall; [|discriminate].
  now apply forallb_in_range_inv.
Qed.

(** X10: with data in the widget, [commit] raises exactly when the selection
    holds an index that is not a row of the data. *)
Theorem commit_raises_iff_out_of_range w t :
  data w = Some t ->
  (commit w = None <-> exists i, i ∈ selection w /\ length (rows t) <= i).
Proof.
  intros Hd. split.
  - intros Hnone.
    destruct (decide (Forall (fun i => i < length (rows t)) (selection w)))
      as [Hall|Hnot].
    + rewrite Forall_forall in Hall.
      destruct (commit_in_range w t Hd Hall) as (selected & Hc & _).
      congruence.
    + apply not_Forall_Exists in Hnot; [|intros i; apply _].
      apply Exists_exists in Hnot as (i & Hi & Hge). simpl in Hge.
      exists i. split; [exact Hi | lia].
  - intros (i & Hi & Hge). destruct (commit w) as [w'|] eqn:E; [|reflexivity].
    apply commit_inv in E as (_ & _ & Hr). specialize (Hr t Hd i Hi). lia.
Qed.

End Load.
End LoadFacts.

(** ** The selection cycle *)

Module CycleFacts.
Import Widget WidgetFacts WidgetViews WidgetInvariant.

#[local] Set Warnings "-clear-no-such-hyp".

Section Cycle.
Context {F : Type} {N : Number F} {SI : SetIteration}.
Implicit Types (w : OWLinePlot F) (items : gmap nat (LinePlotItem F)).

(** *** Shapes of the results *)

Lemma commit_shape w w' :
  commit w = Some w' -> exists o, w' = with_outputs (o :: outputs w) w.
Proof.
  unfold commit. intros H.
  destruct (match data w with
            | Some t => if has_selection w
                        then rs ← table_getitem t (selection w); Some (Some rs)
                        else Some None
            | None => Some None
            end) as [selected|]; simpl in H; [|discriminate].
  destruct (create_annotated_table (data w) (selection w)) as [ann|];
    simpl in H; [|discriminate].
  injection H as <-. eauto.
Qed.

Lemma show_profiles_shape w :
  exists items',
    show_profiles w = with_graph (with_items items' (graph w)) w /\
    selected_view items' = selected_view (_items (graph w)).
Proof.
  unfold show_profiles. destruct (__profiles w) as [ps|].
  - eexists. split; [reflexivity|].
    apply map_eq. intros i. unfold selected_view.
    rewrite !lookup_fmap.
    rewrite (foldl_setVisible_lookup
               (fun j => show_inst (display_index w)
                         || bool_decide (j ∈ selection w ++ _)
                            && show_selection (display_index w))).
    destruct (_items (graph w) !! i) as [it|]; [|reflexivity]. simpl.
    now destruct (bool_decide (i ∈ ps)).
  - exists (_items (graph w)). split; [|reflexivity].
    now destruct w as [? ? ? ? ? ? ? ? ? ? [] ? ? ?].
Qed.

Lemma plot_groups_shape w w' :
  _plot_groups w = Some w' -> exists gs, w' = with_groups gs w.
Proof.
  unfold _plot_groups. destruct (data w) as [t|]; simpl; [|discriminate].
  destruct (group_var w) as [v|].
  - destruct (mapM _ _) as [gs|]; simpl; [|discriminate].
    intros [= <-]. eauto.
  - destruct (__plot_group _ _) as [g|]; simpl; [|discriminate].
    intros [= <-]. eauto.
Qed.

Lemma selection_changed_facts
  (plot : OWLinePlot F -> option (OWLinePlot F)) w w' :
  plot_pending w = false ->
  selection_changed_with plot w = Some w' ->
  settings_view w' = settings_view w /\
  selection_view w' = selection_view w /\
  selection w' = list_of_set (graph_selection (graph w)) /\
  exists o, outputs w' = o :: outputs w.
Proof.
  intros Hp. rewrite selection_changed_not_pending by exact Hp. intros H.
  apply commit_shape in H as (o & ->).
  destruct (show_profiles_shape
              (with_selection (list_of_set (graph_selection (graph w))) w))
    as (items' & -> & Hview).
  unfold settings_view, selection_view. simpl. rewrite Hview.
  repeat split; eauto.
Qed.

(** *** The loops over the items *)

Lemma for_each_item_call_lookup (method : LinePlotItem F -> LinePlotItem F)
  (l : list nat) items items' :
  NoDup l ->
  for_each (item_call method) l items = Some items' ->
  forall i, items' !! i =
            if bool_decide (i ∈ l) then method <$> items !! i else items !! i.
Proof.
  intros Hnd. revert items. induction Hnd as [|a l Ha _ IH]; intros items; simpl.
  - intros [= <-] i. reflexivity.
  - destruct (items !! a) as [it|] eqn:Eit.
    2:{ assert (E : item_call method a items = None)
          by (unfold item_call; now rewrite Eit).
        rewrite E. discriminate. }
    rewrite (item_call_Some _ _ _ _ Eit). simpl.
    intros Hrun i. rewrite (IH _ Hrun).
    destruct (decide (i = a)) as [->|Hne].
    + rewrite (bool_decide_eq_false_2 _ Ha), lookup_insert_eq, Eit.
      now rewrite bool_decide_eq_true_2 by left.
    + rewrite lookup_insert_ne by congruence.
      destruct (decide (i ∈ l)) as [Hin|Hnin].
      * now rewrite !bool_decide_eq_true_2 by (try right; exact Hin).
      * rewrite !bool_decide_eq_false_2; [reflexivity| |exact Hnin].
        intros Hin. apply elem_of_cons in Hin as [?|?]; congruence.
Qed.

Lemma for_each_over_set_lookup (method : LinePlotItem F -> LinePlotItem F)
  (s : gset nat) items items' :
  for_each (item_call method) (list_of_set s) items = Some items' ->
  forall i, items' !! i =
            if bool_decide (i ∈ s) then method <$> items !! i else items !! i.
Proof.
  intros Hrun i.
  rewrite (for_each_item_call_lookup _ _ _ _ (list_of_set_NoDup s) Hrun).
  destruct (decide (i ∈ s)) as [Hin|Hnin].
  - rewrite !bool_decide_eq_true_2; [reflexivity|exact Hin|].
    now apply elem_of_list_of_set.
  - rewrite !bool_decide_eq_false_2; [reflexivity|exact Hnin|].
    now rewrite elem_of_list_of_set.
Qed.

(** What a deselect loop over [old] followed by a select loop over [new]
    leaves of the flags. *)
Lemma reselect_view (old new : gset nat) items items1 items2 :
  for_each (item_call item_deselect) (list_of_set old) items = Some items1 ->
  for_each (item_call item_select) (list_of_set new) items1 = Some items2 ->
  forall i,
    selected_view items2 !! i =
    (fun kb : nat * bool =>
       (kb.1, if bool_decide (i ∈ new) then true
              else if bool_decide (i ∈ old) then false else kb.2))
      <$> selected_view items !! i.
Proof.
  intros H1 H2 i. unfold selected_view. rewrite !lookup_fmap.
  rewrite (for_each_over_set_lookup _ _ _ _ H2 i).
  rewrite (for_each_over_set_lookup _ _ _ _ H1 i).
  destruct (bool_decide (i ∈ new)), (bool_decide (i ∈ old)),
           (items !! i) as [it|]; reflexivity.
Qed.

Lemma select_facts (plot : OWLinePlot F -> option (OWLinePlot F))
  (c : list nat) w w' :
  plot_pending w = false ->
  select_with plot c w = Some w' ->
  let old := graph_selection (graph w) in
  let new := updated_selection (keyboardModifiers w) old c in
  settings_view w' = settings_view w /\
  graph_selection (graph w') = new /\
  selection w' = list_of_set new /\
  (exists o, outputs w' = o :: outputs w) /\
  forall i,
    selected_view (_items (graph w')) !! i =
    (fun kb : nat * bool =>
       (kb.1, if bool_decide (i ∈ new) then true
              else if bool_decide (i ∈ old) then false else kb.2))
      <$> selected_view (_items (graph w)) !! i.
Proof.
  intros Hp H old new. unfold select_with in H.
  destruct (for_each (item_call item_deselect) _ _) as [items1|] eqn:E1;
    simpl in H; [|discriminate].
  destruct (for_each (item_call item_select) _ items1) as [items2|] eqn:E2;
    simpl in H; [|discriminate].
  apply selection_changed_facts in H as (Hset & Hview & Hsel & Ho); [|exact Hp].
  unfold selection_view in Hview. simpl in Hview.
  injection Hview as Hg Hv.
  split; [exact Hset|]. split; [exact Hg|]. split; [exact Hsel|].
  split; [exact Ho|].
  intros i. rewrite Hv. exact (reselect_view _ _ _ _ _ E1 E2 i).
Qed.

Lemma deselect_all_facts (plot : OWLinePlot F -> option (OWLinePlot F)) w w' :
  plot_pending w = false ->
  deselect_all_with plot w = Some w' ->
  settings_view w' = settings_view w /\
  graph_selection (graph w') = ∅ /\
  selection w' = [] /\
  (exists o, outputs w' = o :: outputs w) /\
  forall i,
    selected_view (_items (graph w')) !! i =
    (fun kb : nat * bool =>
       (kb.1, if bool_decide (i ∈ graph_selection (graph w)) then false
              else kb.2))
      <$> selected_view (_items (graph w)) !! i.
Proof.
  intros Hp. unfold deselect_all_with.
  destruct (for_each (item_call item_deselect) _ _) as [items1|] eqn:E1;
    simpl; [|discriminate].
  intros H.
  apply selection_changed_facts in H as (Hset & Hview & Hsel & Ho); [|exact Hp].
  unfold selection_view in Hview. simpl in Hview.
  injection Hview as Hg Hv. simpl in Hsel. rewrite list_of_set_empty in Hsel.
  split; [exact Hset|]. split; [exact Hg|]. split; [exact Hsel|].
  split; [exact Ho|].
  intros i. rewrite Hv. unfold selected_view. rewrite !lookup_fmap.
  rewrite (for_each_over_set_lookup _ _ _ _ E1 i).
  destruct (bool_decide _), (_items (graph w) !! i); reflexivity.
Qed.

End Cycle.
End CycleFacts.

(* ===================================================================== *)
(** ** The flags of the items follow the selection of the graph *)

Module SyncFacts.
Import Widget WidgetFacts WidgetViews WidgetInvariant CycleFacts.

#[local] Set Warnings "-clear-no-such-hyp".

Section Sync.
Context {F : Type} {N : Number F} {SI : SetIteration}.
Implicit Types (w : OWLinePlot F) (items : gmap nat (LinePlotItem F)).

Lemma flags_in_sync_view w w' :
  selection_view w' = selection_view w -> flags_in_sync w -> flags_in_sync w'.
Proof.
  unfold selection_view, flags_in_sync. intros [= Hg Hv] H.
  rewrite Hg, Hv. exact H.
Qed.

Lemma commit_view w w' :
  commit w = Some w' -> selection_view w' = selection_view w.
Proof. intros H. apply commit_shape in H as (o & ->). reflexivity. Qed.

Lemma show_profiles_view w :
  selection_view (show_profiles w) = selection_view w.
Proof.
  destruct (show_profiles_shape w) as (items' & E & Hv). rewrite E.
  unfold selection_view. simpl. now rewrite Hv.
Qed.

Lemma plot_groups_view w w' :
  _plot_groups w = Some w' -> selection_view w' = selection_view w.
Proof. intros H. apply plot_groups_shape in H as (gs & ->). reflexivity. Qed.

Lemma item_call_view (method : LinePlotItem F -> LinePlotItem F) (i : nat)
  items items' :
  (forall it, index (method it) = index it /\
              _selected (method it) = _selected it) ->
  item_call method i items = Some items' ->
  selected_view items' = selected_view items.
Proof.
  intros Hm. unfold item_call.
  destruct (items !! i) as [it|] eqn:E; simpl; [|discriminate].
  intros [= <-]. apply map_eq. intros j. unfold selected_view.
  rewrite !lookup_fmap.
  destruct (decide (j = i)) as [->|Hne].
  - rewrite lookup_insert_eq, E. simpl. destruct (Hm it) as [-> ->].
    reflexivity.
  - now rewrite lookup_insert_ne by congruence.
Qed.

Lemma select_subset_view (ids : gset nat) w w' :
  select_subset ids w = Some w' -> selection_view w' = selection_view w.
Proof.
  unfold select_subset.
  destruct (for_each _ _ _) as [items|] eqn:E; simpl; [|discriminate].
  intros [= <-]. unfold selection_view. simpl. f_equal.
  revert E. generalize (_items (graph w)) as m.
  induction (list_of_set ids) as [|a l IH]; intros m; simpl.
  - now intros [= <-].
  - destruct (_items_by_id (graph w) !! a) as [idx|]; simpl; [|discriminate].
    destruct (item_call into_subset idx m) as [m1|] eqn:E1; simpl;
      [|discriminate].
    intros H. rewrite (IH _ H).
    apply (item_call_view into_subset idx); [|exact E1].
    intros it. split; reflexivity.
Qed.

Lemma deselect_subset_view w :
  selection_view (deselect_subset w) = selection_view w.
Proof.
  unfold selection_view, deselect_subset, selected_view. simpl. f_equal.
  rewrite <- map_fmap_compose. apply map_fmap_ext. reflexivity.
Qed.

Lemma set_data_subset_view subset w :
  selection_view (set_data_subset subset w) = selection_view w.
Proof.
  unfold set_data_subset. destruct (bool_decide _); [|reflexivity].
  now rewrite deselect_subset_view.
Qed.

(** *** [select] and [deselect_all] *)

Lemma select_sync (plot : OWLinePlot F -> option (OWLinePlot F))
  (c : list nat) w w' :
  plot_pending w = false -> flags_in_sync w ->
  select_with plot c w = Some w' -> flags_in_sync w'.
Proof.
  intros Hp Hs H.
  destruct (select_facts _ _ _ _ Hp H) as (_ & Hg & _ & _ & Hv).
  intros i k b Hl. rewrite Hv in Hl. rewrite Hg.
  destruct (selected_view (_items (graph w)) !! i) as [[k0 b0]|] eqn:E;
    simpl in Hl; [|discriminate].
  injection Hl as <- <-. destruct (Hs i k0 b0 E) as [-> Hb].
  split; [reflexivity|].
  repeat case_bool_decide; naive_solver.
Qed.

Lemma deselect_all_sync (plot : OWLinePlot F -> option (OWLinePlot F)) w w' :
  plot_pending w = false -> flags_in_sync w ->
  deselect_all_with plot w = Some w' -> flags_in_sync w'.
Proof.
  intros Hp Hs H.
  destruct (deselect_all_facts _ _ _ Hp H) as (_ & Hg & _ & _ & Hv).
  intros i k b Hl. rewrite Hv in Hl. rewrite Hg.
  destruct (selected_view (_items (graph w)) !! i) as [[k0 b0]|] eqn:E;
    simpl in Hl; [|discriminate].
  injection Hl as <- <-. destruct (Hs i k0 b0 E) as [-> Hb].
  split; [reflexivity|].
  case_bool_decide; set_solver.
Qed.

(** *** [_plot_profiles] *)

Lemma add_items_view (l : list (LinePlotItem F)) (g : LinePlotGraph F)
  (i k : nat) (b : bool) :
  (forall it, it ∈ l -> _selected it = false) ->
  selected_view
    (_items (foldl (fun g it => add_line_plot_item it g) g l)) !! i
  = Some (k, b) ->
  selected_view (_items g) !! i = Some (k, b) \/ (k = i /\ b = false).
Proof.
  revert g. induction l as [|it l IH]; intros g Hl; simpl.
  - intros H. left. exact H.
  - intros H. apply IH in H; [|intros it' Hit'; apply Hl; now right].
    destruct H as [H|H]; [|right; exact H].
    unfold selected_view in H. simpl in H. rewrite lookup_fmap in H.
    destruct (decide (i = index it)) as [->|Hne].
    + rewrite lookup_insert_eq in H. simpl in H. injection H as <- <-.
      right. split; [reflexivity|]. apply Hl. left.
    + rewrite lookup_insert_ne in H by congruence. left.
      unfold selected_view. now rewrite lookup_fmap.
Qed.

Lemma plot_profiles_sync w w' :
  graph_selection (graph w) = ∅ -> flags_in_sync w ->
  _plot_profiles w = Some w' -> flags_in_sync w'.
Proof.
  intros Hsel Hs. unfold _plot_profiles.
  destruct (data w) as [t|] eqn:Hdata; simpl; [|discriminate].
  set (items := imap _ (rows t)).
  set (g1 := foldl _ (graph w) items).
  set (w1 := with_profiles _ (with_graph g1 w)).
  assert (Hg1 : graph_selection g1 = ∅).
  { destruct (add_items_dom items (graph w)) as [_ E]. fold g1 in E.
    now rewrite E. }
  assert (Hw1 : flags_in_sync w1).
  { intros i k b Hl. change (graph_selection (graph w1))
      with (graph_selection g1). rewrite Hg1.
    apply add_items_view in Hl.
    - destruct Hl as [Hl|[-> ->]].
      + destruct (Hs i k b Hl) as [-> Hb]. split; [reflexivity|].
        now rewrite <- Hsel.
      + split; [reflexivity|]. set_solver.
    - intros it Hit. unfold items in Hit.
      apply elem_of_lookup_imap in Hit as (j & r & -> & _). reflexivity. }
  unfold __select_data_instances_with.
  change (data w1) with (data w). rewrite Hdata.
  destruct ((length (rows t) =? 0) || negb (has_selection w1)).
  - now intros [= <-].
  - intros H. apply select_sync in H; [exact H| |].
    + apply profiles_plotted_not_pending.
      destruct (length (rows t) <=? _); discriminate.
    + destruct (length (rows t) <=? _); exact Hw1.
Qed.

(** *** [__update_visibility] *)

Lemma update_visibility_groups_view w :
  selection_view (__update_visibility_groups w) = selection_view w.
Proof. reflexivity. Qed.

Lemma update_visibility_sync w w' :
  (__profiles w = None -> graph_selection (graph w) = ∅) ->
  flags_in_sync w ->
  __update_visibility w = Some w' -> flags_in_sync w'.
Proof.
  intros Hnone Hs. unfold __update_visibility.
  destruct (plot_pending w) eqn:Hp.
  - unfold __update_visibility_with, __update_visibility_profiles_with.
    rewrite Hp. simpl.
    destruct (_plot_profiles w) as [w1|] eqn:E1; simpl; [|discriminate].
    destruct (select_subset (subset_selection w1) w1) as [w2|] eqn:E2;
      simpl; [|discriminate].
    intros [= <-].
    apply (flags_in_sync_view w1).
    + rewrite update_visibility_groups_view, show_profiles_view.
      exact (select_subset_view _ _ _ E2).
    + apply (plot_profiles_sync w); [|exact Hs|exact E1].
      apply Hnone. unfold plot_pending in Hp.
      apply andb_prop in Hp as [Hp _]. apply andb_prop in Hp as [Hp _].
      now apply bool_decide_eq_true in Hp.
  - rewrite update_visibility_not_pending by exact Hp. intros [= <-].
    apply (flags_in_sync_view w); [|exact Hs].
    now rewrite update_visibility_groups_view, show_profiles_view.
Qed.

Lemma consistent_unplotted w :
  consistent w -> __profiles w = None -> graph_selection (graph w) = ∅.
Proof.
  intros ((Ha & _) & Hd) Hp. specialize (Hd Hp). rewrite Hd in Ha.
  set_solver.
Qed.

(** *** The events *)

Lemma step_sync (o : Op F) w w' :
  consistent w -> flags_in_sync w -> step o w = Some w' -> flags_in_sync w'.
Proof.
  intros Hw Hs.
  pose proof Hw as ((Ha & Hb & Hc) & Hd).
  pose proof (consistent_unplotted w Hw) as Hu.
  destruct o as [keys button|keys button fin p1 p2|d|b|v|s|subset| |]; simpl.
  - unfold mouseClickEvent.
    destruct button;
      [apply (deselect_all_sync _ (with_keyboardModifiers keys w) _ Hb Hs)
      |now intros [= <-]
      |apply (deselect_all_sync _ (with_keyboardModifiers keys w) _ Hb Hs)].
  - unfold mouseDragEvent. simpl.
    destruct (state (graph w)), button, fin; try (now intros [= <-]).
    unfold select_by_line.
    apply (select_sync _ _ (with_keyboardModifiers keys w) _ Hb Hs).
  - unfold display_index_changed.
    apply (update_visibility_sync (with_display_index d w) w' Hu Hs).
  - unfold display_quartiles_changed.
    apply (update_visibility_sync (with_display_quartiles b w) w' Hu Hs).
  - unfold __group_var_changed.
    destruct (bool_decide _ || _); [now intros [= <-]|].
    destruct (_plot_groups (with_group_var v w)) as [w1|] eqn:E; simpl;
      [|discriminate].
    pose proof (plot_groups_core _ _ E) as Hcore.
    apply plot_groups_view in E.
    unfold core in Hcore. simpl in Hcore.
    injection Hcore as _ Hprof _ Hsel _.
    apply update_visibility_sync.
    + rewrite Hprof, Hsel. exact Hu.
    + exact (flags_in_sync_view w w1 E Hs).
  - now intros [= <-].
  - intros [= <-]. apply (flags_in_sync_view w); [|exact Hs].
    apply set_data_subset_view.
  - unfold handleNewSignals.
    set (w0 := with_subset_selection ∅ w).
    destruct (match data w0, data_subset w0 with
              | Some t, Some s0 => _
              | _, _ => _
              end) as [w1|] eqn:E; simpl; [|discriminate].
    assert (Hboth : core w1 = core w /\ selection_view w1 = selection_view w).
    { destruct (data w0) as [t|]; [|now injection E as <-].
      destruct (data_subset w0) as [s0|]; [|now injection E as <-].
      destruct (has_subset w0 && _); [|now injection E as <-].
      destruct (bool_decide _); [|now injection E as <-].
      split; [now apply select_subset_core in E
             |now apply select_subset_view in E]. }
    destruct Hboth as [Hcore Hview].
    pose proof (flags_in_sync_view w w1 Hview Hs) as Hs1.
    destruct (data w1); [|now intros [= <-]].
    apply update_visibility_sync; [|exact Hs1].
    unfold core in Hcore. injection Hcore as _ Hprof _ Hsel _.
    rewrite Hprof, Hsel. exact Hu.
  - intros H. apply commit_view in H. exact (flags_in_sync_view w w' H Hs).
Qed.

Lemma select_by_click_sync (i : nat) w w' :
  consistent w -> flags_in_sync w ->
  select_by_click i w = Some w' -> flags_in_sync w'.
Proof.
  intros ((_ & Hb & _) & _) Hs. unfold select_by_click.
  destruct (_items (graph w) !! i) as [it|]; simpl; [|discriminate].
  now apply select_sync.
Qed.

Lemma empty_graph_sync w :
  _items (graph w) = ∅ -> flags_in_sync w.
Proof.
  intros H i k b. unfold selected_view. rewrite H, fmap_empty, lookup_empty.
  discriminate.
Qed.

Lemma setup_plot_sync w w' :
  _items (graph w) = ∅ -> graph_selection (graph w) = ∅ ->
  _setup_plot w = Some w' -> flags_in_sync w'.
Proof.
  intros Hi Hsel. pose proof (empty_graph_sync w Hi) as Hs.
  unfold _setup_plot.
  destruct (data w) as [t|] eqn:Edata; [|now intros [= <-]].
  destruct (show_inst (display_index w)).
  - destruct (_plot_profiles w) as [w2|] eqn:E2; simpl; [|discriminate].
    pose proof (plot_profiles_sync w w2 Hsel Hs E2) as Hs2.
    apply (plot_profiles_consistent w w2 t Edata) in E2 as (_ & _ & _ & Hp2);
      [|rewrite Hi; apply dom_empty_L|exact Hsel].
    destruct (_plot_groups w2) as [w3|] eqn:E3; simpl; [|discriminate].
    pose proof (plot_groups_core _ _ E3) as Hcore.
    apply plot_groups_view in E3.
    unfold core in Hcore. injection Hcore as _ Hprof _ _ _.
    apply update_visibility_sync.
    + rewrite Hprof. intros Hn. now destruct Hp2.
    + exact (flags_in_sync_view w2 w3 E3 Hs2).
  - simpl.
    destruct (_plot_groups w) as [w3|] eqn:E3; simpl; [|discriminate].
    pose proof (plot_groups_core _ _ E3) as Hcore.
    apply plot_groups_view in E3.
    unfold core in Hcore. injection Hcore as _ _ _ Hsel3 _.
    apply update_visibility_sync.
    + intros _. now rewrite Hsel3.
    + exact (flags_in_sync_view w w3 E3 Hs).
Qed.

Lemma set_data_sync (restored : option ContextValues)
  (d : option (Table F)) w w' :
  set_data restored d w = Some w' -> flags_in_sync w'.
Proof.
  unfold set_data.
  destruct (set_data_until_commit restored d w) as [w1|] eqn:E; simpl;
    [|discriminate].
  intros Hc. apply commit_view in Hc.
  apply (flags_in_sync_view w1); [exact Hc|]. clear Hc w'.
  unfold set_data_until_commit in E.
  destruct d as [t|].
  - simpl in E.
    destruct (length (continuous_attributes (domain t)) <? 1).
    + injection E as <-. now apply empty_graph_sync.
    + apply setup_plot_sync in E; [exact E| |];
        destruct restored; reflexivity.
  - apply setup_plot_sync in E; [exact E| |]; reflexivity.
Qed.

Lemma reachable_synced w : reachable w -> consistent w /\ flags_in_sync w.
Proof.
  intros H. split; [now apply reachable_consistent|].
  induction H as [d q|restored d w w' _ _ H|o w w' Hr IH H
                 |keys i w w' Hr IH H].
  - now apply empty_graph_sync.
  - exact (set_data_sync _ _ _ _ H).
  - exact (step_sync _ _ _ (reachable_consistent _ Hr) IH H).
  - exact (select_by_click_sync _ (with_keyboardModifiers keys w) _
             (reachable_consistent _ Hr) IH H).
Qed.

End Sync.
End SyncFacts.

(* ===================================================================== *)
(** ** The selection of the widget stays within the data *)

Module RangeFacts.
Import Widget WidgetFacts WidgetViews WidgetInvariant CycleFacts SyncFacts.
Import LoadFacts.

#[local] Set Warnings "-clear-no-such-hyp".

Section Range.
Context {F : Type} {N : Number F} {SI : SetIteration}.
Implicit Types (w : OWLinePlot F) (items : gmap nat (LinePlotItem F)).

Lemma listed_in_range w : settled w -> listed w -> selection_in_range w.
Proof.
  intros (Ha & _ & Hc) Hl t Ht i Hi. apply (Hc t Ht), Ha, Hl, Hi.
Qed.

Lemma kept_in_range w w' :
  kept w w' -> selection_in_range w -> selection_in_range w'.
Proof.
  intros (Hd & Hs & _) H t Ht i Hi. rewrite Hd in Ht. rewrite Hs in Hi.
  exact (H t Ht i Hi).
Qed.

Lemma kept_listed w w' : kept w w' -> listed w -> listed w'.
Proof.
  intros (_ & Hs & Hg) H i Hi. rewrite Hg. rewrite Hs in Hi. now apply H.
Qed.

Lemma kept_trans w1 w2 w3 : kept w1 w2 -> kept w2 w3 -> kept w1 w3.
Proof.
  intros (A1 & A2 & A3) (B1 & B2 & B3).
  repeat split; congruence.
Qed.

Lemma commit_kept w w' : commit w = Some w' -> kept w w'.
Proof. intros H. apply commit_shape in H as (o & ->). now repeat split. Qed.

Lemma show_profiles_kept w : kept w (show_profiles w).
Proof.
  destruct (show_profiles_shape w) as (items' & -> & _). now repeat split.
Qed.

Lemma plot_groups_kept w w' : _plot_groups w = Some w' -> kept w w'.
Proof.
  intros H. apply plot_groups_shape in H as (gs & ->). now repeat split.
Qed.

Lemma select_subset_kept (ids : gset nat) w w' :
  select_subset ids w = Some w' -> kept w w'.
Proof.
  unfold select_subset.
  destruct (for_each _ _ _) as [items|]; simpl; [|discriminate].
  intros [= <-]. now repeat split.
Qed.

Lemma set_data_subset_kept subset w : kept w (set_data_subset subset w).
Proof.
  unfold set_data_subset. destruct (bool_decide _); now repeat split.
Qed.

Lemma visibility_kept w : kept w (__update_visibility_groups (show_profiles w)).
Proof.
  apply (kept_trans _ (show_profiles w)); [apply show_profiles_kept|].
  now repeat split.
Qed.

Lemma select_listed (plot : OWLinePlot F -> option (OWLinePlot F))
  (c : list nat) w w' :
  plot_pending w = false -> select_with plot c w = Some w' -> listed w'.
Proof.
  intros Hp H. destruct (select_facts _ _ _ _ Hp H) as (_ & Hg & Hs & _).
  intros i Hi. rewrite Hg. rewrite Hs in Hi. now apply elem_of_list_of_set.
Qed.

Lemma deselect_all_listed (plot : OWLinePlot F -> option (OWLinePlot F))
  w w' :
  plot_pending w = false -> deselect_all_with plot w = Some w' -> listed w'.
Proof.
  intros Hp H. destruct (deselect_all_facts _ _ _ Hp H) as (_ & _ & Hs & _).
  intros i Hi. rewrite Hs in Hi. inversion Hi.
Qed.

Lemma plot_profiles_range w w' :
  graph_selection (graph w) = ∅ ->
  _plot_profiles w = Some w' -> kept w w' \/ listed w'.
Proof.
  intros Hsel. unfold _plot_profiles.
  destruct (data w) as [t|] eqn:Hdata; simpl; [|discriminate].
  set (items := imap _ (rows t)).
  set (g1 := foldl _ (graph w) items).
  set (w1 := with_profiles _ (with_graph g1 w)).
  unfold __select_data_instances_with.
  change (data w1) with (data w). rewrite Hdata.
  destruct ((length (rows t) =? 0) || negb (has_selection w1)).
  - intros [= <-]. left. split; [reflexivity|]. split; [reflexivity|].
    destruct (add_items_dom items (graph w)) as [_ E]. exact E.
  - intros H. right. apply select_listed in H; [exact H|].
    apply profiles_plotted_not_pending.
    destruct (length (rows t) <=? _); discriminate.
Qed.

Lemma update_visibility_range w w' :
  (__profiles w = None -> graph_selection (graph w) = ∅) ->
  __update_visibility w = Some w' -> kept w w' \/ listed w'.
Proof.
  intros Hnone. unfold __update_visibility.
  destruct (plot_pending w) eqn:Hp.
  - unfold __update_visibility_with, __update_visibility_profiles_with.
    rewrite Hp. simpl.
    destruct (_plot_profiles w) as [w1|] eqn:E1; simpl; [|discriminate].
    destruct (select_subset (subset_selection w1) w1) as [w2|] eqn:E2;
      simpl; [|discriminate].
    intros [= <-].
    assert (K : kept w1 (__update_visibility_groups (show_profiles w2))).
    { apply (kept_trans _ w2); [now apply select_subset_kept in E2|].
      apply visibility_kept. }
    apply plot_profiles_range in E1.
    + destruct E1 as [E1|E1].
      * left. exact (kept_trans _ _ _ E1 K).
      * right. exact (kept_listed _ _ K E1).
    + apply Hnone. unfold plot_pending in Hp.
      apply andb_prop in Hp as [Hp _]. apply andb_prop in Hp as [Hp _].
      now apply bool_decide_eq_true in Hp.
  - rewrite update_visibility_not_pending by exact Hp. intros [= <-].
    left. apply visibility_kept.
Qed.

Lemma step_range (o : Op F) w w' :
  consistent w -> step o w = Some w' -> kept w w' \/ listed w'.
Proof.
  intros Hw.
  pose proof Hw as ((Ha & Hb & Hc) & Hd).
  pose proof (consistent_unplotted w Hw) as Hu.
  destruct o as [keys button|keys button fin p1 p2|d|b|v|s|subset| |]; simpl.
  - unfold mouseClickEvent.
    destruct button; try (intros [= <-]; left; now repeat split);
      intros H; right;
      exact (deselect_all_listed _ (with_keyboardModifiers keys w) _ Hb H).
  - unfold mouseDragEvent. simpl.
    destruct (state (graph w)), button, fin;
      try (intros [= <-]; left; now repeat split).
    unfold select_by_line. intros H. right.
    exact (select_listed _ _ (with_keyboardModifiers keys w) _ Hb H).
  - unfold display_index_changed.
    apply (update_visibility_range (with_display_index d w) w' Hu).
  - unfold display_quartiles_changed.
    apply (update_visibility_range (with_display_quartiles b w) w' Hu).
  - unfold __group_var_changed.
    destruct (bool_decide _ || _); [intros [= <-]; left; now repeat split|].
    destruct (_plot_groups (with_group_var v w)) as [w1|] eqn:E; simpl;
      [|discriminate].
    pose proof (plot_groups_core _ _ E) as Hcore.
    apply plot_groups_kept in E.
    unfold core in Hcore. simpl in Hcore.
    injection Hcore as _ Hprof _ Hsel _.
    intros H. apply update_visibility_range in H.
    + destruct H as [H|H]; [left|right; exact H].
      exact (kept_trans (with_group_var v w) _ _ E H).
    + rewrite Hprof, Hsel. exact Hu.
  - intros [= <-]. left. now repeat split.
  - intros [= <-]. left. apply set_data_subset_kept.
  - unfold handleNewSignals.
    set (w0 := with_subset_selection ∅ w).
    destruct (match data w0, data_subset w0 with
              | Some t, Some s0 => _
              | _, _ => _
              end) as [w1|] eqn:E; simpl; [|discriminate].
    assert (Hboth : core w1 = core w /\ kept w w1).
    { destruct (data w0) as [t|];
        [|injection E as <-; split; [reflexivity | now repeat split]].
      destruct (data_subset w0) as [s0|];
        [|injection E as <-; split; [reflexivity | now repeat split]].
      destruct (has_subset w0 && _);
        [|injection E as <-; split; [reflexivity | now repeat split]].
      destruct (bool_decide _);
        [|injection E as <-; split; [reflexivity | now repeat split]].
      split; [now apply select_subset_core in E|].
      apply select_subset_kept in E. exact E. }
    destruct Hboth as [Hcore K].
    destruct (data w1); [|intros [= <-]; left; exact K].
    intros H. apply update_visibility_range in H.
    + destruct H as [H|H]; [left|right; exact H].
      exact (kept_trans _ _ _ K H).
    + unfold core in Hcore. injection Hcore as _ Hprof _ Hsel _.
      rewrite Hprof, Hsel. exact Hu.
  - intros H. left. now apply commit_kept.
Qed.

End Range.
End RangeFacts.

(* ===================================================================== *)
(** ** What holds in every state the widget reaches *)

Module EventFacts.
Import Widget WidgetFacts WidgetViews WidgetInvariant CycleFacts SyncFacts.
Import RangeFacts.

#[local] Set Warnings "-clear-no-such-hyp".

Section Events.
Context {F : Type} {N : Number F} {SI : SetIteration}.
Implicit Types (w : OWLinePlot F) (items : gmap nat (LinePlotItem F)).

Lemma synced_index_is_key w (k : nat) (it : LinePlotItem F) :
  flags_in_sync w -> _items (graph w) !! k = Some it -> index it = k.
Proof.
  intros Hs Hk.
  destruct (Hs k (index it) (_selected it)) as [E _]; [|exact E].
  unfold selected_view. now rewrite lookup_fmap, Hk.
Qed.

(** The indices a lasso collects are keys of the plotted items. *)
Lemma hits_are_items (hit : LinePlotItem F -> bool) w (i : nat) :
  flags_in_sync w ->
  i ∈ omap (fun entry : nat * LinePlotItem F =>
              if hit entry.2 then Some (index entry.2) else None)
        (map_to_list (_items (graph w))) ->
  i ∈ dom (_items (graph w)).
Proof.
  intros Hs Hi. apply list_elem_of_omap in Hi as ([k it] & Hin & Hhit).
  apply elem_of_map_to_list in Hin. simpl in Hhit.
  destruct (hit it); [|discriminate]. injection Hhit as <-.
  rewrite (synced_index_is_key w k it Hs Hin). now apply elem_of_dom_2 in Hin.
Qed.

(** X11: in every state the widget reaches, each plotted item is stored
    under its own index, the selection of the graph holds exactly the
    indices of the items flagged as selected, and every item stands for a
    row of the data. *)
Theorem reachable_selection_is_flagged w :
  reachable w ->
  (forall i it, _items (graph w) !! i = Some it -> index it = i) /\
  (forall i, i ∈ graph_selection (graph w) <->
             exists it, _items (graph w) !! i = Some it /\
                        _selected it = true) /\
  (forall i t, i ∈ dom (_items (graph w)) -> data w = Some t ->
               i < length (rows t)).
Proof.
  intros H. destruct (reachable_synced w H) as [[(Ha & _ & Hc) _] Hs].
  split; [intros i it; now apply synced_index_is_key|].
  split; [|intros i t Hi Ht; exact (Hc t Ht i Hi)].
  intros i. split.
  - intros Hi. pose proof (Ha i Hi) as Hdom.
    apply elem_of_dom in Hdom as [it Hit]. exists it. split; [exact Hit|].
    destruct (Hs i (index it) (_selected it)) as [_ Hb];
      [unfold selected_view; now rewrite lookup_fmap, Hit|].
    now apply Hb.
  - intros (it & Hit & Hsel).
    destruct (Hs i (index it) (_selected it)) as [_ Hb];
      [unfold selected_view; now rewrite lookup_fmap, Hit|].
    now apply Hb.
Qed.

(** X12: the events never take the selection out of the data: from a
    consistent state whose selection lists only rows of the data, every
    event of the view, of the controls or of the subset input that
    completes, and every click on a profile that completes, leaves a
    selection that lists only rows of the data, and [commit] then sends
    its two outputs without raising. *)
Theorem events_keep_selection_in_range (o : Op F) (keys : Z) (i : nat)
  w w' :
  consistent w -> selection_in_range w ->
  step o w = Some w' \/
  select_by_click i (with_keyboardModifiers keys w) = Some w' ->
  selection_in_range w' /\
  exists out, commit w' = Some (with_outputs (out :: outputs w') w').
Proof.
  intros Hw Hr Hrun.
  assert (Hr' : selection_in_range w').
  { destruct Hrun as [H|H].
    - pose proof (step_consistent _ _ _ Hw H) as [Hw' _].
      destruct (step_range _ _ _ Hw H) as [K|L].
      + exact (kept_in_range _ _ K Hr).
      + exact (listed_in_range _ Hw' L).
    - pose proof (select_by_click_consistent _ (with_keyboardModifiers keys w)
                    _ Hw H) as [Hw' _].
      apply (listed_in_range _ Hw').
      unfold select_by_click in H.
      destruct (_items (graph (with_keyboardModifiers keys w)) !! i)
        as [it|]; simpl in H; [|discriminate].
      apply select_listed in H; [exact H|].
      destruct Hw as ((_ & Hb & _) & _). exact Hb. }
  split; [exact Hr'|].
  destruct (data w') as [t|] eqn:Hd.
  - destruct (commit_in_range w' t Hd (Hr' t Hd)) as (selected & -> & _).
    eauto.
  - rewrite (commit_no_data w' Hd). eauto.
Qed.

(** X13: in every state the widget reaches, a click on the view, a drag over
    it and a click on a plotted profile go through without raising, whatever
    keys are held. *)
Theorem gestures_never_raise w (keys : Z) (button : MouseButton)
  (isFinish : bool) (p1 p2 : Geometry.point F) :
  reachable w ->
  is_Some (mouseClickEvent keys button w) /\
  is_Some (mouseDragEvent keys button isFinish p1 p2 w) /\
  forall i, i ∈ dom (_items (graph w)) ->
            is_Some (select_by_click i (with_keyboardModifiers keys w)).
Proof.
  intros H. destruct (reachable_synced w H) as [[Hset _] Hs].
  assert (Hset' : settled (with_keyboardModifiers keys w)) by exact Hset.
  assert (Hs' : flags_in_sync (with_keyboardModifiers keys w)) by exact Hs.
  split; [|split].
  - unfold mouseClickEvent.
    destruct button; try (eexists; reflexivity);
      destruct (deselect_all_settled _plot_profiles _ Hset')
        as (w' & o & E & _); exists w'; exact E.
  - unfold mouseDragEvent. simpl.
    destruct (state (graph w)), button, isFinish;
      try (eexists; reflexivity).
    unfold select_by_line.
    match goal with
    | |- is_Some (select ?c _) =>
        destruct (select_settled _plot_profiles
                    (with_keyboardModifiers keys w) c Hset')
          as (w' & o & E & _)
    end.
    + intros i Hi.
      exact (hits_are_items
               (fun it => Geometry.line_segments_line_intersect p1 p2
                            (xData it) (yData it)) _ i Hs' Hi).
    + exists w'. exact E.
  - intros i Hi. apply elem_of_dom in Hi as [it Hit].
    unfold select_by_click. simpl. rewrite Hit. simpl.
    destruct (select_settled _plot_profiles
                (with_keyboardModifiers keys w) [index it] Hset')
      as (w' & o & E & _).
    + intros j Hj. apply list_elem_of_singleton in Hj as ->.
      rewrite (synced_index_is_key w i it Hs Hit).
      now apply elem_of_dom_2 in Hit.
    + exists w'. exact E.
Qed.

(** X5: a lasso of no length hits no profile: it selects like the empty list
    of indices. *)
Theorem zero_length_lasso (p : Geometry.point F) w :
  select_by_line p p w = select [] w.
Proof.
  unfold select_by_line. f_equal.
  induction (map_to_list (_items (graph w))) as [|[k it] l IH];
    [reflexivity|].
  simpl. now rewrite KernelFacts.zero_length_line_hits_no_polyline.
Qed.

(** X15: with none of ctrl, alt and shift held, selecting no index is
    [deselect_all]. *)
Theorem empty_lasso_is_click w :
  has_modifier (keyboardModifiers w) ControlModifier = false ->
  has_modifier (keyboardModifiers w) AltModifier = false ->
  has_modifier (keyboardModifiers w) ShiftModifier = false ->
  select [] w = deselect_all w.
Proof.
  intros Hc Ha Hsh. unfold select, deselect_all, select_with, deselect_all_with.
  destruct (for_each (item_call item_deselect) _ _) as [items1|]; simpl;
    [|reflexivity].
  unfold updated_selection. rewrite Hc, Ha, Hsh. simpl.
  rewrite list_of_set_empty. reflexivity.
Qed.

Lemma select_dom (plot : OWLinePlot F -> option (OWLinePlot F))
  (c : list nat) w w' :
  plot_pending w = false -> select_with plot c w = Some w' ->
  dom (_items (graph w')) = dom (_items (graph w)).
Proof.
  intros Hp H. destruct (select_facts _ _ _ _ Hp H) as (_ & _ & _ & _ & Hv).
  apply set_eq. intros i. rewrite !elem_of_dom.
  specialize (Hv i). unfold selected_view in Hv. rewrite !lookup_fmap in Hv.
  destruct (_items (graph w') !! i), (_items (graph w) !! i);
    simpl in Hv; try discriminate; split; intros [? ?]; eauto; discriminate.
Qed.

Lemma symmetric_difference_twice (s c : gset nat) :
  symmetric_difference (symmetric_difference s c) c = s.
Proof.
  unfold symmetric_difference. apply set_eq. intros i. set_unfold.
  destruct (decide (i ∈ s)), (decide (i ∈ c)); tauto.
Qed.

(** X16: with ctrl held, the same lasso drawn twice gives the selection
    back: both calls go through, and the second leaves the selection of the
    graph, and the widget's list of it, as they were before the first. *)
Theorem ctrl_lasso_twice w (c : list nat) :
  settled w ->
  (forall i, i ∈ c -> i ∈ dom (_items (graph w))) ->
  has_modifier (keyboardModifiers w) ControlModifier = true ->
  exists w1 w2,
    select c w = Some w1 /\ select c w1 = Some w2 /\
    graph_selection (graph w2) = graph_selection (graph w) /\
    selection w2 = list_of_set (graph_selection (graph w)).
Proof.
  intros Hset Hc Hctrl.
  destruct (select_settled _plot_profiles w c Hset Hc)
    as (w1 & o1 & E1 & Hg1 & _ & _ & Hset1).
  pose proof (proj1 (proj2 Hset)) as Hp.
  destruct (select_facts _ _ _ _ Hp E1) as (Hsv & _).
  assert (Hk : keyboardModifiers w1 = keyboardModifiers w).
  { unfold settings_view in Hsv. now injection Hsv. }
  pose proof (select_dom _ _ _ _ Hp E1) as Hdom.
  destruct (select_settled _plot_profiles w1 c Hset1)
    as (w2 & o2 & E2 & Hg2 & Hs2 & _).
  { intros i Hi. rewrite Hdom. now apply Hc. }
  exists w1, w2. split; [exact E1|]. split; [exact E2|].
  assert (Hback : graph_selection (graph w2) = graph_selection (graph w)).
  { rewrite Hg2, Hg1, Hk. unfold updated_selection. rewrite Hctrl.
    apply symmetric_difference_twice. }
  split; [exact Hback|]. now rewrite Hs2, Hback.
Qed.

(** X17: without data on the input [set_data] empties the widget and sends
    [None] on both outputs, whatever the widget held. *)
Theorem set_data_none (restored : option ContextValues) w :
  exists w',
    set_data restored None w = Some w' /\
    data w' = None /\ selection w' = [] /\ graph_variables w' = [] /\
    __profiles w' = None /\ __groups w' = None /\ graph w' = graph_init /\
    outputs w' = (None, None) :: outputs w.
Proof. eexists. split; [reflexivity|]. now repeat split. Qed.

End Events.

Section TwoOrders.
Context {F : Type} {N : Number F} (SI1 SI2 : SetIteration).

(** X14: [select] reads its argument as a set: for two lists of plotted
    indices with the same members, in whatever order Python lists its sets
    in the one run and in the other, both calls go through and leave the
    same selection on the graph and the same flags on the items; the
    widget's two selection lists have the same members, in an order that
    may differ. *)
Theorem select_reads_indices_as_set (c c' : list nat) (w : OWLinePlot F) :
  list_to_set c =@{gset nat} list_to_set c' ->
  settled w ->
  (forall i, i ∈ c -> i ∈ dom (_items (graph w))) ->
  exists w1 w2,
    select (SI := SI1) c w = Some w1 /\
    select (SI := SI2) c' w = Some w2 /\
    graph_selection (graph w2) = graph_selection (graph w1) /\
    selected_view (_items (graph w2)) = selected_view (_items (graph w1)) /\
    selection w2 ≡ₚ selection w1.
Proof.
  intros Hset Hw Hc.
  assert (Hc' : forall i, i ∈ c' -> i ∈ dom (_items (graph w))).
  { intros i Hi. apply Hc.
    apply (elem_of_list_to_set (C := gset nat)). rewrite Hset.
    now apply elem_of_list_to_set. }
  pose proof (proj1 (proj2 Hw)) as Hp.
  destruct (select_settled (SI := SI1) (_plot_profiles (SI := SI1)) w c
              Hw Hc) as (w1 & o1 & E1 & Hg1 & Hs1 & _).
  destruct (select_settled (SI := SI2) (_plot_profiles (SI := SI2)) w c'
              Hw Hc') as (w2 & o2 & E2 & Hg2 & Hs2 & _).
  assert (Hnew : updated_selection (keyboardModifiers w)
                   (graph_selection (graph w)) c' =
                 updated_selection (keyboardModifiers w)
                   (graph_selection (graph w)) c)
    by (unfold updated_selection; now rewrite Hset).
  assert (Hg : graph_selection (graph w2) = graph_selection (graph w1))
    by (rewrite Hg2, Hg1; exact Hnew).
  exists w1, w2. split; [exact E1|]. split; [exact E2|].
  split; [exact Hg|]. split.
  - destruct (select_facts (SI := SI1) _ _ _ _ Hp E1)
      as (_ & _ & _ & _ & Hv1).
    destruct (select_facts (SI := SI2) _ _ _ _ Hp E2)
      as (_ & _ & _ & _ & Hv2).
    apply map_eq. intros i. rewrite Hv1, Hv2, Hnew. reflexivity.
  - rewrite Hs1, Hs2, Hg. apply NoDup_Permutation.
    + apply list_of_set_NoDup.
    + apply list_of_set_NoDup.
    + intros i. now rewrite !elem_of_list_of_set.
Qed.

End TwoOrders.
End EventFacts.

(* ===================================================================== *)
(** ** Loading a table *)

Module LoadingFacts.
Import Numpy Widget WidgetFacts WidgetViews WidgetInvariant CycleFacts.
Import AggregateFacts.
Import SyncFacts RangeFacts LoadFacts EventFacts.

#[local] Set Warnings "-clear-no-such-hyp".

Section Loading.
Context {F : Type} {N : Number F} {SI : SetIteration}.
Implicit Types (w : OWLinePlot F) (items : gmap nat (LinePlotItem F))
  (t : Table F).

(** *** [_plot_groups] *)

Lemma table_X_rows (gv : list nat) (rs : list (Row F)) :
  rs <> [] -> table_X gv rs <> [].
Proof. destruct rs; [congruence | discriminate]. Qed.

Lemma plot_groups_total w t :
  data w = Some t -> (group_var w = None -> rows t <> []) ->
  is_Some (_plot_groups w).
Proof.
  intros Hd Hr. unfold _plot_groups. rewrite Hd. simpl.
  destruct (group_var w) as [v|].
  - match goal with
    | |- is_Some (mbind _ (mapM ?f ?l)) =>
        assert (Hall : is_Some (mapM f l))
    end.
    { apply mapM_is_Some, Forall_forall. intros i _. simpl.
      destruct (List.filter _ (rows t)) as [|r rs] eqn:E; [eauto|].
      destruct (plot_group_total
                  (arange1 (length (graph_variables w)))
                  (table_X (graph_variables w) (r :: rs))) as [g Hg];
        [discriminate|].
      rewrite Hg. simpl. eauto. }
    destruct Hall as [gs ->]. simpl. eauto.
  - destruct (plot_group_total
                (arange1 (length (graph_variables w)))
                (table_X (graph_variables w) (rows t))) as [g Hg];
      [apply table_X_rows, Hr; reflexivity|].
    rewrite Hg. simpl. eauto.
Qed.

Lemma plot_groups_no_rows w t :
  data w = Some t -> group_var w = None -> rows t = [] ->
  _plot_groups w = None.
Proof.
  intros Hd Hg Hr. unfold _plot_groups. rewrite Hd. simpl.
  rewrite Hg, Hr. reflexivity.
Qed.

(** *** [_plot_profiles] *)

Lemma add_items_by_id (l : list (LinePlotItem F)) (g : LinePlotGraph F) :
  let g' := foldl (fun g it => add_line_plot_item it g) g l in
  dom (_items_by_id g') =
    dom (_items_by_id g) ∪ list_to_set (instance_id <$> l) /\
  ((forall x idx, _items_by_id g !! x = Some idx -> idx ∈ dom (_items g)) ->
   forall x idx, _items_by_id g' !! x = Some idx -> idx ∈ dom (_items g')).
Proof.
  revert g. induction l as [|it l IH]; intros g; simpl.
  - split; [set_solver | auto].
  - destruct (IH (add_line_plot_item it g)) as [Hdom Hval].
    split.
    + rewrite Hdom. simpl. rewrite dom_insert_L. set_solver.
    + intros Hg. apply Hval. simpl. intros x idx.
      rewrite dom_insert_L.
      destruct (decide (x = instance_id it)) as [->|Hne].
      * rewrite lookup_insert_eq. intros [= <-]. set_solver.
      * rewrite lookup_insert_ne by congruence. intros H.
        apply Hg in H. set_solver.
Qed.

Lemma new_items_ids (f : nat -> Row F -> LinePlotItem F) (rs : list (Row F)) :
  (forall i r, instance_id (f i r) = row_id r) ->
  instance_id <$> imap f rs = row_id <$> rs.
Proof.
  revert f. induction rs as [|r rs IH]; intros f Hf; simpl; [reflexivity|].
  rewrite Hf. f_equal. apply IH. intros i r'. apply Hf.
Qed.

Lemma foldr_max_ge (l : list nat) (i : nat) :
  i ∈ l -> i <= foldr Nat.max 0 l.
Proof.
  induction l as [|a l IH]; intros Hi; [inversion Hi|].
  apply elem_of_cons in Hi as [->|Hi]; simpl; [lia|].
  specialize (IH Hi). lia.
Qed.

(** On a graph without items [_plot_profiles] goes through when the table
    has a row, and leaves one item for each row. *)
Lemma plot_profiles_outcome w t :
  data w = Some t -> rows t <> [] ->
  _items (graph w) = ∅ -> _items_by_id (graph w) = ∅ ->
  graph_selection (graph w) = ∅ ->
  exists w',
    _plot_profiles w = Some w' /\ consistent w' /\ __profiles w' <> None /\
    data w' = Some t /\ display_index w' = display_index w /\
    group_var w' = group_var w /\
    subset_selection w' = subset_selection w /\
    selection_in_range w' /\
    dom (_items_by_id (graph w')) = list_to_set (row_id <$> rows t) /\
    (forall x idx, _items_by_id (graph w') !! x = Some idx ->
                   idx ∈ dom (_items (graph w'))) /\
    ((exists i, i ∈ selection w /\ length (rows t) <= i) ->
     selection w' = [] /\ graph_selection (graph w') = ∅).
Proof.
  intros Hdata Hrows Hitems Hbyid Hsel.
  assert (Hdom0 : dom (_items (graph w)) = ∅) by (rewrite Hitems; apply dom_empty_L).
  assert (Hlen : (length (rows t) =? 0) = false).
  { apply Nat.eqb_neq. destruct (rows t); [congruence | discriminate]. }
  pose proof (plot_profiles_consistent w) as Hcons.
  unfold _plot_profiles in *. rewrite Hdata in *. simpl in *.
  set (items := imap _ (rows t)) in *.
  set (g1 := foldl _ (graph w) items) in *.
  set (w1 := with_profiles _ (with_graph g1 w)) in *.
  destruct (add_items_dom items (graph w)) as [Hdom1 Hsel1].
  destruct (add_items_by_id items (graph w)) as [Hid1 Hval1].
  fold g1 in Hdom1, Hsel1, Hid1, Hval1.
  assert (Hidx : index <$> items = seq 0 (length (rows t)))
    by apply (new_items_indices _ _ _ 0).
  assert (Hids : instance_id <$> items = row_id <$> rows t)
    by (apply new_items_ids; reflexivity).
  rewrite Hdom0, Hidx, union_empty_l_L in Hdom1.
  rewrite Hbyid, dom_empty_L, Hids, union_empty_l_L in Hid1.
  rewrite Hsel in Hsel1.
  assert (Hval : forall x idx, _items_by_id g1 !! x = Some idx ->
                               idx ∈ dom (_items g1)).
  { apply Hval1. intros x idx. rewrite Hbyid, lookup_empty. discriminate. }
  assert (Hset1 : settled w1).
  { unfold settled, plot_pending. simpl. rewrite Hsel1, Hdom1, Hdata.
    repeat split; try apply empty_subseteq.
    intros t' [= <-] i Hi. set_unfold. lia. }
  unfold __select_data_instances_with in *.
  change (data w1) with (data w) in *. rewrite Hdata in *.
  rewrite Hlen in *. simpl in *.
  destruct (has_selection w1) eqn:Hhas; simpl in *.
  - set (w2 := if length (rows t) <=? foldr Nat.max 0 (selection w1)
               then with_selection [] w1 else w1) in *.
    assert (Hset2 : settled w2)
      by (unfold w2; destruct (length (rows t) <=? _); exact Hset1).
    assert (Hg2 : graph w2 = g1)
      by (unfold w2; destruct (length (rows t) <=? _); reflexivity).
    assert (Hp2 : plot_pending w2 = false) by exact (proj1 (proj2 Hset2)).
    destruct (select_settled plotted_already w2 (selection w2) Hset2)
      as (w' & o & E & Hg' & Hs' & _ & Hset').
    { unfold w2. destruct (length (rows t) <=? _) eqn:Hmax;
        intros i Hi; [inversion Hi|].
      apply Nat.leb_gt in Hmax. apply foldr_max_ge in Hi.
      simpl. rewrite Hdom1. set_unfold. lia. }
    exists w'. split; [exact E|].
    destruct (Hcons w' t eq_refl Hdom0 Hsel E) as (Hc & Hd & Hdi & Hprof).
    destruct (select_facts _ _ _ _ Hp2 E) as (Hsv & _).
    pose proof (select_dom _ _ _ _ Hp2 E) as Hdom'.
    unfold settings_view in Hsv.
    injection Hsv as _ _ Hss _ _ _ Hgv _ Hby _ _ _.
    split; [exact Hc|]. split; [exact Hprof|].
    split; [now rewrite Hd|]. split; [exact Hdi|].
    split; [rewrite Hgv; unfold w2; destruct (length (rows t) <=? _);
            reflexivity|].
    split; [rewrite Hss; unfold w2; destruct (length (rows t) <=? _);
            reflexivity|].
    split.
    { apply (listed_in_range _ Hset'). intros i Hi. rewrite Hs' in Hi.
      now apply elem_of_list_of_set in Hi. }
    rewrite Hby, Hdom', Hg2.
    split; [exact Hid1|]. split; [exact Hval|].
    intros (i & Hi & Hge).
    assert (Hmax : (length (rows t) <=? foldr Nat.max 0 (selection w1)) = true).
    { apply Nat.leb_le. apply foldr_max_ge in Hi.
      change (selection w1) with (selection w). lia. }
    assert (Hgs : graph_selection (graph w') = ∅).
    { rewrite Hg'. unfold w2. rewrite Hmax. simpl. rewrite Hsel1.
      apply updated_selection_empty. }
    split; [|exact Hgs]. rewrite Hs', Hgs. apply list_of_set_empty.
  - exists w1. split; [reflexivity|].
    destruct (Hcons w1 t eq_refl Hdom0 Hsel eq_refl) as (Hc & Hd & Hdi & Hprof).
    split; [exact Hc|]. split; [exact Hprof|].
    split; [exact Hdata|]. split; [reflexivity|].
    split; [reflexivity|]. split; [reflexivity|].
    assert (Hnil : selection w = []).
    { unfold has_selection in Hhas. change (selection w1) with (selection w) in Hhas.
      destruct (selection w); [reflexivity | discriminate]. }
    split.
    { intros t' _ i Hi. change (selection w1) with (selection w) in Hi.
      rewrite Hnil in Hi. inversion Hi. }
    split; [exact Hid1|]. split; [exact Hval|].
    intros (i & Hi & _). rewrite Hnil in Hi. inversion Hi.
Qed.

(** *** [select_subset] *)

Lemma for_each_fails {A S : Type} (step : A -> S -> option S) (l : list A)
  (a : A) (s : S) :
  a ∈ l -> (forall s', step a s' = None) -> for_each step l s = None.
Proof.
  intros Ha Hfail. revert s. induction l as [|b l IH]; intros s;
    [inversion Ha|].
  simpl. apply elem_of_cons in Ha as [<-|Ha].
  - now rewrite Hfail.
  - destruct (step b s); simpl; [now apply IH | reflexivity].
Qed.

Lemma select_subset_missing (ids : gset nat) w (x : nat) :
  x ∈ ids -> _items_by_id (graph w) !! x = None ->
  select_subset ids w = None.
Proof.
  intros Hx Hnone. unfold select_subset.
  rewrite (for_each_fails _ _ x); [reflexivity| |].
  - now apply elem_of_list_of_set.
  - intros items. now rewrite Hnone.
Qed.

Lemma select_subset_total (ids : gset nat) w :
  ids ⊆ dom (_items_by_id (graph w)) ->
  (forall x idx, _items_by_id (graph w) !! x = Some idx ->
                 idx ∈ dom (_items (graph w))) ->
  is_Some (select_subset ids w).
Proof.
  intros Hsub Hval. unfold select_subset.
  assert (Hrun : forall l items,
             (forall x, x ∈ l -> x ∈ ids) ->
             dom items = dom (_items (graph w)) ->
             is_Some (for_each
                        (fun i items =>
                           idx ← _items_by_id (graph w) !! i;
                           item_call into_subset idx items) l items)).
  { induction l as [|a l IH]; intros items Hl Hdom; simpl; [eauto|].
    assert (Ha : a ∈ dom (_items_by_id (graph w))) by (apply Hsub, Hl; left).
    apply elem_of_dom in Ha as [idx Hidx]. rewrite Hidx. simpl.
    assert (Hin : idx ∈ dom items) by (rewrite Hdom; exact (Hval a idx Hidx)).
    apply elem_of_dom in Hin as [it Hit].
    rewrite (item_call_Some _ _ _ _ Hit). simpl.
    apply IH; [intros x Hx; apply Hl; now right|].
    rewrite dom_insert_L, <- Hdom. apply elem_of_dom_2 in Hit. set_solver. }
  destruct (Hrun (list_of_set ids) (_items (graph w))) as [items ->].
  - intros x Hx. now apply elem_of_list_of_set.
  - reflexivity.
  - simpl. eauto.
Qed.

(** *** [set_data] *)

(** [set_data] on a table with a continuous attribute, up to
    [_setup_plot]. *)
Lemma set_data_setup (restored : option ContextValues) t w :
  continuous_attributes (domain t) <> [] ->
  exists w0,
    set_data restored (Some t) w = (w' ← _setup_plot w0; commit w') /\
    data w0 = Some t /\ graph w0 = graph_init /\ __profiles w0 = None /\
    display_index w0 = display_index w /\
    subset_selection w0 = subset_selection w /\
    selection w0 = match restored with
                   | Some c => ctx_selection c
                   | None => []
                   end.
Proof.
  intros Hc. unfold set_data, set_data_until_commit. simpl.
  assert (Hlen : (length (continuous_attributes (domain t)) <? 1) = false).
  { apply Nat.ltb_ge. destruct (continuous_attributes (domain t));
      [congruence | simpl; lia]. }
  rewrite Hlen. eexists. split; [reflexivity|].
  destruct restored; now repeat split.
Qed.

Lemma update_visibility_plotted w :
  __profiles w <> None ->
  __update_visibility w = Some (__update_visibility_groups (show_profiles w)).
Proof.
  intros H. apply update_visibility_not_pending.
  now apply profiles_plotted_not_pending.
Qed.

Lemma commit_total w : selection_in_range w -> is_Some (commit w).
Proof.
  intros Hr. destruct (data w) as [t|] eqn:Hd.
  - destruct (commit_in_range w t Hd (Hr t Hd)) as (selected & -> & _). eauto.
  - rewrite (commit_no_data w Hd). eauto.
Qed.

(** The two "Line plot" displays: the profiles are plotted at once. *)
Lemma setup_plot_instances w t :
  data w = Some t -> rows t <> [] -> graph w = graph_init ->
  show_inst (display_index w) = true ->
  exists w',
    _setup_plot w = Some w' /\ selection_in_range w' /\
    ((exists i, i ∈ selection w /\ length (rows t) <= i) ->
     selection w' = [] /\ graph_selection (graph w') = ∅).
Proof.
  intros Hd Hrows Hg Hshow. unfold _setup_plot. rewrite Hd, Hshow.
  destruct (plot_profiles_outcome w t Hd Hrows)
    as (w1 & -> & Hc1 & Hp1 & Hd1 & _ & _ & _ & Hr1 & _ & _ & Hstale);
    try (rewrite Hg; reflexivity).
  simpl.
  destruct (plot_groups_total w1 t Hd1) as [w2 Hw2]; [intros _; exact Hrows|].
  rewrite Hw2. simpl.
  pose proof (plot_groups_core _ _ Hw2) as Hcore.
  pose proof (plot_groups_kept _ _ Hw2) as K2.
  unfold core in Hcore. injection Hcore as _ Hprof _ _ _.
  rewrite update_visibility_plotted by (now rewrite Hprof).
  eexists. split; [reflexivity|].
  pose proof (kept_trans _ _ _ K2 (visibility_kept w2)) as K.
  split; [exact (kept_in_range _ _ K Hr1)|].
  intros Hs. destruct (Hstale Hs) as [E1 E2].
  destruct K as (_ & Ks & Kg). now rewrite Ks, Kg.
Qed.

(** "Mean": no profile is plotted and the selection is left as the stored
    context gave it. *)
Lemma setup_plot_mean w t :
  data w = Some t -> rows t <> [] -> __profiles w = None ->
  display_index w = MEAN ->
  exists w', _setup_plot w = Some w' /\ kept w w'.
Proof.
  intros Hd Hrows Hprof Hdi. unfold _setup_plot. rewrite Hd, Hdi. simpl.
  destruct (plot_groups_total w t Hd) as [w2 Hw2]; [intros _; exact Hrows|].
  rewrite Hw2. simpl.
  pose proof (plot_groups_core _ _ Hw2) as Hcore.
  pose proof (plot_groups_kept _ _ Hw2) as K2.
  unfold core in Hcore. injection Hcore as _ _ Hdi2 _ _.
  unfold __update_visibility. rewrite update_visibility_not_pending.
  - eexists. split; [reflexivity|].
    exact (kept_trans _ _ _ K2 (visibility_kept w2)).
  - unfold plot_pending. rewrite Hdi2, Hdi. simpl.
    now rewrite andb_false_r.
Qed.

(** "Range with mean": the profiles are plotted by [__update_visibility],
    which then marks the remembered members of the subset. *)
Lemma setup_plot_range w t :
  data w = Some t -> rows t <> [] -> graph w = graph_init ->
  __profiles w = None -> display_index w = RANGE_WITH_MEAN ->
  (subset_selection w ⊆ list_to_set (row_id <$> rows t) ->
   exists w', _setup_plot w = Some w' /\ selection_in_range w' /\
     ((exists i, i ∈ selection w /\ length (rows t) <= i) ->
      selection w' = [] /\ graph_selection (graph w') = ∅)) /\
  (forall x, x ∈ subset_selection w -> x ∉ row_id <$> rows t ->
             _setup_plot w = None).
Proof.
  intros Hd Hrows Hg Hprof Hdi. unfold _setup_plot. rewrite Hd, Hdi. simpl.
  destruct (plot_groups_total w t Hd) as [w2 Hw2]; [intros _; exact Hrows|].
  rewrite Hw2. simpl.
  pose proof (plot_groups_core _ _ Hw2) as Hcore.
  pose proof (plot_groups_kept _ _ Hw2) as (Kd & Ks & _).
  apply plot_groups_shape in Hw2 as (gs & ->).
  unfold core in Hcore. simpl in Hcore. clear Hcore.
  set (w2 := with_groups gs w) in *.
  assert (Hpend : plot_pending w2 = true).
  { unfold plot_pending. simpl. rewrite Hprof, Hdi, Hd. reflexivity. }
  unfold __update_visibility, __update_visibility_with,
    __update_visibility_profiles_with.
  rewrite Hpend.
  destruct (plot_profiles_outcome w2 t Hd Hrows)
    as (w3 & -> & Hc3 & Hp3 & Hd3 & _ & _ & Hss3 & Hr3 & Hby3 & Hval3 & Hstale);
    try (simpl; rewrite Hg; reflexivity).
  simpl. change (subset_selection w2) with (subset_selection w) in Hss3.
  rewrite Hss3. split.
  - intros Hsub.
    destruct (select_subset_total (subset_selection w) w3) as [w4 Hw4];
      [now rewrite Hby3 | exact Hval3 |].
    rewrite Hw4. simpl. eexists. split; [reflexivity|].
    pose proof (kept_trans _ _ _ (select_subset_kept _ _ _ Hw4)
                  (visibility_kept w4)) as K.
    split; [exact (kept_in_range _ _ K Hr3)|].
    intros Hs. destruct (Hstale Hs) as [E1 E2].
    destruct K as (_ & Ks4 & Kg4). now rewrite Ks4, Kg4.
  - intros x Hx Hnot.
    rewrite (select_subset_missing _ w3 x Hx); [reflexivity|].
    apply not_elem_of_dom. rewrite Hby3. now rewrite elem_of_list_to_set.
Qed.

Lemma setup_then_commit w t w1 :
  _setup_plot w = Some w1 -> selection_in_range w1 ->
  exists w', (w' ← _setup_plot w; commit w') = Some w' /\ kept w1 w'.
Proof.
  intros E Hr. rewrite E. simpl. destruct (commit_total w1 Hr) as [w' Hw'].
  exists w'. split; [exact Hw' | now apply commit_kept].
Qed.

(** X21: a table with rows and a continuous attribute is taken in unless the
    display is "Mean" and the stored selection names a row the table does
    not have, or the display is "Range with mean" and the widget still
    remembers a subset member whose id no row of the table has. *)
Theorem set_data_raises_iff (restored : option ContextValues) t w :
  rows t <> [] -> continuous_attributes (domain t) <> [] ->
  set_data restored (Some t) w = None <->
  (display_index w = MEAN /\
   exists c i, restored = Some c /\ i ∈ ctx_selection c /\
               length (rows t) <= i) \/
  (display_index w = RANGE_WITH_MEAN /\
   exists x, x ∈ subset_selection w /\ x ∉ row_id <$> rows t).
Proof.
  intros Hrows Hcont.
  destruct (set_data_setup restored t w Hcont)
    as (w0 & -> & Hd0 & Hg0 & Hp0 & Hdi0 & Hss0 & Hsel0).
  destruct (display_index w) eqn:Hdi.
  - destruct (setup_plot_range w0 t Hd0 Hrows Hg0 Hp0 Hdi0) as [Htot Hfail].
    rewrite Hss0 in Htot, Hfail.
    split.
    + intros Hnone.
      destruct (decide (Forall (fun x => x ∈ row_id <$> rows t)
                          (elements (subset_selection w)))) as [Hall|Hnot].
      * rewrite Forall_forall in Hall.
        destruct Htot as (w1 & E & Hr & _).
        { intros x Hx. rewrite elem_of_list_to_set. apply Hall.
          now apply elem_of_elements. }
        destruct (setup_then_commit w0 t w1 E Hr) as (w' & Hw' & _).
        congruence.
      * apply not_Forall_Exists in Hnot; [|intros i; apply _].
        apply Exists_exists in Hnot as (x & Hx & Hn).
        right. split; [reflexivity|]. exists x.
        split; [now apply elem_of_elements in Hx | exact Hn].
    + intros [[? _]|[_ (x & Hx & Hn)]]; [discriminate|].
      now rewrite (Hfail x Hx Hn).
  - destruct (setup_plot_instances w0 t Hd0 Hrows Hg0) as (w1 & E & Hr & _);
      [now rewrite Hdi0|].
    destruct (setup_then_commit w0 t w1 E Hr) as (w' & -> & _).
    split; [discriminate|]. intros [[? _]|[? _]]; discriminate.
  - destruct (setup_plot_mean w0 t Hd0 Hrows Hp0 Hdi0) as (w1 & E & K).
    pose proof K as (Kd & Ks & _).
    split.
    + intros Hnone.
      destruct (decide (Forall (fun i => i < length (rows t)) (selection w0)))
        as [Hall|Hnot].
      * rewrite Forall_forall in Hall.
        destruct (setup_then_commit w0 t w1 E) as (w' & Hw' & _);
          [|congruence].
        intros t' Ht' i Hi. rewrite Kd, Hd0 in Ht'. injection Ht' as <-.
        rewrite Ks in Hi. now apply Hall.
      * apply not_Forall_Exists in Hnot; [|intros i; apply _].
        apply Exists_exists in Hnot as (i & Hi & Hge). simpl in Hge.
        left. split; [reflexivity|].
        rewrite Hsel0 in Hi. destruct restored as [c|]; [|inversion Hi].
        exists c, i. split; [reflexivity|]. split; [exact Hi | lia].
    + intros [[_ (c & i & -> & Hi & Hge)]|[? _]]; [|discriminate].
      rewrite E. simpl. destruct (commit w1) as [w'|] eqn:Ec; [|reflexivity].
      apply commit_inv in Ec as (_ & _ & Hall).
      rewrite Kd in Hall. specialize (Hall t Hd0 i).
      rewrite Ks, Hsel0 in Hall. specialize (Hall Hi). lia.
  - destruct (setup_plot_instances w0 t Hd0 Hrows Hg0) as (w1 & E & Hr & _);
      [now rewrite Hdi0|].
    destruct (setup_then_commit w0 t w1 E Hr) as (w' & -> & _).
    split; [discriminate|]. intros [[? _]|[? _]]; discriminate.
Qed.

(** X22: in the displays that plot the profiles, a table with rows and a
    continuous attribute is taken in with the stored selection dropped when
    it names a row the table does not have: nothing is selected afterwards. *)
Theorem set_data_drops_stale_selection (c : ContextValues) t w (i : nat) :
  rows t <> [] -> continuous_attributes (domain t) <> [] ->
  display_index w <> MEAN ->
  subset_selection w ⊆ list_to_set (row_id <$> rows t) ->
  i ∈ ctx_selection c -> length (rows t) <= i ->
  exists w',
    set_data (Some c) (Some t) w = Some w' /\
    selection w' = [] /\ graph_selection (graph w') = ∅.
Proof.
  intros Hrows Hcont Hdi Hsub Hi Hge.
  destruct (set_data_setup (Some c) t w Hcont)
    as (w0 & -> & Hd0 & Hg0 & Hp0 & Hdi0 & Hss0 & Hsel0).
  assert (Hstale : exists i, i ∈ selection w0 /\ length (rows t) <= i)
    by (exists i; now rewrite Hsel0).
  assert (Hsetup : exists w1,
             _setup_plot w0 = Some w1 /\ selection_in_range w1 /\
             selection w1 = [] /\ graph_selection (graph w1) = ∅).
  { destruct (display_index w) eqn:Edi; [| |congruence|].
    - destruct (setup_plot_range w0 t Hd0 Hrows Hg0 Hp0 Hdi0) as [Htot _].
      destruct Htot as (w1 & E & Hr & Hs); [now rewrite Hss0|].
      exists w1. destruct (Hs Hstale). eauto.
    - destruct (setup_plot_instances w0 t Hd0 Hrows Hg0)
        as (w1 & E & Hr & Hs); [now rewrite Hdi0|].
      exists w1. destruct (Hs Hstale). eauto.
    - destruct (setup_plot_instances w0 t Hd0 Hrows Hg0)
        as (w1 & E & Hr & Hs); [now rewrite Hdi0|].
      exists w1. destruct (Hs Hstale). eauto. }
  destruct Hsetup as (w1 & E & Hr & Hs1 & Hg1).
  destruct (setup_then_commit w0 t w1 E Hr) as (w' & Hw' & (_ & Ks & Kg)).
  exists w'. split; [exact Hw'|]. now rewrite Ks, Kg.
Qed.

(** *** Tables without rows, and grouping *)

(** X18: with data in the widget, [_plot_groups] raises exactly when no
    grouping variable is chosen and the table has no row. *)
Theorem plot_groups_raises_iff w t :
  data w = Some t ->
  _plot_groups w = None <-> group_var w = None /\ rows t = [].
Proof.
  intros Hd. split.
  - intros Hnone.
    destruct (group_var w) as [v|] eqn:Hg.
    + destruct (plot_groups_total w t Hd) as [w' Hw'];
        [rewrite Hg; discriminate | congruence].
    + split; [reflexivity|].
      destruct (rows t) as [|r rs] eqn:Hr; [reflexivity|].
      destruct (plot_groups_total w t Hd) as [w' Hw'];
        [rewrite Hr; discriminate | congruence].
  - intros [Hg Hr]. now apply (plot_groups_no_rows w t).
Qed.

Lemma setup_plot_no_rows w t :
  data w = Some t -> rows t = [] -> group_var w = None ->
  _setup_plot w = None.
Proof.
  intros Hd Hr Hg. unfold _setup_plot. rewrite Hd.
  destruct (show_inst (display_index w)).
  - unfold _plot_profiles. rewrite Hd. simpl. rewrite Hr. simpl.
    unfold __select_data_instances_with. simpl. rewrite Hd, Hr. simpl.
    now rewrite (plot_groups_no_rows _ t).
  - simpl. now rewrite (plot_groups_no_rows w t).
Qed.

(** X20: a table with a continuous attribute and no row makes [set_data]
    raise when no grouping variable results: the class is not discrete and
    there is no stored context, or the stored context holds no group
    variable. *)
Theorem set_data_empty_table (restored : option ContextValues) t w :
  rows t = [] -> continuous_attributes (domain t) <> [] ->
  (forall c, restored = Some c -> ctx_group_var c = None) ->
  (restored = None ->
   forall v, class_var (domain t) = Some v -> is_discrete v = false) ->
  set_data restored (Some t) w = None.
Proof.
  intros Hr Hcont Hctx Hclass. unfold set_data, set_data_until_commit. simpl.
  assert (Hlen : (length (continuous_attributes (domain t)) <? 1) = false).
  { apply Nat.ltb_ge. destruct (continuous_attributes (domain t));
      [congruence | simpl; lia]. }
  rewrite Hlen.
  rewrite (setup_plot_no_rows _ t); [reflexivity|now destruct restored|exact Hr|].
  destruct restored as [c|]; simpl.
  - now apply Hctx.
  - destruct (class_var (domain t)) as [v|] eqn:Hv; [|reflexivity].
    now rewrite (Hclass eq_refl v eq_refl).
Qed.

(** X19: with a grouping variable [_plot_groups] goes through and leaves one
    slot for each value of the variable; a slot is [None] exactly when no
    row of the table takes that value. *)
Theorem plot_groups_by_variable w t (v : GroupVar) :
  data w = Some t -> group_var w = Some v ->
  exists gs,
    _plot_groups w = Some (with_groups (Some gs) w) /\
    length gs = group_values v (domain t) /\
    forall i g, gs !! i = Some g ->
      (g = None <->
       forall r, r ∈ rows t ->
         (group_value v r =? num_of_Z (Z.of_nat i))%num = false).
Proof.
  intros Hd Hg.
  destruct (plot_groups_total w t Hd) as [w' Hw'];
    [rewrite Hg; discriminate|].
  unfold _plot_groups in *. rewrite Hd, Hg in *. simpl in *.
  destruct (mapM _ (seq 0 (group_values v (domain t)))) as [gs|] eqn:E;
    simpl in *; [|discriminate].
  exists gs. split; [reflexivity|].
  apply mapM_Some in E.
  pose proof (Forall2_length _ _ _ E) as Hlen. rewrite length_seq in Hlen.
  split; [now rewrite Hlen|].
  intros i g Hi.
  destruct (Forall2_lookup_r _ _ _ _ _ E Hi) as (j & Hj & Hf).
  apply lookup_seq in Hj as [-> _]. simpl in Hf.
  destruct (List.filter _ (rows t)) as [|r rs] eqn:Ef.
  - injection Hf as <-. split; [intros _|reflexivity].
    intros r Hr. apply list_elem_of_In in Hr.
    destruct (group_value v r =? _)%num eqn:Eq; [|reflexivity].
    assert (Hin : In r []) by (rewrite <- Ef; apply filter_In; now split).
    inversion Hin.
  - destruct (__plot_group _ _) as [g0|]; simpl in Hf; [|discriminate].
    injection Hf as <-. split; [discriminate|]. intros Hall.
    assert (Hin : In r (r :: rs)) by now left.
    rewrite <- Ef in Hin. apply filter_In in Hin as [Hin Heq].
    apply list_elem_of_In in Hin. rewrite (Hall r Hin) in Heq. discriminate.
Qed.

(** *** What is plotted *)

Lemma show_profiles_curves w :
  curve_view (_items (graph (show_profiles w))) = curve_view (_items (graph w)).
Proof.
  unfold show_profiles. destruct (__profiles w) as [ps|]; [|reflexivity].
  apply map_eq. intros i. unfold curve_view. simpl.
  rewrite !lookup_fmap.
  rewrite (foldl_setVisible_lookup
             (fun j => show_inst (display_index w)
                       || bool_decide (j ∈ selection w ++ _)
                          && show_selection (display_index w))).
  destruct (_items (graph w) !! i) as [it|]; [|reflexivity]. simpl.
  now destruct (bool_decide (i ∈ ps)).
Qed.

Lemma item_call_curves (method : LinePlotItem F -> LinePlotItem F) (i : nat)
  items items' :
  (forall it, curve (method it) = curve it) ->
  item_call method i items = Some items' ->
  curve_view items' = curve_view items.
Proof.
  intros Hm. unfold item_call.
  destruct (items !! i) as [it|] eqn:E; simpl; [|discriminate].
  intros [= <-]. apply map_eq. intros j. unfold curve_view.
  rewrite !lookup_fmap.
  destruct (decide (j = i)) as [->|Hne].
  - rewrite lookup_insert_eq, E. simpl. now rewrite Hm.
  - now rewrite lookup_insert_ne by congruence.
Qed.

Lemma for_each_item_call_curves (method : LinePlotItem F -> LinePlotItem F)
  (l : list nat) items items' :
  (forall it, curve (method it) = curve it) ->
  for_each (item_call method) l items = Some items' ->
  curve_view items' = curve_view items.
Proof.
  intros Hm. revert items. induction l as [|a l IH]; intros items; simpl.
  - now intros [= <-].
  - destruct (item_call method a items) as [m|] eqn:E; simpl; [|discriminate].
    intros H. rewrite (IH _ H). exact (item_call_curves _ _ _ _ Hm E).
Qed.

Lemma selection_changed_curves
  (plot : OWLinePlot F -> option (OWLinePlot F)) w w' :
  plot_pending w = false -> selection_changed_with plot w = Some w' ->
  curve_view (_items (graph w')) = curve_view (_items (graph w)).
Proof.
  intros Hp. rewrite selection_changed_not_pending by exact Hp. intros H.
  apply commit_shape in H as (o & ->).
  exact (show_profiles_curves
           (with_selection (list_of_set (graph_selection (graph w))) w)).
Qed.

Lemma select_curves (plot : OWLinePlot F -> option (OWLinePlot F))
  (c : list nat) w w' :
  plot_pending w = false -> select_with plot c w = Some w' ->
  curve_view (_items (graph w')) = curve_view (_items (graph w)).
Proof.
  intros Hp H. unfold select_with in H.
  destruct (for_each (item_call item_deselect) _ _) as [items1|] eqn:E1;
    simpl in H; [|discriminate].
  destruct (for_each (item_call item_select) _ items1) as [items2|] eqn:E2;
    simpl in H; [|discriminate].
  apply selection_changed_curves in H; [|exact Hp]. rewrite H. simpl.
  transitivity (curve_view items1).
  - eapply for_each_item_call_curves; [|exact E2]. reflexivity.
  - eapply for_each_item_call_curves; [|exact E1]. reflexivity.
Qed.

Lemma select_subset_curves (ids : gset nat) w w' :
  select_subset ids w = Some w' ->
  curve_view (_items (graph w')) = curve_view (_items (graph w)).
Proof.
  unfold select_subset.
  destruct (for_each _ _ _) as [items|] eqn:E; simpl; [|discriminate].
  intros [= <-]. simpl.
  revert E. generalize (_items (graph w)) as m.
  induction (list_of_set ids) as [|a l IH]; intros m; simpl.
  - now intros [= <-].
  - destruct (_items_by_id (graph w) !! a) as [idx|]; simpl; [|discriminate].
    destruct (item_call into_subset idx m) as [m1|] eqn:E1; simpl;
      [|discriminate].
    intros H. rewrite (IH _ H).
    eapply item_call_curves; [|exact E1]. reflexivity.
Qed.

Lemma add_items_lookup (X : list F) (gv : list nat) (rs : list (Row F))
  (k : nat) (g : LinePlotGraph F) (i : nat) :
  _items (foldl (fun g it => add_line_plot_item it g) g
            (imap (fun j => new_item X gv (k + j)) rs)) !! i =
  match (if k <=? i then rs !! (i - k) else None) with
  | Some r => Some (new_item X gv i r)
  | None => _items g !! i
  end.
Proof.
  revert k g. induction rs as [|r rs IH]; intros k g; simpl.
  - now destruct (k <=? i).
  - rewrite (imap_ext _ (fun j => new_item X gv (S k + j)))
      by (intros j x _; simpl; f_equal; lia).
    rewrite IH, Nat.add_0_r.
    assert (Hadd : forall j, j <> k ->
               _items (add_line_plot_item (new_item X gv k r) g) !! j
               = _items g !! j)
      by (intros j Hj; simpl; now rewrite lookup_insert_ne by congruence).
    destruct (Nat.leb_spec (S k) i) as [H1|H1],
             (Nat.leb_spec k i) as [H2|H2]; try lia.
    + replace (i - k) with (S (i - S k)) by lia.
      change ((r :: rs) !! S (i - S k)) with (rs !! (i - S k)).
      destruct (rs !! (i - S k)); [reflexivity|]. apply Hadd. lia.
    + assert (i = k) as -> by lia. rewrite Nat.sub_diag. simpl.
      now rewrite lookup_insert_eq.
    + apply Hadd. lia.
Qed.

Lemma foldr_max_lt (l : list nat) (n : nat) :
  0 < n -> (forall i, i ∈ l -> i < n) -> foldr Nat.max 0 l < n.
Proof.
  intros Hn. induction l as [|a l IH]; intros Hl; simpl; [exact Hn|].
  assert (a < n) by (apply Hl; left).
  assert (foldr Nat.max 0 l < n) by (apply IH; intros i Hi; apply Hl; now right).
  lia.
Qed.

(** What [_plot_profiles] leaves on a graph without items: one curve for
    each row, and the selection the widget held, taken through [select]
    with the keys held at the time, or dropped when it names a row the
    table does not have. *)
Lemma plot_profiles_inv w w' t :
  data w = Some t -> rows t <> [] ->
  _items (graph w) = ∅ -> graph_selection (graph w) = ∅ ->
  _plot_profiles w = Some w' ->
  (forall i,
     curve_view (_items (graph w')) !! i =
     (fun r => curve (new_item (arange1 (length (graph_variables w)))
                        (graph_variables w) i r)) <$> rows t !! i) /\
  ((forall i, i ∈ selection w -> i < length (rows t)) ->
   graph_selection (graph w') =
     updated_selection (keyboardModifiers w) ∅ (selection w) /\
   selection w' = list_of_set (graph_selection (graph w'))).
Proof.
  intros Hdata Hrows Hitems Hsel.
  assert (Hlen : (length (rows t) =? 0) = false).
  { apply Nat.eqb_neq. destruct (rows t); [congruence | discriminate]. }
  unfold _plot_profiles. rewrite Hdata. simpl.
  set (X := arange1 (length (graph_variables w))).
  pose proof (fun i => add_items_lookup X (graph_variables w) (rows t) 0
                         (graph w) i) as Hlook.
  destruct (add_items_dom (imap (new_item X (graph_variables w)) (rows t))
              (graph w)) as [_ Hsel1].
  set (g1 := foldl _ (graph w) (imap _ (rows t))) in *.
  set (w1 := with_profiles _ (with_graph g1 w)).
  assert (Hcurves : forall i,
             curve_view (_items g1) !! i =
             (fun r => curve (new_item X (graph_variables w) i r))
               <$> rows t !! i).
  { intros i. unfold curve_view. rewrite lookup_fmap, Hlook. simpl.
    rewrite Nat.sub_0_r, Hitems, lookup_empty.
    now destruct (rows t !! i). }
  rewrite Hsel in Hsel1.
  unfold __select_data_instances_with.
  change (data w1) with (data w). rewrite Hdata, Hlen. simpl.
  destruct (has_selection w1) eqn:Hhas; simpl.
  - intros H.
    assert (Hp : forall b, plot_pending (if b : bool then with_selection [] w1
                                         else w1) = false)
      by (intros []; apply profiles_plotted_not_pending; discriminate).
    split.
    + intros i. rewrite <- Hcurves.
      rewrite (select_curves _ _ _ _ (Hp _) H).
      now destruct (length (rows t) <=? _).
    + intros Hall.
      assert (Hmax : (length (rows t) <=? foldr Nat.max 0 (selection w))
                     = false).
      { apply Nat.leb_gt. apply foldr_max_lt; [|exact Hall].
        destruct (rows t); [congruence | simpl; lia]. }
      change (selection w1) with (selection w) in H. rewrite Hmax in H.
      destruct (select_facts _ _ _ _ (Hp false) H) as (_ & Hg & Hs & _).
      change (graph_selection (graph w1)) with (graph_selection g1) in Hg, Hs.
      rewrite Hsel1 in Hg, Hs.
      split; [exact Hg | now rewrite Hg].
  - intros [= <-]. split; [exact Hcurves|]. intros _.
    assert (Hnil : selection w = []).
    { unfold has_selection in Hhas.
      change (selection w1) with (selection w) in Hhas.
      destruct (selection w); [reflexivity | discriminate]. }
    simpl. rewrite Hsel1, Hnil, updated_selection_empty, list_of_set_empty.
    split; reflexivity.
Qed.

Lemma set_data_prepared (restored : option ContextValues) t w :
  continuous_attributes (domain t) <> [] ->
  exists w0,
    set_data restored (Some t) w = (w' ← _setup_plot w0; commit w') /\
    data w0 = Some t /\ graph w0 = graph_init /\ __profiles w0 = None /\
    display_index w0 = display_index w /\
    subset_selection w0 = subset_selection w /\
    selection w0 = match restored with
                   | Some c => ctx_selection c
                   | None => []
                   end /\
    graph_variables w0 = continuous_attributes (domain t) /\
    keyboardModifiers w0 = keyboardModifiers w.
Proof.
  intros Hc. unfold set_data, set_data_until_commit. simpl.
  assert (Hlen : (length (continuous_attributes (domain t)) <? 1) = false).
  { apply Nat.ltb_ge. destruct (continuous_attributes (domain t));
      [congruence | simpl; lia]. }
  rewrite Hlen. eexists. split; [reflexivity|].
  destruct restored; now repeat split.
Qed.

(** [_setup_plot] in a display that plots the profiles. *)
Lemma setup_plot_inv w w' t :
  data w = Some t -> rows t <> [] -> graph w = graph_init ->
  __profiles w = None -> display_index w <> MEAN ->
  _setup_plot w = Some w' ->
  (forall i,
     curve_view (_items (graph w')) !! i =
     (fun r => curve (new_item (arange1 (length (graph_variables w)))
                        (graph_variables w) i r)) <$> rows t !! i) /\
  ((forall i, i ∈ selection w -> i < length (rows t)) ->
   graph_selection (graph w') =
     updated_selection (keyboardModifiers w) ∅ (selection w) /\
   selection w' = list_of_set (graph_selection (graph w'))).
Proof.
  intros Hd Hrows Hg Hprof Hdi.
  assert (Hi : _items (graph w) = ∅) by now rewrite Hg.
  assert (Hs : graph_selection (graph w) = ∅) by now rewrite Hg.
  unfold _setup_plot. rewrite Hd.
  destruct (show_inst (display_index w)) eqn:Hshow.
  - destruct (_plot_profiles w) as [w1|] eqn:E1; simpl; [|discriminate].
    destruct (_plot_groups w1) as [w2|] eqn:E2; simpl; [|discriminate].
    destruct (plot_profiles_consistent w w1 t Hd) as (_ & _ & _ & Hp1);
      [rewrite Hi; apply dom_empty_L | exact Hs | exact E1 |].
    pose proof (plot_groups_kept _ _ E2) as K2.
    apply plot_groups_shape in E2 as (gs & ->).
    rewrite update_visibility_plotted by exact Hp1. intros [= <-].
    pose proof (kept_trans _ _ _ K2 (visibility_kept (with_groups gs w1)))
      as (_ & Ks & Kg).
    destruct (plot_profiles_inv w w1 t Hd Hrows Hi Hs E1) as [Hc Hr].
    split.
    + intros i. rewrite <- Hc.
      change (_items (graph (__update_visibility_groups
                               (show_profiles (with_groups gs w1)))))
        with (_items (graph (show_profiles (with_groups gs w1)))).
      now rewrite show_profiles_curves.
    + intros Hall. destruct (Hr Hall) as [A B]. rewrite Ks, Kg.
      now split.
  - simpl.
    destruct (_plot_groups w) as [w2|] eqn:E2; simpl; [|discriminate].
    apply plot_groups_shape in E2 as (gs & ->).
    assert (Hpend : plot_pending (with_groups gs w) = true).
    { unfold plot_pending. simpl. rewrite Hprof, Hd.
      destruct (display_index w); try discriminate; try congruence;
        reflexivity. }
    unfold __update_visibility, __update_visibility_with,
      __update_visibility_profiles_with.
    rewrite Hpend.
    destruct (_plot_profiles (with_groups gs w)) as [w3|] eqn:E3; simpl;
      [|discriminate].
    destruct (select_subset (subset_selection w3) w3) as [w4|] eqn:E4; simpl;
      [|discriminate].
    intros [= <-].
    pose proof (kept_trans _ _ _ (select_subset_kept _ _ _ E4)
                  (visibility_kept w4)) as (_ & Ks & Kg).
    destruct (plot_profiles_inv (with_groups gs w) w3 t Hd Hrows Hi Hs E3)
      as [Hc Hr].
    split.
    + intros i. rewrite <- Hc.
      change (_items (graph (__update_visibility_groups (show_profiles w4))))
        with (_items (graph (show_profiles w4))).
      now rewrite show_profiles_curves, (select_subset_curves _ _ _ E4).
    + intros Hall. destruct (Hr Hall) as [A B]. rewrite Ks, Kg.
      now split.
Qed.

(** In a display that plots the profiles, a table with rows and a
    continuous attribute is taken in when no remembered subset member is
    foreign to it. *)
Lemma set_data_completes (restored : option ContextValues) t w :
  rows t <> [] -> continuous_attributes (domain t) <> [] ->
  display_index w <> MEAN ->
  subset_selection w ⊆ list_to_set (row_id <$> rows t) ->
  exists w0 w1 w',
    set_data restored (Some t) w = Some w' /\
    _setup_plot w0 = Some w1 /\ kept w1 w' /\
    curve_view (_items (graph w')) = curve_view (_items (graph w1)) /\
    data w0 = Some t /\ graph w0 = graph_init /\ __profiles w0 = None /\
    display_index w0 <> MEAN /\
    selection w0 = match restored with
                   | Some c => ctx_selection c
                   | None => []
                   end /\
    graph_variables w0 = continuous_attributes (domain t) /\
    keyboardModifiers w0 = keyboardModifiers w.
Proof.
  intros Hrows Hcont Hdi Hsub.
  destruct (set_data_prepared restored t w Hcont)
    as (w0 & -> & Hd0 & Hg0 & Hp0 & Hdi0 & Hss0 & Hsel0 & Hgv0 & Hk0).
  assert (Hsetup : exists w1, _setup_plot w0 = Some w1 /\ selection_in_range w1).
  { destruct (display_index w) eqn:Edi; [| |congruence|].
    - destruct (setup_plot_range w0 t Hd0 Hrows Hg0 Hp0 Hdi0) as [Htot _].
      destruct Htot as (w1 & E & Hr & _); [now rewrite Hss0|]. eauto.
    - destruct (setup_plot_instances w0 t Hd0 Hrows Hg0)
        as (w1 & E & Hr & _); [now rewrite Hdi0|]. eauto.
    - destruct (setup_plot_instances w0 t Hd0 Hrows Hg0)
        as (w1 & E & Hr & _); [now rewrite Hdi0|]. eauto. }
  destruct Hsetup as (w1 & E & Hr).
  destruct (commit_total w1 Hr) as [w' Hw'].
  exists w0, w1, w'. rewrite E. simpl.
  split; [exact Hw'|]. split; [reflexivity|].
  split; [now apply commit_kept|].
  split; [apply commit_shape in Hw' as (o & ->); reflexivity|].
  rewrite Hdi0. now repeat split.
Qed.

(** X23: in a display that plots the profiles, [set_data] leaves one item
    for each row of the table and no other: the item of row [i] is stored
    under [i], carries the id of the row, and draws the row's values on the
    continuous attributes against 1, 2, ... *)
Theorem set_data_plots_every_row (restored : option ContextValues) t w :
  rows t <> [] -> continuous_attributes (domain t) <> [] ->
  display_index w <> MEAN ->
  subset_selection w ⊆ list_to_set (row_id <$> rows t) ->
  exists w',
    set_data restored (Some t) w = Some w' /\
    forall i,
      curve_view (_items (graph w')) !! i =
      (fun r =>
         (i, row_id r,
          arange1 (length (continuous_attributes (domain t))),
          map (fun j => nth j (row_x r) num_nan)
            (continuous_attributes (domain t))))
        <$> rows t !! i.
Proof.
  intros Hrows Hcont Hdi Hsub.
  destruct (set_data_completes restored t w Hrows Hcont Hdi Hsub)
    as (w0 & w1 & w' & E & E1 & _ & Hc & Hd0 & Hg0 & Hp0 & Hdi0 & _ & Hgv0 & _).
  exists w'. split; [exact E|].
  destruct (setup_plot_inv w0 w1 t Hd0 Hrows Hg0 Hp0 Hdi0 E1) as [Hcurves _].
  intros i. rewrite Hc, Hcurves, Hgv0. reflexivity.
Qed.

(** X24: in a display that plots the profiles, the selection a stored
    context gives back is put on the graph through [select], which reads the
    keys held at that moment: what is selected afterwards is the selection
    [select] computes from the empty one. With alt held and ctrl not, that
    is nothing. *)
Theorem set_data_restores_selection (c : ContextValues) t w :
  rows t <> [] -> continuous_attributes (domain t) <> [] ->
  display_index w <> MEAN ->
  subset_selection w ⊆ list_to_set (row_id <$> rows t) ->
  (forall i, i ∈ ctx_selection c -> i < length (rows t)) ->
  exists w',
    set_data (Some c) (Some t) w = Some w' /\
    graph_selection (graph w') =
      updated_selection (keyboardModifiers w) ∅ (ctx_selection c) /\
    selection w' = list_of_set (graph_selection (graph w')) /\
    (has_modifier (keyboardModifiers w) ControlModifier = false ->
     has_modifier (keyboardModifiers w) AltModifier = true ->
     selection w' = []).
Proof.
  intros Hrows Hcont Hdi Hsub Hall.
  destruct (set_data_completes (Some c) t w Hrows Hcont Hdi Hsub)
    as (w0 & w1 & w' & E & E1 & (_ & Ks & Kg) & _ & Hd0 & Hg0 & Hp0 & Hdi0
        & Hsel0 & _ & Hk0).
  exists w'. split; [exact E|].
  destruct (setup_plot_inv w0 w1 t Hd0 Hrows Hg0 Hp0 Hdi0 E1) as [_ Hr].
  destruct Hr as [A B]; [now rewrite Hsel0|].
  rewrite Hk0, Hsel0 in A.
  assert (Hg : graph_selection (graph w') =
               updated_selection (keyboardModifiers w) ∅ (ctx_selection c))
    by now rewrite Kg.
  split; [exact Hg|]. split; [now rewrite Ks, Kg|].
  intros Hctrl Halt. rewrite Ks, B, A. unfold updated_selection.
  rewrite Hctrl, Halt.
  replace (∅ ∖ list_to_set (ctx_selection c) : gset nat) with (∅ : gset nat)
    by set_solver.
  apply list_of_set_empty.
Qed.

End Loading.
End LoadingFacts.

(* ===================================================================== *)
(** ** The theorems at work on the example tables *)

Module Instances.
Import Widget WidgetFacts WidgetViews WidgetInvariant Examples MoreExamples.

#[local] Set Warnings "-clear-no-such-hyp".

Lemma loaded_reachable : reachable loaded.
Proof.
  apply (reachable_set_data None (Some (table 3)) (init INSTANCES false)).
  - apply reachable_init.
  - vm_compute. reflexivity.
Qed.

Lemma clicked_reachable : reachable clicked.
Proof.
  apply (reachable_click_profile NoModifier 1 loaded).
  - exact loaded_reachable.
  - vm_compute. reflexivity.
Qed.

Lemma loaded_items : dom (_items (graph loaded)) = {[0; 1; 2]}.
Proof. vm_compute. reflexivity. Qed.

(** Row 5 selected on the loaded table of three rows. *)
Lemma commit_raises_iff_out_of_range_witness :
  let w := with_selection [5] loaded in
  data w = Some (table 3) /\
  (commit w = None <->
   exists i, i ∈ selection w /\ length (rows (table 3)) <= i).
Proof.
  intros w. split; [vm_compute; reflexivity|].
  apply (LoadFacts.commit_raises_iff_out_of_range w (table 3)).
  vm_compute. reflexivity.
Defined.

Lemma reachable_selection_is_flagged_witness :
  reachable clicked /\
  (forall i it, _items (graph clicked) !! i = Some it -> index it = i) /\
  (forall i, i ∈ graph_selection (graph clicked) <->
             exists it, _items (graph clicked) !! i = Some it /\
                        _selected it = true) /\
  (forall i t, i ∈ dom (_items (graph clicked)) -> data clicked = Some t ->
               i < length (rows t)).
Proof.
  split; [exact clicked_reachable|].
  exact (EventFacts.reachable_selection_is_flagged clicked clicked_reachable).
Defined.

Lemma in_range_by_parts {F : Type} {N : Number F} (w : OWLinePlot F)
  (t : Table F) (sel : list nat) :
  data w = Some t -> selection w = sel ->
  Forall (fun i => i < length (rows t)) sel ->
  selection_in_range w.
Proof.
  intros Hd Hs Hall t' Ht i Hi. rewrite Hd in Ht. injection Ht as <-.
  rewrite Hs in Hi. rewrite Forall_forall in Hall. now apply Hall.
Qed.

Lemma clicked_in_range : selection_in_range clicked.
Proof.
  apply (in_range_by_parts clicked (table 3) [1]);
    try (vm_compute; reflexivity).
  constructor; [vm_compute; lia | constructor].
Qed.

(** Row 1 is selected and the display is switched to "Mean". *)
Lemma events_keep_selection_in_range_witness :
  consistent clicked /\ selection_in_range clicked /\
  (step (OpDisplayIndex MEAN) clicked = Some mean_shown \/
   select_by_click 0 (with_keyboardModifiers NoModifier clicked)
   = Some mean_shown) /\
  selection_in_range mean_shown /\
  exists out,
    commit mean_shown
    = Some (with_outputs (out :: outputs mean_shown) mean_shown).
Proof.
  assert (H1 : consistent clicked)
    by exact (reachable_consistent clicked clicked_reachable).
  assert (H3 : step (OpDisplayIndex MEAN) clicked = Some mean_shown \/
               select_by_click 0 (with_keyboardModifiers NoModifier clicked)
               = Some mean_shown)
    by (left; vm_compute; reflexivity).
  split; [exact H1|]. split; [exact clicked_in_range|].
  split; [exact H3|].
  exact (EventFacts.events_keep_selection_in_range (OpDisplayIndex MEAN)
           NoModifier 0 clicked mean_shown H1 clicked_in_range H3).
Defined.

(** Shift held, a drag across the plot. *)
Lemma gestures_never_raise_witness :
  let p1 := Geometry.Point PrimFloat.zero PrimFloat.zero in
  let p2 := Geometry.Point (float_of_Z 2) (float_of_Z 4) in
  reachable clicked /\
  is_Some (mouseClickEvent ShiftModifier LeftButton clicked) /\
  is_Some (mouseDragEvent ShiftModifier LeftButton true p1 p2 clicked) /\
  forall i, i ∈ dom (_items (graph clicked)) ->
            is_Some (select_by_click i
                       (with_keyboardModifiers ShiftModifier clicked)).
Proof.
  intros p1 p2. split; [exact clicked_reachable|].
  exact (EventFacts.gestures_never_raise clicked ShiftModifier LeftButton true
           p1 p2 clicked_reachable).
Defined.

Lemma empty_lasso_is_click_witness :
  has_modifier (keyboardModifiers loaded) ControlModifier = false /\
  has_modifier (keyboardModifiers loaded) AltModifier = false /\
  has_modifier (keyboardModifiers loaded) ShiftModifier = false /\
  select [] loaded = deselect_all loaded.
Proof.
  assert (H1 : has_modifier (keyboardModifiers loaded) ControlModifier = false)
    by (vm_compute; reflexivity).
  assert (H2 : has_modifier (keyboardModifiers loaded) AltModifier = false)
    by (vm_compute; reflexivity).
  assert (H3 : has_modifier (keyboardModifiers loaded) ShiftModifier = false)
    by (vm_compute; reflexivity).
  split; [exact H1|]. split; [exact H2|]. split; [exact H3|].
  exact (EventFacts.empty_lasso_is_click loaded H1 H2 H3).
Defined.

(** Ctrl held, the lines of the rows 0 and 2 crossed twice. *)
Lemma ctrl_lasso_twice_witness :
  let w := with_keyboardModifiers ControlModifier loaded in
  settled w /\
  (forall i, i ∈ [0; 2] -> i ∈ dom (_items (graph w))) /\
  has_modifier (keyboardModifiers w) ControlModifier = true /\
  exists w1 w2,
    select [0; 2] w = Some w1 /\ select [0; 2] w1 = Some w2 /\
    graph_selection (graph w2) = graph_selection (graph w) /\
    selection w2 = list_of_set (graph_selection (graph w)).
Proof.
  intros w.
  assert (Hset : settled w) by exact loaded_settled.
  assert (Hc : forall i, i ∈ [0; 2] -> i ∈ dom (_items (graph w))).
  { intros i Hi. change (graph w) with (graph loaded). rewrite loaded_items.
    set_unfold. lia. }
  assert (Hk : has_modifier (keyboardModifiers w) ControlModifier = true)
    by (vm_compute; reflexivity).
  split; [exact Hset|]. split; [exact Hc|]. split; [exact Hk|].
  exact (EventFacts.ctrl_lasso_twice w [0; 2] Hset Hc Hk).
Defined.

(** The table of three rows comes in while the id 7 is remembered. *)
Lemma set_data_raises_iff_witness :
  rows (table 3) <> [] /\
  continuous_attributes (domain (table 3)) <> [] /\
  (set_data None (Some (table 3)) remembers_7 = None <->
   (display_index remembers_7 = MEAN /\
    exists c i, None = Some c /\ i ∈ ctx_selection c /\
                length (rows (table 3)) <= i) \/
   (display_index remembers_7 = RANGE_WITH_MEAN /\
    exists x, x ∈ subset_selection remembers_7 /\
              x ∉ row_id <$> rows (table 3))).
Proof.
  assert (H1 : rows (table 3) <> []) by (vm_compute; discriminate).
  assert (H2 : continuous_attributes (domain (table 3)) <> [])
    by (vm_compute; discriminate).
  split; [exact H1|]. split; [exact H2|].
  exact (LoadingFacts.set_data_raises_iff None (table 3) remembers_7 H1 H2).
Defined.

(** Row 5 was selected on a larger table of the same domain. *)
Lemma set_data_drops_stale_selection_witness :
  let w := init (F := float) INSTANCES false in
  rows (table 3) <> [] /\
  continuous_attributes (domain (table 3)) <> [] /\
  display_index w <> MEAN /\
  subset_selection w ⊆ list_to_set (row_id <$> rows (table 3)) /\
  5 ∈ ctx_selection stored_row_5 /\ length (rows (table 3)) <= 5 /\
  exists w',
    set_data (Some stored_row_5) (Some (table 3)) w = Some w' /\
    selection w' = [] /\ graph_selection (graph w') = ∅.
Proof.
  intros w.
  assert (H1 : rows (table 3) <> []) by (vm_compute; discriminate).
  assert (H2 : continuous_attributes (domain (table 3)) <> [])
    by (vm_compute; discriminate).
  assert (H3 : display_index w <> MEAN) by discriminate.
  assert (H4 : subset_selection w ⊆ list_to_set (row_id <$> rows (table 3)))
    by apply empty_subseteq.
  assert (H5 : 5 ∈ ctx_selection stored_row_5) by (simpl; left).
  assert (H6 : length (rows (table 3)) <= 5) by (simpl; lia).
  repeat (split; [assumption|]).
  exact (LoadingFacts.set_data_drops_stale_selection stored_row_5 (table 3) w 5
           H1 H2 H3 H4 H5 H6).
Defined.

Lemma plot_groups_raises_iff_witness :
  data loaded = Some (table 3) /\
  (_plot_groups loaded = None <->
   group_var loaded = None /\ rows (table 3) = []).
Proof.
  assert (H : data loaded = Some (table 3)) by (vm_compute; reflexivity).
  split; [exact H|].
  exact (LoadingFacts.plot_groups_raises_iff loaded (table 3) H).
Defined.

(** The table of no rows comes in. *)
Lemma set_data_empty_table_witness :
  let w := init (F := float) MEAN false in
  rows (table 0) = [] /\
  continuous_attributes (domain (table 0)) <> [] /\
  (forall c, None = Some c -> ctx_group_var c = None) /\
  (@None ContextValues = None ->
   forall v, class_var (domain (table 0)) = Some v -> is_discrete v = false) /\
  set_data None (Some (table 0)) w = None.
Proof.
  intros w.
  assert (H1 : rows (table 0) = []) by reflexivity.
  assert (H2 : continuous_attributes (domain (table 0)) <> [])
    by (vm_compute; discriminate).
  assert (H3 : forall c, None = Some c -> ctx_group_var c = None)
    by (intros c Hc; discriminate).
  assert (H4 : @None ContextValues = None ->
               forall v, class_var (domain (table 0)) = Some v ->
                         is_discrete v = false)
    by (intros _ v Hv; discriminate).
  repeat (split; [assumption|]).
  exact (LoadingFacts.set_data_empty_table None (table 0) w H1 H2 H3 H4).
Defined.

(** Three class values, the middle one taken by no row. *)
Lemma plot_groups_by_variable_witness :
  data grouped = Some classed /\ group_var grouped = Some GroupByClass /\
  exists gs,
    _plot_groups grouped = Some (with_groups (Some gs) grouped) /\
    length gs = group_values GroupByClass (domain classed) /\
    forall i g, gs !! i = Some g ->
      (g = None <->
       forall r, r ∈ rows classed ->
         (group_value GroupByClass r =? num_of_Z (Z.of_nat i))%num = false).
Proof.
  split; [reflexivity|]. split; [reflexivity|].
  exact (LoadingFacts.plot_groups_by_variable grouped classed GroupByClass
           eq_refl eq_refl).
Defined.

(** The rows 1 and 2 are selected and shift is held; the lines of the rows
    0 and 2 are met in one order, and in another with one of them twice;
    the sets are listed forwards in the one run and backwards in the
    other. *)
Lemma select_reads_indices_as_set_witness :
  list_to_set [0; 2] =@{gset nat} list_to_set [2; 0; 0] /\
  settled two_selected /\
  (forall i, i ∈ [0; 2] -> i ∈ dom (_items (graph two_selected))) /\
  exists w1 w2,
    select (SI := elements_iteration) [0; 2] two_selected = Some w1 /\
    select (SI := reversed_iteration) [2; 0; 0] two_selected = Some w2 /\
    graph_selection (graph w2) = graph_selection (graph w1) /\
    selected_view (_items (graph w2)) = selected_view (_items (graph w1)) /\
    selection w2 ≡ₚ selection w1.
Proof.
  assert (H : list_to_set [0; 2] =@{gset nat} list_to_set [2; 0; 0])
    by (vm_compute; reflexivity).
  assert (Hdom : dom (_items (graph two_selected)) = {[0; 1; 2]})
    by (vm_compute; reflexivity).
  assert (Hc : forall i, i ∈ [0; 2] ->
                         i ∈ dom (_items (graph two_selected))).
  { intros i Hi.
    apply (eq_ind_r (fun d : gset nat => i ∈ d) (x := {[0; 1; 2]}));
      [|exact Hdom].
    apply (candidates_plotted [0; 2]); [repeat constructor | exact Hi]. }
  split; [exact H|]. split; [exact two_selected_settled|].
  split; [exact Hc|].
  exact (EventFacts.select_reads_indices_as_set elements_iteration
           reversed_iteration [0; 2] [2; 0; 0] two_selected H
           two_selected_settled Hc).
Defined.

Lemma set_data_plots_every_row_witness :
  let w := init (F := float) INSTANCES false in
  let t := table 3 in
  rows t <> [] /\ continuous_attributes (domain t) <> [] /\
  display_index w <> MEAN /\
  subset_selection w ⊆ list_to_set (row_id <$> rows t) /\
  exists w',
    set_data None (Some t) w = Some w' /\
    forall i,
      curve_view (_items (graph w')) !! i =
      (fun r =>
         (i, row_id r,
          arange1 (length (continuous_attributes (domain t))),
          map (fun j => nth j (row_x r) num_nan)
            (continuous_attributes (domain t))))
        <$> rows t !! i.
Proof.
  intros w t.
  assert (H1 : rows t <> []) by (vm_compute; discriminate).
  assert (H2 : continuous_attributes (domain t) <> [])
    by (vm_compute; discriminate).
  assert (H3 : display_index w <> MEAN) by discriminate.
  assert (H4 : subset_selection w ⊆ list_to_set (row_id <$> rows t))
    by apply empty_subseteq.
  repeat (split; [assumption|]).
  exact (LoadingFacts.set_data_plots_every_row None t w H1 H2 H3 H4).
Defined.

(** Row 1 was selected when the table was last seen; alt is held while it
    comes in again. *)
Lemma set_data_restores_selection_witness :
  let w := with_keyboardModifiers AltModifier (init (F := float) INSTANCES false) in
  let t := table 3 in
  rows t <> [] /\ continuous_attributes (domain t) <> [] /\
  display_index w <> MEAN /\
  subset_selection w ⊆ list_to_set (row_id <$> rows t) /\
  (forall i, i ∈ ctx_selection stored_row_1 -> i < length (rows t)) /\
  exists w',
    set_data (Some stored_row_1) (Some t) w = Some w' /\
    graph_selection (graph w') =
      updated_selection (keyboardModifiers w) ∅ (ctx_selection stored_row_1) /\
    selection w' = list_of_set (graph_selection (graph w')) /\
    (has_modifier (keyboardModifiers w) ControlModifier = false ->
     has_modifier (keyboardModifiers w) AltModifier = true ->
     selection w' = []).
Proof.
  intros w t.
  assert (H1 : rows t <> []) by (vm_compute; discriminate).
  assert (H2 : continuous_attributes (domain t) <> [])
    by (vm_compute; discriminate).
  assert (H3 : display_index w <> MEAN) by discriminate.
  assert (H4 : subset_selection w ⊆ list_to_set (row_id <$> rows t))
    by apply empty_subseteq.
  assert (H5 : forall i, i ∈ ctx_selection stored_row_1 -> i < length (rows t)).
  { intros i Hi. apply list_elem_of_singleton in Hi as ->. simpl. lia. }
  repeat (split; [assumption|]).
  exact (LoadingFacts.set_data_restores_selection stored_row_1 t w
           H1 H2 H3 H4 H5).
Defined.

End Instances.
